(** * Single-stock autotrading: decision and simulation engine

    A shallow embedding of the technical, momentum and intraday band
    analyzers and the strategy combiner (strategy.py), the indicator helpers
    they call and the rolling indicators (indicators.py), the position
    sizers, the risk controller and the stop-loss manager (risk_control.py)
    and the backtest simulator with its statistics (backtest.py).

    Conventions.
    - A Python [float] is idealised as an exact rational [Q]; where the source
      can produce an infinity or a NaN (pandas division, [shift], [float('inf')])
      the value is a [pyfloat]. The one place where an error of one unit in
      the last place changes a result by a whole lot is the quotient that
      [int] truncates when a buy is sized: there ([_execute_buy], the
      percentage, Kelly and ATR sizers) every operation is rounded to binary64
      ([round64]), and a decimal literal such as 10.8 is the float nearest
      to it ([py_float]). The operands are the model's values: the result is
      the code's whenever they are floats, as they are at the first order of
      a run.
    - A division of Python floats by zero raises [ZeroDivisionError], one in
      which a numpy float takes part gives an infinity or NaN. A price read
      from the frame is a numpy float, and so is every amount computed from
      one. Code that can leave by an exception returns an [Outcome], the
      state as mutated up to the raise included.
    - An index entry of a frame is a [Moment] (a pandas Timestamp or a
      datetime) or a [DateKey] (the vendor's key, which is neither);
      [datetime.now()] is the field [wall_clock] of the environment.
    - A [pd.Series] of prices is a [list Q]; a data frame is the list of its rows.
    - [try: ... except Exception] blocks are written out: the handler's result
      is returned on the inputs that raise.
    - Values read from [config.py] (not part of the modelled sources) are
      fields of a configuration record. *)

From Stdlib Require Import String ZArith QArith Qround Qminmax Qabs Qpower List Bool Lia Lqa.
Import ListNotations.

Local Open Scope Q_scope.

(** ** Python numbers *)

Module PyNum.

(** A float that may be infinite or not a number. *)
Inductive pyfloat : Type :=
| Fin (q : Q)
| PInf
| NInf
| NaN.

Definition Qlt_bool (x y : Q) : bool := negb (Qle_bool y x).

(** IEEE division as numpy and pandas perform it: no exception, a zero
    divisor gives an infinity of the dividend's sign, or NaN for 0/0. *)
Definition fdiv (a b : Q) : pyfloat :=
  if Qeq_bool b 0 then
    match a ?= 0 with
    | Eq => NaN
    | Gt => PInf
    | Lt => NInf
    end
  else Fin (a / b).

(** [x - q] for a finite [q]. *)
Definition fsubq (x : pyfloat) (q : Q) : pyfloat :=
  match x with
  | Fin a => Fin (a - q)
  | other => other
  end.

(** [x > q] and [x < q]; every comparison with NaN is false. *)
Definition fgtq (x : pyfloat) (q : Q) : bool :=
  match x with
  | Fin a => Qlt_bool q a
  | PInf => true
  | NInf | NaN => false
  end.

Definition fltq (x : pyfloat) (q : Q) : bool :=
  match x with
  | Fin a => Qlt_bool a q
  | NInf => true
  | PInf | NaN => false
  end.

Definition fabs (x : pyfloat) : pyfloat :=
  match x with
  | Fin a => Fin (Qabs a)
  | PInf | NInf => PInf
  | NaN => NaN
  end.

(** The smaller of two floats, skipping NaN (pandas [min] has skipna=True). *)
Definition fmin2 (x y : pyfloat) : pyfloat :=
  match x, y with
  | NaN, _ => y
  | _, NaN => x
  | NInf, _ | _, NInf => NInf
  | PInf, _ => y
  | _, PInf => x
  | Fin a, Fin b => if Qle_bool a b then Fin a else Fin b
  end.

(** [Series.min()]: NaN for a series with no number in it. *)
Definition series_min (l : list pyfloat) : pyfloat := fold_right fmin2 NaN l.

(** Python's [int(x)] on a float: truncation toward zero. *)
Definition py_int (q : Q) : Z :=
  if Qle_bool 0 q then Qfloor q else Qceiling q.

(** Python's [min(a, b)]: the first argument unless the second is smaller. *)
Definition py_min (a b : Q) : Q := if Qlt_bool b a then b else a.

Definition py_max (a b : Q) : Q := if Qlt_bool a b then b else a.

(** [2 ^ e] for an integer [e] of either sign. *)
Definition pow2 (e : Z) : Q := Qpower 2 e.

(** The binary exponent of a non-zero [x]: the [e] with
    [2^e <= |x| < 2^(e+1)]. *)
Definition binary_exponent (x : Q) : Z :=
  let e0 := (Z.log2 (Z.abs (Qnum x)) - Z.log2 (Zpos (Qden x)))%Z in
  if Qle_bool (pow2 e0) (Qabs x) then e0 else (e0 - 1)%Z.

(** Rounding to the nearest integer, ties to the even one. *)
Definition round_half_even (m : Q) : Z :=
  let f := Qfloor m in
  match Qcompare (m - inject_Z f) (1 # 2) with
  | Lt => f
  | Gt => (f + 1)%Z
  | Eq => if Z.even f then f else (f + 1)%Z
  end.

(** The binary64 float nearest to [x] (round to nearest, ties to even, 53
    significant bits); the exponent range is not modelled, so nothing
    overflows or underflows. *)
Definition round64 (x : Q) : Q :=
  if Qeq_bool x 0 then 0
  else
    let e := binary_exponent x in
    let m := Qabs x * pow2 (52 - e) in
    let r := inject_Z (round_half_even m) * pow2 (e - 52) in
    if Qle_bool 0 x then r else - r.

(** The float a decimal literal denotes, and the product and quotient of
    two floats as the hardware delivers them. *)
Definition py_float (literal : Q) : Q := round64 literal.
Definition fmul64 (a b : Q) : Q := round64 (a * b).
Definition fdiv64 (a b : Q) : Q := round64 (a / b).

(** Half a unit in the last place, relative to the value: [2 ^ -53]; and
    the room a handful of roundings take, [2 ^ -50]. *)
Definition float_unit : Q := 1 # 9007199254740992.
Definition float_slack : Q := 1 # 1125899906842624.

(** [x] is a float computed for the exact value [y >= 0]: between [y * lo]
    and [y * hi]. *)
Definition float_near (lo hi x y : Q) : Prop :=
  0 <= lo /\ 0 <= y /\ y * lo <= x /\ x <= y * hi.

End PyNum.
Export PyNum.

(** ** strategy.py: signals *)

(** [class SignalType(Enum)]. *)
Inductive SignalType : Type :=
| BUY
| SELL
| HOLD
| STRONG_BUY
| STRONG_SELL.

Definition SignalType_eqb (a b : SignalType) : bool :=
  match a, b with
  | BUY, BUY | SELL, SELL | HOLD, HOLD
  | STRONG_BUY, STRONG_BUY | STRONG_SELL, STRONG_SELL => true
  | _, _ => false
  end.

(** The rationale strings of the analyzers, one constructor per message
    template; the formatted numbers are the constructor's arguments. *)
Inductive Rationale : Type :=
| R_data_empty                              (* "数据为空" *)
| R_data_insufficient                       (* "数据点不足" *)
| R_strong_up (momentum change : pyfloat)   (* "强势上涨动量(动量:.., 涨幅:..%)" *)
| R_up (momentum change : pyfloat)          (* "上涨动量(动量:.., 涨幅:..%)" *)
| R_strong_down (momentum change : pyfloat) (* "强势下跌动量(动量:.., 跌幅:..%)" *)
| R_down (momentum change : pyfloat)        (* "下跌动量(动量:.., 跌幅:..%)" *)
| R_unclear (momentum change : pyfloat)     (* "动量信号不明确(动量:.., 变化:..%)" *)
| R_error.                                  (* "动量分析错误: ..." *)

(** The [(SignalType, float, str)] tuple every analyzer returns. *)
Definition Analysis : Type := (SignalType * Q * Rationale)%type.

Definition analysis_signal (a : Analysis) : SignalType := fst (fst a).

(** An entry of a frame's index: a pandas Timestamp or a datetime ([Moment],
    the time as a number), or the key as the data vendor delivers it
    ([DateKey], 20240120 say), which is neither. *)
Inductive IndexEntry : Type :=
| Moment (t : Z)
| DateKey (k : Z).

(** A row of the price frame; the modelled code reads the index and
    [close_price] only. *)
Record Bar : Type := mkBar {
  bar_date : IndexEntry;
  close_price : Q
}.

(** The objects that reach an analyzer's argument tuple. *)
Inductive pyobj : Type :=
| StrategyObj                    (* the strategy instance, [self] *)
| DataFrame (rows : list Bar).   (* a [pd.DataFrame] *)

(** [validate_data(func)] of strategy.py: the wrapper inspects [args[0]]
    and guards only when that object is a DataFrame. *)
Definition validate_data {R : Type} (hold : Rationale -> R)
    (func : list pyobj -> R) (args : list pyobj) : R :=
  match args with
  | DataFrame df :: _ =>
      if (length df =? 0)%nat then hold R_data_empty
      else if (length df <? 20)%nat then hold R_data_insufficient
      else func args
  | _ => func args
  end.

(** ** indicators.py *)

(** [Series.shift(period)]: the first [period] entries are missing. *)
Definition shift (period : nat) (data : list Q) : list (option Q) :=
  firstn (length data) (repeat None period ++ map Some data).

Fixpoint zip_with {A B C : Type} (f : A -> B -> C) (l : list A) (m : list B) : list C :=
  match l, m with
  | a :: l', b :: m' => f a b :: zip_with f l' m'
  | _, _ => []
  end.

(** [momentum(data, period=10)]: [data - data.shift(period)]; the indicator
    module's own guard returns [None] on an empty series. *)
Definition momentum (data : list Q) (period : nat) : option (list pyfloat) :=
  match data with
  | [] => None
  | _ => Some (zip_with (fun x s => match s with
                                    | Some y => Fin (x - y)
                                    | None => NaN
                                    end) data (shift period data))
  end.

(** [price_change(data, period=1)]: [data.pct_change(periods=period)], that
    is [data / data.shift(period) - 1], a fraction (0.06 for six percent). *)
Definition price_change (data : list Q) (period : nat) : option (list pyfloat) :=
  match data with
  | [] => None
  | _ => Some (zip_with (fun x s => match s with
                                    | Some y => fsubq (fdiv x y) 1
                                    | None => NaN
                                    end) data (shift period data))
  end.

(** [series.iloc[-1]]; [None] stands for the IndexError on an empty frame. *)
Definition iloc_last {A : Type} (l : list A) : option A :=
  match rev l with
  | x :: _ => Some x
  | [] => None
  end.

(** ** strategy.py: the momentum analyzer *)

(** The body of [MomentumStrategy.analyze_momentum(self, df)]. Every
    exception inside it is caught and answered with HOLD and an error text. *)
Definition analyze_momentum_body (self df : pyobj) : Analysis :=
  match df with
  | StrategyObj => (HOLD, 0, R_error)          (* no [copy] on it: AttributeError *)
  | DataFrame rows =>
      let closes := map close_price rows in
      match momentum closes 10, price_change closes 1 with
      | Some mom, Some chg =>
          match iloc_last mom, iloc_last chg with
          | Some momentum_value, Some price_change_value =>
              if fgtq momentum_value 5 && fgtq price_change_value 2 then
                (STRONG_BUY, 8 # 10, R_strong_up momentum_value price_change_value)
              else if fgtq momentum_value 2 && fgtq price_change_value 1 then
                (BUY, 6 # 10, R_up momentum_value price_change_value)
              else if fltq momentum_value (-5) && fltq price_change_value (-2) then
                (STRONG_SELL, 8 # 10, R_strong_down momentum_value price_change_value)
              else if fltq momentum_value (-2) && fltq price_change_value (-1) then
                (SELL, 6 # 10, R_down momentum_value price_change_value)
              else (HOLD, 0, R_unclear momentum_value price_change_value)
          | _, _ => (HOLD, 0, R_error)
          end
      | _, _ => (HOLD, 0, R_error)             (* empty frame: [iloc[-1]] raises *)
      end
  end.

(** [@validate_data def analyze_momentum(self, df)]: the decorated method as
    a function of its argument tuple; [None] is the TypeError of a call with
    the wrong number of arguments. *)
Definition analyze_momentum (args : list pyobj) : option Analysis :=
  validate_data (fun r => Some (HOLD, 0, r))
    (fun args => match args with
                 | [self; df] => Some (analyze_momentum_body self df)
                 | _ => None
                 end) args.

(** The call [strategy.analyze_momentum(df)] on an instance: Python binds
    the instance as the first positional argument. *)
Definition call_analyze_momentum (df : list Bar) : option Analysis :=
  analyze_momentum [StrategyObj; DataFrame df].

(** ** strategy.py: the strategy combiner *)

(** [StrategyManager._combine_strategy_signals]. *)
Definition _combine_strategy_signals (tech_signal momentum_signal : SignalType)
    (strength : Q) : SignalType :=
  if SignalType_eqb tech_signal momentum_signal
     && negb (SignalType_eqb tech_signal HOLD) then
    if Qle_bool (7 # 10) strength then
      if SignalType_eqb tech_signal BUY then STRONG_BUY else STRONG_SELL
    else tech_signal
  else if Qle_bool (5 # 10) strength then tech_signal
  else HOLD.

(** ** risk_control.py: position sizing and exit prices *)

(** The environment the modelled code reads: the entries of
    [TRADING_CONFIG], the engine's own constructor arguments, and the wall
    clock, [wall_clock k] being what [datetime.now()] returns to the order
    that finds [k] trades in the log. *)
Record Config : Type := mkConfig {
  trade_amount : Q;
  position_ratio : Q;
  max_single_position : Q;
  stop_loss_ratio : Q;
  take_profit_ratio : Q;
  initial_capital : Q;
  commission_rate : Q;
  wall_clock : nat -> Z
}.



(** The [trade_type] argument of the stop prices, 'buy' or anything else. *)
Inductive TradeSide : Type := SideBuy | SideSell.

(** [StopLossManager.calculate_stop_loss_price] and
    [StopLossManager.calculate_take_profit_price]. *)
Definition calculate_stop_loss_price (cfg : Config) (entry_price : Q)
    (trade_type : TradeSide) : Q :=
  match trade_type with
  | SideBuy => entry_price * (1 - stop_loss_ratio cfg)
  | SideSell => entry_price * (1 + stop_loss_ratio cfg)
  end.

Definition calculate_take_profit_price (cfg : Config) (entry_price : Q)
    (trade_type : TradeSide) : Q :=
  match trade_type with
  | SideBuy => entry_price * (1 + take_profit_ratio cfg)
  | SideSell => entry_price * (1 - take_profit_ratio cfg)
  end.

(** ** backtest.py: the simulator *)

Inductive TradeAction : Type := ActBuy | ActSell.

(** [@dataclass class Trade]; the stock code is the engine's constant. *)
Record Trade : Type := mkTrade {
  timestamp : Z;
  action : TradeAction;
  price : Q;
  volume : Z;
  amount : Q;
  commission : Q;
  reason : string
}.

(** [@dataclass class Position]. *)
Record Position : Type := mkPosition {
  pos_volume : Z;
  avg_price : Q;
  market_value : Q;
  unrealized_pnl : Q;
  realized_pnl : Q
}.

(** An entry of [daily_equity]. *)
Record EquityPoint : Type := mkEquityPoint {
  eq_date : IndexEntry;
  equity : Q;
  eq_cash : Q;
  eq_position_value : Q
}.

(** The mutable attributes of a [BacktestEngine]. *)
Record Engine : Type := mkEngine {
  current_capital : Q;
  current_position : option Position;
  trades : list Trade;
  daily_equity : list EquityPoint;
  daily_returns : list pyfloat
}.

(** How a call that can raise leaves: the engine it returns with, or the
    engine as mutated up to the raise. *)
Inductive Outcome : Type :=
| Returned (st : Engine)
| Raises (st : Engine).

Definition state_of (o : Outcome) : Engine :=
  match o with
  | Returned st | Raises st => st
  end.

Definition raised (o : Outcome) : bool :=
  match o with
  | Returned _ => false
  | Raises _ => true
  end.

(** The dictionary [_generate_signal] builds from the analyzer's answer. *)
Record Signal : Type := mkSignal {
  signal_type : SignalType;
  signal_strength : Q;
  signal_reason : string;
  signal_price : Q
}.

(** A position's volume is a whole, positive number of lots. *)
Definition whole_lots (v : Z) : Prop := exists k : Z, (1 <= k)%Z /\ v = (100 * k)%Z.

(** The share volume and the total cost [_execute_buy] arrives at. *)
Definition buy_volume (cfg : Config) (available_cash price signal_strength : Q) : Z :=
  (py_int (fdiv64 (fdiv64 (fmul64 available_cash
                             (py_min (fmul64 (position_ratio cfg) signal_strength)
                                     (max_single_position cfg)))
                          price) 100) * 100)%Z.

Definition buy_total_cost (cfg : Config) (available_cash price signal_strength : Q) : Q :=
  inject_Z (buy_volume cfg available_cash price signal_strength) * price
  + inject_Z (buy_volume cfg available_cash price signal_strength) * price
    * commission_rate cfg.

Section Backtest.

Variable cfg : Config.

(** [BacktestEngine._generate_signal]: the technical analyzer run on the
    bars seen so far, [None] when it raises. The simulator only consumes its
    answer, so the analyzer is a parameter of the run. *)
Variable _generate_signal : list Bar -> option Signal.

Definition _reset_state : Engine :=
  {| current_capital := initial_capital cfg;
     current_position := None;
     trades := [];
     daily_equity := [];
     daily_returns := [] |}.

(** The [timestamp] an order gives its trade: [date.to_pydatetime()] or
    [date] itself when the index entry is a Timestamp or a datetime,
    [datetime.now()] otherwise. *)
Definition stamp_at (k : nat) (date : IndexEntry) : Z :=
  match date with
  | Moment t => t
  | DateKey _ => wall_clock cfg k
  end.

Definition trade_timestamp (st : Engine) (date : IndexEntry) : Z :=
  stamp_at (length (trades st)) date.

(** [BacktestEngine._execute_buy]. A zero price raises inside the [try]
    (division, then [int] of an infinity); the handler only logs. The
    quotient [int] truncates is computed in binary64. *)
Definition _execute_buy (st : Engine) (date : IndexEntry) (price signal_strength : Q)
    (reason : string) : Engine :=
  let available_cash := current_capital st in
  let base_ratio := position_ratio cfg in
  let adjusted_ratio := fmul64 base_ratio signal_strength in
  let max_ratio := max_single_position cfg in
  let position_ratio := py_min adjusted_ratio max_ratio in
  let target_amount := fmul64 available_cash position_ratio in
  if Qeq_bool price 0 then st
  else
    let volume := (py_int (fdiv64 (fdiv64 target_amount price) 100) * 100)%Z in
    if (volume <? 100)%Z then st
    else
      let actual_amount := inject_Z volume * price in
      let commission := actual_amount * commission_rate cfg in
      let total_cost := actual_amount + commission in
      if Qlt_bool available_cash total_cost then st
      else
        {| current_capital := current_capital st - total_cost;
           current_position :=
             Some {| pos_volume := volume;
                     avg_price := price;
                     market_value := actual_amount;
                     unrealized_pnl := 0;
                     realized_pnl := 0 |};
           trades := trades st ++
             [ {| timestamp := trade_timestamp st date; action := ActBuy; price := price;
                  volume := volume; amount := actual_amount;
                  commission := commission; reason := reason |} ];
           daily_equity := daily_equity st;
           daily_returns := daily_returns st |}.

(** The ratio ladder of [_execute_sell]. *)
Definition sell_ratio (signal_strength : Q) : Q :=
  if Qle_bool (8 # 10) signal_strength then 1
  else if Qle_bool (5 # 10) signal_strength then 5 # 10
  else 33 # 100.

(** The volume [_execute_sell] arrives at. The ratios 1.0 and 0.5 are exact
    in binary64 and the float 0.33 lies above 33/100, so the rounded
    quotient is never below an integer the exact one reaches, and an exact
    quotient that is not an integer is at least 1/10000 away from one:
    truncating the exact quotient gives the same lots for every volume a
    position can have (below 10^13 shares). *)
Definition sell_volume_of (position_volume : Z) (signal_strength : Q) : Z :=
  (py_int (inject_Z position_volume * sell_ratio signal_strength / 100) * 100)%Z.

(** [BacktestEngine._execute_sell]. *)
Definition _execute_sell (st : Engine) (date : IndexEntry) (price signal_strength : Q)
    (reason : string) : Engine :=
  match current_position st with
  | None => st
  | Some pos =>
      let sell_volume := sell_volume_of (pos_volume pos) signal_strength in
      if (sell_volume <? 100)%Z then st
      else
        let sell_amount := inject_Z sell_volume * price in
        let commission := sell_amount * commission_rate cfg in
        let net_amount := sell_amount - commission in
        {| current_capital := current_capital st + net_amount;
           current_position :=
             if (sell_volume =? pos_volume pos)%Z then None
             else
               let remaining := (pos_volume pos - sell_volume)%Z in
               Some {| pos_volume := remaining;
                       avg_price := avg_price pos;
                       market_value := inject_Z remaining * price;
                       unrealized_pnl := unrealized_pnl pos;
                       realized_pnl := realized_pnl pos |};
           trades := trades st ++
             [ {| timestamp := trade_timestamp st date; action := ActSell; price := price;
                  volume := sell_volume; amount := sell_amount;
                  commission := commission; reason := reason |} ];
           daily_equity := daily_equity st;
           daily_returns := daily_returns st |}
  end.

(** [BacktestEngine._check_stop_conditions]. *)
Definition _check_stop_conditions (st : Engine) (current_price : Q) : option string :=
  match current_position st with
  | None => None
  | Some pos =>
      let entry_price := avg_price pos in
      let stop_loss_price := calculate_stop_loss_price cfg entry_price SideBuy in
      let take_profit_price := calculate_take_profit_price cfg entry_price SideBuy in
      if Qle_bool current_price stop_loss_price then Some "stop_loss"%string
      else if Qle_bool take_profit_price current_price then Some "take_profit"%string
      else None
  end.

(** [BacktestEngine._execute_trade]. *)
Definition _execute_trade (st : Engine) (date : IndexEntry) (price : Q) (action : string)
    : Engine :=
  if (String.eqb action "stop_loss" || String.eqb action "take_profit")%bool
  then _execute_sell st date price 1 action
  else st.

(** [BacktestEngine._execute_trading_logic]. *)
Definition _execute_trading_logic (st : Engine) (date : IndexEntry) (price : Q)
    (signal : Signal) : Engine :=
  match signal_type signal, current_position st with
  | (BUY | STRONG_BUY), None =>
      _execute_buy st date price (signal_strength signal) (signal_reason signal)
  | (SELL | STRONG_SELL), Some _ =>
      _execute_sell st date price (signal_strength signal) (signal_reason signal)
  | _, _ => st
  end.

(** The position with its market value and unrealized profit brought to
    [price], as [_update_daily_equity] leaves it. *)
Definition mark_to_market (position : option Position) (price : Q) : option Position :=
  match position with
  | Some pos =>
      let position_value := inject_Z (pos_volume pos) * price in
      Some {| pos_volume := pos_volume pos;
              avg_price := avg_price pos;
              market_value := position_value;
              unrealized_pnl := position_value - inject_Z (pos_volume pos) * avg_price pos;
              realized_pnl := realized_pnl pos |}
  | None => None
  end.

(** Whether the books still hold Python floats only. [current_capital] is
    the Python float the engine was created with until an order is executed:
    an order adds or subtracts an amount computed from the price, a numpy
    float read from the frame, and enters the log. The value of a position
    is such a product too; without a position it is the literal [0.0]. *)
Definition python_floats (st : Engine) : bool :=
  match trades st, current_position st with
  | [], None => true
  | _, _ => false
  end.

(** [BacktestEngine._update_daily_equity]. The equity point is appended
    before the daily return is computed. While the books hold Python floats
    a previous equity of zero makes the division raise, and no return is
    appended; once they hold numpy floats the division by zero gives an
    infinity or NaN. *)
Definition _update_daily_equity (st : Engine) (date : IndexEntry) (price : Q) : Outcome :=
  let cash := current_capital st in
  let position_value :=
    match current_position st with
    | Some pos => inject_Z (pos_volume pos) * price
    | None => 0
    end in
  let total_equity := cash + position_value in
  let recorded (returns : list pyfloat) :=
    {| current_capital := current_capital st;
       current_position := mark_to_market (current_position st) price;
       trades := trades st;
       daily_equity := daily_equity st ++
         [ {| eq_date := date; equity := total_equity; eq_cash := cash;
              eq_position_value := position_value |} ];
       daily_returns := returns |} in
  match iloc_last (daily_equity st) with
  | Some prev =>
      let prev_equity := equity prev in
      if Qeq_bool prev_equity 0 && python_floats st then
        Raises (recorded (daily_returns st))
      else Returned (recorded (daily_returns st
                               ++ [fdiv (total_equity - prev_equity) prev_equity]))
  | None => Returned (recorded (daily_returns st ++ [Fin 0]))
  end.

(** One iteration of the loop of [run_backtest]: [current_data] is
    [df.iloc[:i+1]] and [bar] its last row. *)
Definition process_bar (st : Engine) (current_data : list Bar) (bar : Bar) : Outcome :=
  let current_date := bar_date bar in
  let current_price := close_price bar in
  if (length current_data <? 20)%nat then
    _update_daily_equity st current_date current_price
  else
    let st1 :=
      match current_position st with
      | Some _ =>
          match _check_stop_conditions st current_price with
          | Some stop_action => _execute_trade st current_date current_price stop_action
          | None => st
          end
      | None => st
      end in
    let st2 :=
      match _generate_signal current_data with
      | Some signal => _execute_trading_logic st1 current_date current_price signal
      | None => st1
      end in
    _update_daily_equity st2 current_date current_price.

(** The state between the stop check and the signal check of one bar. *)
Definition after_stop_check (st : Engine) (bar : Bar) : Engine :=
  match current_position st with
  | Some _ =>
      match _check_stop_conditions st (close_price bar) with
      | Some stop_action => _execute_trade st (bar_date bar) (close_price bar) stop_action
      | None => st
      end
  | None => st
  end.

(** The state between the signal check and the equity update of one bar. *)
Definition after_signal_check (st : Engine) (current_data : list Bar) (bar : Bar) : Engine :=
  match _generate_signal current_data with
  | Some signal =>
      _execute_trading_logic (after_stop_check st bar) (bar_date bar)
        (close_price bar) signal
  | None => after_stop_check st bar
  end.

(** The state the equity update of a bar starts from. *)
Definition before_update (st : Engine) (current_data : list Bar) (bar : Bar) : Engine :=
  if (length current_data <? 20)%nat then st
  else after_signal_check st current_data bar.

(** The loop [for i in range(len(df))], started at row [i] with [rest] the
    rows still to process; an iteration that raises ends it. *)
Fixpoint backtest_loop (df rest : list Bar) (i : nat) (st : Engine) : Outcome :=
  match rest with
  | [] => Returned st
  | bar :: rest' =>
      match process_bar st (firstn (S i) df) bar with
      | Returned st' => backtest_loop df rest' (S i) st'
      | Raises st' => Raises st'
      end
  end.

(** The loop run over the first [n] rows of [df], and the engine's state
    then: the state at the raise when an iteration raised. *)
Definition outcome_after (df : list Bar) (n : nat) : Outcome :=
  backtest_loop df (firstn n df) 0 _reset_state.

Definition state_after (df : list Bar) (n : nat) : Engine :=
  state_of (outcome_after df n).

(** The simulation part of [run_backtest]: an empty frame raises, and what
    the loop raises is logged and raised again. *)
Definition run_backtest (df : list Bar) : option Engine :=
  match df with
  | [] => None
  | _ =>
      match backtest_loop df df 0 _reset_state with
      | Returned st => Some st
      | Raises _ => None
      end
  end.

End Backtest.

(** The sell that closes position [pos] of engine [st] at [bar] for reason
    [a]. *)
Definition exit_trade (cfg : Config) (st : Engine) (pos : Position) (bar : Bar)
    (a : string) : Trade :=
  {| timestamp := trade_timestamp cfg st (bar_date bar);
     action := ActSell;
     price := close_price bar;
     volume := pos_volume pos;
     amount := inject_Z (pos_volume pos) * close_price bar;
     commission := inject_Z (pos_volume pos) * close_price bar * commission_rate cfg;
     reason := a |}.

(** ** backtest.py: post-run statistics *)

(** [Series.expanding().max()]: the running maximum. *)
Fixpoint expanding_max_from (m : Q) (l : list Q) : list Q :=
  match l with
  | [] => []
  | x :: t => let m' := py_max m x in m' :: expanding_max_from m' t
  end.

Definition expanding_max (l : list Q) : list Q :=
  match l with
  | [] => []
  | x :: t => x :: expanding_max_from x t
  end.

(** [BacktestEngine._calculate_max_drawdown]. *)
Definition _calculate_max_drawdown (equity_series : list Q) : pyfloat :=
  let peak := expanding_max equity_series in
  let drawdown := zip_with (fun e p => fdiv (e - p) p) equity_series peak in
  fabs (series_min drawdown).

(** The equity series [_calculate_results] hands to the drawdown. *)
Definition equity_series (st : Engine) : list Q := map equity (daily_equity st).

(** The dictionary [_calculate_trade_statistics] returns. *)
Record TradeStats : Type := mkTradeStats {
  total_trades : nat;
  winning_trades : nat;
  losing_trades : nat;
  win_rate : Q;
  avg_win : Q;
  avg_loss : Q;
  profit_factor : pyfloat
}.

Definition is_buy (t : Trade) : bool :=
  match action t with ActBuy => true | ActSell => false end.

Definition is_sell (t : Trade) : bool :=
  match action t with ActSell => true | ActBuy => false end.

(** Python's [sum]: left to right from 0. *)
Definition py_sum (l : list Q) : Q := fold_left Qplus l 0.

(** [np.mean] of a non-empty list. *)
Definition np_mean (l : list Q) : Q := py_sum l / inject_Z (Z.of_nat (length l)).

(** [[s for s in sell_trades if s.timestamp > buy_trade.timestamp]]. *)
Definition matching_sells (sell_trades : list Trade) (buy_trade : Trade) : list Trade :=
  filter (fun s => (timestamp buy_trade <? timestamp s)%Z) sell_trades.

(** The sell a buy is paired with: [matching_sells[0]] when there is one. *)
Definition paired_sell (sell_trades : list Trade) (buy_trade : Trade) : option Trade :=
  match matching_sells sell_trades buy_trade with
  | sell_trade :: _ => Some sell_trade
  | [] => None
  end.

Definition pair_pnl (buy_trade sell_trade : Trade) : Q :=
  (price sell_trade - price buy_trade)
  * inject_Z (Z.min (volume buy_trade) (volume sell_trade))
  - commission buy_trade - commission sell_trade.

(** The list [trade_pairs] of pair profits, in the order of the buys. *)
Definition trade_pairs (log : list Trade) : list Q :=
  let buy_trades := filter is_buy log in
  let sell_trades := filter is_sell log in
  flat_map (fun buy_trade =>
              match paired_sell sell_trades buy_trade with
              | Some sell_trade => [pair_pnl buy_trade sell_trade]
              | None => []
              end) buy_trades.

Definition is_win (p : Q) : bool := Qlt_bool 0 p.
Definition is_loss (p : Q) : bool := Qlt_bool p 0.

Definition nonempty {A : Type} (l : list A) : bool :=
  match l with [] => false | _ :: _ => true end.

(** [BacktestEngine._calculate_trade_statistics]. *)
Definition _calculate_trade_statistics (log : list Trade) : TradeStats :=
  if negb (nonempty log) then
    {| total_trades := 0; winning_trades := 0; losing_trades := 0;
       win_rate := 0; avg_win := 0; avg_loss := 0; profit_factor := Fin 0 |}
  else
    let pairs := trade_pairs log in
    if negb (nonempty pairs) then
      {| total_trades := length log; winning_trades := 0; losing_trades := 0;
         win_rate := 0; avg_win := 0; avg_loss := 0; profit_factor := Fin 0 |}
    else
      let winning := filter is_win pairs in
      let losing := filter is_loss pairs in
      let total := length pairs in
      let win_count := length winning in
      let loss_count := length losing in
      let total_wins := if nonempty winning then py_sum winning else 0 in
      let total_losses := if nonempty losing then Qabs (py_sum losing) else 0 in
      {| total_trades := total;
         winning_trades := win_count;
         losing_trades := loss_count;
         win_rate :=
           if (0 <? total)%nat
           then inject_Z (Z.of_nat win_count) / inject_Z (Z.of_nat total)
           else 0;
         avg_win := if nonempty winning then np_mean winning else 0;
         avg_loss := if nonempty losing then Qabs (np_mean losing) else 0;
         profit_factor :=
           if Qlt_bool 0 total_losses
           then Fin (total_wins / total_losses)
           else PInf |}.

(** *** The spec's reading of the pairing, for comparison with [paired_sell]:
    [s] is the chronologically first sell strictly later than [b]. *)
Definition chronologically_first_later_sell (log : list Trade) (b s : Trade) : Prop :=
  In s log /\ action s = ActSell /\ (timestamp b < timestamp s)%Z /\
  forall s', In s' log -> action s' = ActSell ->
             (timestamp b < timestamp s')%Z -> (timestamp s <= timestamp s')%Z.

(** What the spec asks of the sell [o] a buy [b] is paired with: the
    chronologically first sell strictly later than the buy, and no pair
    only when no sell is later. *)
Definition spec_pairing (log : list Trade) (b : Trade) (o : option Trade) : Prop :=
  match o with
  | Some s => chronologically_first_later_sell log b s
  | None => forall s, In s log -> action s = ActSell -> (timestamp s <= timestamp b)%Z
  end.

(** The profits of a list of buys with their sells, unpaired buys left out:
    the price difference on the smaller of the two volumes, less both
    commissions. *)
Definition pair_profits (pairing : list (Trade * option Trade)) : list Q :=
  flat_map (fun bo =>
              match snd bo with
              | Some s =>
                  [ (price s - price (fst bo))
                    * inject_Z (Z.min (volume (fst bo)) (volume s))
                    - commission (fst bo) - commission s ]
              | None => []
              end) pairing.

(** A trade log in bar order: timestamps never decrease. *)
Fixpoint chronological (log : list Trade) : Prop :=
  match log with
  | [] => True
  | t :: rest => (forall u, In u rest -> (timestamp t <= timestamp u)%Z) /\ chronological rest
  end.

(** ** Auxiliary predicates *)

(** The open position, if any, is a whole number of lots. *)
Definition lots_ok (st : Engine) : Prop :=
  match current_position st with
  | Some pos => whole_lots (pos_volume pos)
  | None => True
  end.

(** What holds of the engine at the top of iteration [i] of a run. *)
Definition run_inv (i : nat) (st : Engine) : Prop :=
  length (equity_series st) = i /\
  0 <= current_capital st /\
  lots_ok st /\
  Forall (fun e => 0 <= e) (equity_series st) /\
  match equity_series st with
  | [] => current_position st = None /\ 0 < current_capital st
  | e0 :: _ => 0 < e0
  end.

(** A relative drop from the peak: a number between -1 and 0. *)
Definition unit_drop (x : pyfloat) : Prop :=
  exists q, x = Fin q /\ - (1) <= q /\ q <= 0.

(** The decision procedures of [chronological] and of non-negative closes. *)
Fixpoint chronologicalb (log : list Trade) : bool :=
  match log with
  | [] => true
  | t :: rest =>
      forallb (fun u => (timestamp t <=? timestamp u)%Z) rest && chronologicalb rest
  end.

Definition nonneg_prices (df : list Bar) : bool :=
  forallb (fun b => Qle_bool 0 (close_price b)) df.

(** ** Sample data *)

(** A frame of closing prices, dated by row number. *)
Definition frame_of (closes : list Q) : list Bar :=
  map (fun ic => mkBar (Moment (Z.of_nat (fst ic))) (snd ic))
      (combine (seq 0 (length closes)) closes).

(** The same closing prices under the vendor's date keys. *)
Definition keyed_frame_of (closes : list Q) : list Bar :=
  map (fun ic => mkBar (DateKey (20240101 + Z.of_nat (fst ic))) (snd ic))
      (combine (seq 0 (length closes)) closes).

(** A clock that advances by one tick with every trade logged. *)
Definition ticking_clock (k : nat) : Z := (1000 + Z.of_nat k)%Z.

(** Twenty bars at 100 closing on a bar at 106. *)
Definition rising_close_frame : list Bar := frame_of (repeat 100 19 ++ [106]).

(** Ten bars at 1 closing on a bar at 10: eleven bars in all. *)
Definition short_frame : list Bar := frame_of (repeat 1 10 ++ [10]).

(** Ratios of the kind the configuration file holds: 30 percent sizing,
    5 percent stop, 8 percent take-profit, commission 0.03 percent. *)
Definition sample_config : Config :=
  {| trade_amount := 10000;
     position_ratio := 3 # 10;
     max_single_position := 3 # 10;
     stop_loss_ratio := 5 # 100;
     take_profit_ratio := 8 # 100;
     initial_capital := 100000;
     commission_rate := 3 # 10000;
     wall_clock := ticking_clock |}.

(** A configuration that commits all the cash to one position. *)
Definition all_in_config : Config :=
  {| trade_amount := 10000;
     position_ratio := 1;
     max_single_position := 1;
     stop_loss_ratio := 5 # 100;
     take_profit_ratio := 8 # 100;
     initial_capital := 1000;
     commission_rate := 3 # 10000;
     wall_clock := ticking_clock |}.

(** An engine holding [vol] shares bought at [avg], with [cash] left. *)
Definition holding (vol : Z) (avg cash : Q) : Engine :=
  {| current_capital := cash;
     current_position :=
       Some {| pos_volume := vol; avg_price := avg;
               market_value := inject_Z vol * avg;
               unrealized_pnl := 0; realized_pnl := 0 |};
     trades := [];
     daily_equity := [];
     daily_returns := [] |}.

(** An engine with no position and [cash] in hand. *)
Definition flat (cash : Q) : Engine :=
  {| current_capital := cash;
     current_position := None;
     trades := [];
     daily_equity := [];
     daily_returns := [] |}.

(** A signal source that answers BUY at strength 0.8 on every frame. *)
Definition always_buy (current_data : list Bar) : option Signal :=
  Some {| signal_type := BUY;
          signal_strength := 8 # 10;
          signal_reason := "trend";
          signal_price := match iloc_last current_data with
                          | Some bar => close_price bar
                          | None => 0
                          end |}.

(** Twenty bars at 10 and a twenty-first at 11, past the 8 percent target:
    indexed by timestamps, and under the vendor's keys. *)
Definition take_profit_frame : list Bar := frame_of (repeat 10 20 ++ [11]).
Definition keyed_take_profit_frame : list Bar := keyed_frame_of (repeat 10 20 ++ [11]).

(** A buy still open at the end of the run. *)
Definition open_buy_log : list Trade :=
  [ {| timestamp := 19; action := ActBuy; price := 10; volume := 2400;
       amount := 24000; commission := 72 # 10; reason := "trend" |} ].

(** A buy, its take-profit exit, the re-entry of the same bar and a later
    partial sell. *)
Definition sample_log : list Trade :=
  [ {| timestamp := 19; action := ActBuy; price := 10; volume := 2400;
       amount := 24000; commission := 72 # 10; reason := "trend" |};
    {| timestamp := 20; action := ActSell; price := 11; volume := 2400;
       amount := 26400; commission := 792 # 100; reason := "take_profit" |};
    {| timestamp := 20; action := ActBuy; price := 11; volume := 2200;
       amount := 24200; commission := 726 # 100; reason := "trend" |};
    {| timestamp := 25; action := ActSell; price := 10; volume := 1100;
       amount := 11000; commission := 33 # 10; reason := "weakness" |} ].

(** ** More float operations *)

(** [x - y], [x * q] and the comparisons of two floats, IEEE style: NaN
    propagates through arithmetic and fails every comparison. *)
Definition fsub (x y : pyfloat) : pyfloat :=
  match x, y with
  | NaN, _ | _, NaN => NaN
  | Fin a, Fin b => Fin (a - b)
  | Fin _, PInf => NInf
  | Fin _, NInf => PInf
  | PInf, PInf => NaN
  | PInf, _ => PInf
  | NInf, NInf => NaN
  | NInf, _ => NInf
  end.

Definition fmulq (x : pyfloat) (q : Q) : pyfloat :=
  match x with
  | Fin a => Fin (a * q)
  | NaN => NaN
  | PInf => match q ?= 0 with Gt => PInf | Lt => NInf | Eq => NaN end
  | NInf => match q ?= 0 with Gt => NInf | Lt => PInf | Eq => NaN end
  end.

Definition flt (x y : pyfloat) : bool :=
  match x, y with
  | NaN, _ | _, NaN => false
  | Fin a, Fin b => Qlt_bool a b
  | NInf, NInf => false
  | NInf, _ => true
  | _, NInf => false
  | PInf, _ => false
  | Fin _, PInf => true
  end.

Definition fle (x y : pyfloat) : bool :=
  match x, y with
  | NaN, _ | _, NaN => false
  | Fin a, Fin b => Qle_bool a b
  | NInf, _ => true
  | _, PInf => true
  | PInf, _ => false
  | Fin _, NInf => false
  end.

Definition fgt (x y : pyfloat) : bool := flt y x.
Definition fge (x y : pyfloat) : bool := fle y x.

(** [pd.isna]. *)
Definition isna (x : pyfloat) : bool :=
  match x with NaN => true | _ => false end.

(** ** strategy.py: the technical analyzer *)

(** A row of the frame [_calculate_all_indicators] returns: the columns the
    five sub-analyzers read. *)
Record IndicatorRow : Type := mkIndicatorRow {
  row_close_price : pyfloat;
  sma_short : pyfloat;
  sma_long : pyfloat;
  row_rsi : pyfloat;
  row_macd : pyfloat;
  macd_signal : pyfloat;
  macd_histogram : pyfloat;
  bb_upper : pyfloat;
  bb_middle : pyfloat;
  bb_lower : pyfloat;
  row_volume : pyfloat;
  row_volume_sma : pyfloat;
  row_price_change : pyfloat
}.

(** The entries of [STRATEGY_CONFIG] the sub-analyzers read. *)
Record StrategyConfig : Type := mkStrategyConfig {
  rsi_oversold : Q;
  rsi_overbought : Q;
  price_change_threshold : Q
}.

(** The reason texts of the sub-analyzers, one constructor per template. *)
Inductive TechReason : Type :=
| T_ma_golden_cross | T_ma_death_cross | T_ma_above | T_ma_below
| T_rsi_missing | T_rsi_oversold (rsi : pyfloat) | T_rsi_overbought (rsi : pyfloat)
| T_rsi_rebound | T_rsi_fallback | T_rsi_neutral (rsi : pyfloat)
| T_macd_missing | T_macd_golden_cross | T_macd_death_cross
| T_macd_hist_up | T_macd_hist_down | T_macd_unclear
| T_bb_missing | T_bb_lower | T_bb_upper | T_bb_upper_half | T_bb_lower_half
| T_bb_middle
| T_vol_missing | T_vol_surge_up | T_vol_surge_down | T_vol_quiet
| T_vol_thin_up | T_vol_thin_down | T_vol_flat.

(** A sub-analyzer's answer; [None] is the empty reason string. *)
Definition SubSignal : Type := (SignalType * Q * option TechReason)%type.

Definition sub_signal (s : SubSignal) : SignalType := fst (fst s).
Definition sub_strength (s : SubSignal) : Q := snd (fst s).
Definition sub_reason (s : SubSignal) : option TechReason := snd s.

Definition fzero : pyfloat := Fin 0.

(** [TechnicalStrategy._analyze_ma_signals], on the last two rows. *)
Definition _analyze_ma_signals (latest prev : IndicatorRow) : SubSignal :=
  if isna (sma_short latest) || isna (sma_long latest) then (HOLD, 0, None)
  else
    let current_diff := fsub (sma_short latest) (sma_long latest) in
    let prev_diff := fsub (sma_short prev) (sma_long prev) in
    let price_above_short := fgt (row_close_price latest) (sma_short latest) in
    let price_above_long := fgt (row_close_price latest) (sma_long latest) in
    if fle prev_diff fzero && fgt current_diff fzero then
      (BUY, 8 # 10, Some T_ma_golden_cross)
    else if fge prev_diff fzero && flt current_diff fzero then
      (SELL, 8 # 10, Some T_ma_death_cross)
    else if price_above_short && price_above_long && fgt current_diff fzero then
      (BUY, 5 # 10, Some T_ma_above)
    else if negb price_above_short && negb price_above_long && flt current_diff fzero then
      (SELL, 5 # 10, Some T_ma_below)
    else (HOLD, 0, None).

(** [TechnicalStrategy._analyze_rsi_signals]. *)
Definition _analyze_rsi_signals (scfg : StrategyConfig) (latest prev : IndicatorRow)
    : SubSignal :=
  if isna (row_rsi latest) then (HOLD, 0, Some T_rsi_missing)
  else
    let rsi := row_rsi latest in
    let oversold := Fin (rsi_oversold scfg) in
    let overbought := Fin (rsi_overbought scfg) in
    if fle rsi oversold then (BUY, 7 # 10, Some (T_rsi_oversold rsi))
    else if fge rsi overbought then (SELL, 7 # 10, Some (T_rsi_overbought rsi))
    else if fgt rsi oversold && fle (row_rsi prev) oversold then
      (BUY, 5 # 10, Some T_rsi_rebound)
    else if flt rsi overbought && fge (row_rsi prev) overbought then
      (SELL, 5 # 10, Some T_rsi_fallback)
    else (HOLD, 0, Some (T_rsi_neutral rsi)).

(** [TechnicalStrategy._analyze_macd_signals], on the last two rows. *)
Definition _analyze_macd_signals (latest prev : IndicatorRow) : SubSignal :=
  if isna (row_macd latest) || isna (macd_signal latest) then
    (HOLD, 0, Some T_macd_missing)
  else
    let current_diff := fsub (row_macd latest) (macd_signal latest) in
    let prev_diff := fsub (row_macd prev) (macd_signal prev) in
    if fle prev_diff fzero && fgt current_diff fzero then
      (BUY, 6 # 10, Some T_macd_golden_cross)
    else if fge prev_diff fzero && flt current_diff fzero then
      (SELL, 6 # 10, Some T_macd_death_cross)
    else if negb (isna (macd_histogram latest)) && negb (isna (macd_histogram prev))
            && (fgt (macd_histogram latest) (macd_histogram prev)
                && fgt (macd_histogram latest) fzero) then
      (BUY, 3 # 10, Some T_macd_hist_up)
    else if negb (isna (macd_histogram latest)) && negb (isna (macd_histogram prev))
            && (flt (macd_histogram latest) (macd_histogram prev)
                && flt (macd_histogram latest) fzero) then
      (SELL, 3 # 10, Some T_macd_hist_down)
    else (HOLD, 0, Some T_macd_unclear).

(** [TechnicalStrategy._analyze_bollinger_signals]. *)
Definition _analyze_bollinger_signals (latest : IndicatorRow) : SubSignal :=
  if isna (bb_upper latest) || isna (bb_lower latest) then
    (HOLD, 0, Some T_bb_missing)
  else
    let price := row_close_price latest in
    if fle price (bb_lower latest) then (BUY, 6 # 10, Some T_bb_lower)
    else if fge price (bb_upper latest) then (SELL, 6 # 10, Some T_bb_upper)
    else if fgt price (bb_middle latest) && flt price (bb_upper latest) then
      (BUY, 2 # 10, Some T_bb_upper_half)
    else if flt price (bb_middle latest) && fgt price (bb_lower latest) then
      (SELL, 2 # 10, Some T_bb_lower_half)
    else (HOLD, 0, Some T_bb_middle).

(** [TechnicalStrategy._analyze_volume_signals]. *)
Definition _analyze_volume_signals (scfg : StrategyConfig) (latest prev : IndicatorRow)
    : SubSignal :=
  if isna (row_volume_sma latest) then (HOLD, 0, Some T_vol_missing)
  else
    let volume := row_volume latest in
    let volume_sma := row_volume_sma latest in
    let price_change := row_price_change latest in
    let threshold := price_change_threshold scfg in
    if fgt volume (fmulq volume_sma (15 # 10)) then
      if fgt price_change (Fin threshold) then (BUY, 4 # 10, Some T_vol_surge_up)
      else if flt price_change (Fin (- threshold)) then (SELL, 4 # 10, Some T_vol_surge_down)
      else (HOLD, 0, Some T_vol_flat)
    else if flt volume (fmulq volume_sma (5 # 10)) then
      if flt (fabs price_change) (Fin (threshold * (5 # 10))) then
        (HOLD, 1 # 10, Some T_vol_quiet)
      else if fgt price_change fzero then (SELL, 2 # 10, Some T_vol_thin_up)
      else (BUY, 2 # 10, Some T_vol_thin_down)
    else (HOLD, 0, Some T_vol_flat).

(** The number of entries of [signals] equal to [s]. *)
Definition count_signal (s : SignalType) (signals : list SignalType) : nat :=
  length (filter (SignalType_eqb s) signals).

(** [TechnicalStrategy._combine_signals]. *)
Definition _combine_signals (signals : list SignalType) (signal_strength : Q)
    : SignalType :=
  let buy_count := count_signal BUY signals in
  let sell_count := count_signal SELL signals in
  if Qle_bool (6 # 10) signal_strength then
    if (sell_count <? buy_count)%nat then STRONG_BUY
    else if (buy_count <? sell_count)%nat then STRONG_SELL
    else HOLD
  else if Qle_bool (3 # 10) signal_strength then
    if (sell_count <? buy_count)%nat then BUY
    else if (buy_count <? sell_count)%nat then SELL
    else HOLD
  else HOLD.

(** The five sub-signals of [analyze_trend], in the order it appends them. *)
Definition trend_sub_signals (scfg : StrategyConfig) (latest prev : IndicatorRow)
    : list SubSignal :=
  [ _analyze_ma_signals latest prev;
    _analyze_rsi_signals scfg latest prev;
    _analyze_macd_signals latest prev;
    _analyze_bollinger_signals latest;
    _analyze_volume_signals scfg latest prev ].

(** The weights [analyze_trend] gives them. *)
Definition trend_weights : list Q := [3 # 10; 2 # 10; 25 # 100; 15 # 100; 1 # 10].

(** [signal_strength], accumulated from 0.0 in the same order. *)
Definition trend_strength (subs : list SubSignal) : Q :=
  fold_left (fun acc sw => acc + sub_strength (fst sw) * snd sw)
            (combine subs trend_weights) 0.

(** The reasons collected by [analyze_trend]; the empty list stands for the
    text it substitutes when no sub-analyzer gave one. *)
Definition trend_reasons (subs : list SubSignal) : list TechReason :=
  flat_map (fun s => match sub_reason s with Some r => [r] | None => [] end) subs.

(** The answer of the technical analyzer. *)
Inductive TrendAnswer : Type :=
| TrendOf (signal : SignalType) (strength : Q) (reasons : list TechReason)
| TrendError.     (* [HOLD, 0.0, "分析错误: ..."] of the exception handler *)

Definition trend_signal (a : TrendAnswer) : SignalType :=
  match a with TrendOf s _ _ => s | TrendError => HOLD end.

Definition trend_answer_strength (a : TrendAnswer) : Q :=
  match a with TrendOf _ q _ => q | TrendError => 0 end.

(** The body of [TechnicalStrategy.analyze_trend] after
    [_calculate_all_indicators]: [rows] is the frame with its indicator
    columns. An empty frame raises at [iloc[-1]]. *)
Definition analyze_trend_rows (scfg : StrategyConfig) (rows : list IndicatorRow)
    : TrendAnswer :=
  match rev rows with
  | [] => TrendError
  | latest :: before =>
      let prev := match before with p :: _ => p | [] => latest end in
      let subs := trend_sub_signals scfg latest prev in
      let signal_strength := trend_strength subs in
      TrendOf (_combine_signals (map sub_signal subs) signal_strength)
              signal_strength (trend_reasons subs)
  end.

(** [BacktestEngine._generate_signal] with the analyzer written out:
    [indicators] is [_calculate_all_indicators] ([None] when it raises, which
    [analyze_trend] catches) and [render] the formatting of the reason text,
    both outside the model. *)
Definition _generate_signal_technical (scfg : StrategyConfig)
    (indicators : list Bar -> option (list IndicatorRow))
    (render : TrendAnswer -> string) (df : list Bar) : option Signal :=
  match iloc_last df with
  | None => None
  | Some bar =>
      let answer := match indicators df with
                    | Some rows => analyze_trend_rows scfg rows
                    | None => TrendError
                    end in
      Some {| signal_type := trend_signal answer;
              signal_strength := trend_answer_strength answer;
              signal_reason := render answer;
              signal_price := close_price bar |}
  end.

(** ** strategy.py: the intraday band analyzer *)

(** The count of trailing entries of [recent] (read from the newest
    backwards) that satisfy [p]. *)
Fixpoint trailing_run (p : pyfloat -> bool) (newest_first : list pyfloat) : nat :=
  match newest_first with
  | x :: rest => if p x then S (trailing_run p rest) else 0
  | [] => 0
  end.

(** [df['macd_histogram'].tail(5)]. *)
Definition tail5 (histogram : list pyfloat) : list pyfloat :=
  skipn (length histogram - 5) histogram.

(** [ETFDayTradingStrategy._analyze_macd_consecutive], on the histogram
    column of the frame. *)
Definition _analyze_macd_consecutive (histogram : list pyfloat) : SignalType * Z :=
  if (length histogram <? 5)%nat then (HOLD, 0%Z)
  else
    let recent := rev (tail5 histogram) in
    let consecutive_negative := trailing_run (fun h => flt h fzero) recent in
    let consecutive_positive := trailing_run (fun h => fgt h fzero) recent in
    if (2 <=? consecutive_negative)%nat then
      (BUY, (Z.of_nat consecutive_negative * 100)%Z)
    else if (2 <=? consecutive_positive)%nat then
      (SELL, (Z.of_nat consecutive_positive * 100)%Z)
    else (HOLD, 0%Z).

(** The reason templates of the band analyzer. *)
Inductive EtfReason : Type :=
| E_sell_confirmed | E_sell_plain | E_buy_confirmed | E_buy_plain | E_near_middle.

(** Step 6 of [ETFDayTradingStrategy.analyze_etf_day_trading]: the decision
    from the current price, the middle band of the last row and the
    histogram column. *)
Definition etf_decision (current_price bb_middle_price : pyfloat)
    (histogram : list pyfloat) : SignalType * Q * EtfReason * Z :=
  let '(macd_sig, trade_volume) := _analyze_macd_consecutive histogram in
  let price_diff := fsub current_price bb_middle_price in
  if fgt price_diff fzero then
    if SignalType_eqb macd_sig SELL then (SELL, 8 # 10, E_sell_confirmed, trade_volume)
    else (SELL, 5 # 10, E_sell_plain, 100%Z)
  else if flt price_diff fzero then
    if SignalType_eqb macd_sig BUY then (BUY, 8 # 10, E_buy_confirmed, trade_volume)
    else (BUY, 5 # 10, E_buy_plain, 100%Z)
  else (HOLD, 0, E_near_middle, 0%Z).

(** ** risk_control.py: the other position sizers *)

(** The keys the sizers' dictionaries share. *)
Record PositionSize : Type := mkPositionSize {
  ps_ratio : Q;
  ps_target_amount : Q;
  ps_actual_amount : Q;
  ps_volume : Z
}.

(** [PositionManager._calculate_percentage_position]; [None] is the
    ZeroDivisionError of a zero price. The operations that lead to the
    quotient [int] truncates are binary64. *)
Definition _calculate_percentage_position (cfg : Config)
    (signal_strength price total_asset : Q) : option PositionSize :=
  let base_ratio := position_ratio cfg in
  let adjusted_ratio := fmul64 base_ratio signal_strength in
  let max_ratio := max_single_position cfg in
  let adjusted_ratio := py_min adjusted_ratio max_ratio in
  let target_amount := fmul64 total_asset adjusted_ratio in
  if Qeq_bool price 0 then None
  else
    let volume := (py_int (fdiv64 (fdiv64 target_amount price) 100) * 100)%Z in
    Some {| ps_ratio := adjusted_ratio;
            ps_target_amount := target_amount;
            ps_actual_amount := inject_Z volume * price;
            ps_volume := volume |}.

(** The estimated win rate and the ratio of the Kelly sizer before and
    after it is clamped. *)
Definition kelly_win_rate (signal_strength : Q) : Q :=
  (55 # 100) + signal_strength * (15 # 100).

Definition kelly_odds : Q := (3 # 100) / (2 # 100).

Definition kelly_raw (signal_strength : Q) : Q :=
  (kelly_odds * kelly_win_rate signal_strength - (1 - kelly_win_rate signal_strength))
  / kelly_odds.

Definition kelly_ratio (cfg : Config) (signal_strength : Q) : Q :=
  py_max 0 (py_min (kelly_raw signal_strength) (max_single_position cfg)).

(** [PositionManager._calculate_kelly_position]: the ratio is read as an
    exact rational, the sizing that follows is binary64 as in the other
    sizers. *)
Definition _calculate_kelly_position (cfg : Config)
    (signal_strength price available_cash : Q) : option PositionSize :=
  let target_amount := fmul64 available_cash (kelly_ratio cfg signal_strength) in
  if Qeq_bool price 0 then None
  else
    let volume := (py_int (fdiv64 (fdiv64 target_amount price) 100) * 100)%Z in
    Some {| ps_ratio := kelly_ratio cfg signal_strength;
            ps_target_amount := target_amount;
            ps_actual_amount := inject_Z volume * price;
            ps_volume := volume |}.

(** [PositionManager._calculate_atr_position]: the dictionary's target is
    the actual amount, and its ratio the share of the cash it takes. *)
Definition _calculate_atr_position (price available_cash : Q) : option PositionSize :=
  let atr_ratio := py_float (2 # 100) in
  let risk_per_share := fmul64 price atr_ratio in
  let risk_amount := fmul64 available_cash (py_float (1 # 100)) in
  if Qeq_bool risk_per_share 0 then None
  else
    let volume := (py_int (fdiv64 (fdiv64 risk_amount risk_per_share) 100) * 100)%Z in
    let actual_amount := inject_Z volume * price in
    Some {| ps_ratio := if Qlt_bool 0 available_cash
                        then actual_amount / available_cash else 0;
            ps_target_amount := actual_amount;
            ps_actual_amount := actual_amount;
            ps_volume := volume |}.

(** ** risk_control.py: the risk controller *)

Inductive RiskLevel : Type := LOW | MEDIUM | HIGH | CRITICAL.

Inductive RiskAction : Type := ALLOW | REDUCE | STOP | EMERGENCY_EXIT.

(** The description templates of the four checks. *)
Inductive RiskNote : Type :=
| N_no_trades_today | N_no_asset | N_daily_loss_over | N_daily_loss_near
| N_daily_loss_ok | N_daily_pnl_normal
| N_no_history | N_no_pnl_data | N_drawdown_over | N_drawdown_near | N_drawdown_ok
| N_no_position | N_position_over | N_position_near | N_position_ok
| N_frequency_over | N_frequency_high | N_frequency_ok
| N_check_error.

(** The dictionary a check returns: level, action and description. *)
Record RiskCheck : Type := mkRiskCheck {
  risk_level : RiskLevel;
  risk_action : RiskAction;
  risk_note : RiskNote
}.

(** The entries of [RISK_CONFIG] the checks read. *)
Record RiskConfig : Type := mkRiskConfig {
  max_daily_loss : Q;
  max_drawdown : Q;
  trade_frequency_limit : Q
}.

(** What a collaborator (database, broker) hands back: an exception, or a
    value. *)
Inductive Fetched (A : Type) : Type :=
| Raised
| Got (a : A).
Arguments Raised {A}.
Arguments Got {A} a.

(** The handler every check ends with. *)
Definition check_error : RiskCheck :=
  {| risk_level := CRITICAL; risk_action := STOP; risk_note := N_check_error |}.

(** The loss ratio of [check_daily_loss_limit]. *)
Definition daily_loss_ratio (total_pnl total_asset : Q) : Q :=
  if Qlt_bool total_pnl 0 then Qabs total_pnl / total_asset else 0.

(** [RiskController.check_daily_loss_limit]: [today_trades] holds the
    [profit_loss] of today's trade records and [asset] the account's
    [total_asset] ([None] when the account cannot be read). *)
Definition check_daily_loss_limit (rcfg : RiskConfig)
    (today_trades : Fetched (list Q)) (asset : Fetched (option Q)) : RiskCheck :=
  match today_trades with
  | Raised => check_error
  | Got [] => {| risk_level := LOW; risk_action := ALLOW; risk_note := N_no_trades_today |}
  | Got records =>
      let total_pnl := py_sum records in
      match asset with
      | Raised => check_error
      | Got a =>
          let total_asset := match a with Some t => t | None => 0 end in
          if Qeq_bool total_asset 0 then
            {| risk_level := CRITICAL; risk_action := STOP; risk_note := N_no_asset |}
          else
            let loss_ratio := daily_loss_ratio total_pnl total_asset in
            let limit := max_daily_loss rcfg in
            if Qle_bool limit loss_ratio then
              {| risk_level := CRITICAL; risk_action := STOP;
                 risk_note := N_daily_loss_over |}
            else if Qle_bool (limit * (8 # 10)) loss_ratio then
              {| risk_level := HIGH; risk_action := REDUCE;
                 risk_note := N_daily_loss_near |}
            else if Qle_bool (limit * (5 # 10)) loss_ratio then
              {| risk_level := MEDIUM; risk_action := ALLOW;
                 risk_note := N_daily_loss_ok |}
            else
              {| risk_level := LOW; risk_action := ALLOW;
                 risk_note := N_daily_pnl_normal |}
      end
  end.

(** [sorted(trades, key=trade_time)]: a stable sort of (time, profit) pairs. *)
Fixpoint insert_by_time (t : Z * Q) (l : list (Z * Q)) : list (Z * Q) :=
  match l with
  | [] => [t]
  | u :: rest =>
      if (fst u <=? fst t)%Z then u :: insert_by_time t rest else t :: l
  end.

Definition sorted_by_time (l : list (Z * Q)) : list (Z * Q) :=
  fold_left (fun acc t => insert_by_time t acc) l [].

(** The running totals [cumulative_pnl]. *)
Fixpoint cumulative_from (running_total : Q) (pnls : list Q) : list Q :=
  match pnls with
  | [] => []
  | p :: rest => (running_total + p) :: cumulative_from (running_total + p) rest
  end.

(** One turn of the drawdown loop on (peak, max_drawdown). *)
Definition drawdown_step (state : Q * Q) (pnl : Q) : Q * Q :=
  let '(peak, max_dd) := state in
  let peak := if Qlt_bool peak pnl then pnl else peak in
  let drawdown := if Qeq_bool peak 0 then 0 else (peak - pnl) / Qabs peak in
  (peak, py_max max_dd drawdown).

(** The peak and the maximum drawdown of a non-empty cumulative curve. *)
Definition peak_and_drawdown (first : Q) (curve : list Q) : Q * Q :=
  fold_left drawdown_step curve (first, 0).

(** The maximum drawdown [check_drawdown_limit] computes from the records,
    sorted by trade time; [None] without a cumulative curve. *)
Definition history_drawdown (records : list (Z * Q)) : option Q :=
  match cumulative_from 0 (map snd (sorted_by_time records)) with
  | [] => None
  | first :: rest => Some (snd (peak_and_drawdown first (first :: rest)))
  end.

(** [RiskController.check_drawdown_limit]: [trades] holds the
    (trade_time, profit_loss) of the last 30 days' records. *)
Definition check_drawdown_limit (rcfg : RiskConfig)
    (trades : Fetched (list (Z * Q))) : RiskCheck :=
  match trades with
  | Raised => check_error
  | Got [] => {| risk_level := LOW; risk_action := ALLOW; risk_note := N_no_history |}
  | Got records =>
      match history_drawdown records with
      | None => {| risk_level := LOW; risk_action := ALLOW; risk_note := N_no_pnl_data |}
      | Some max_dd =>
          let limit := max_drawdown rcfg in
          if Qle_bool limit max_dd then
            {| risk_level := CRITICAL; risk_action := EMERGENCY_EXIT;
               risk_note := N_drawdown_over |}
          else if Qle_bool (limit * (8 # 10)) max_dd then
            {| risk_level := HIGH; risk_action := REDUCE; risk_note := N_drawdown_near |}
          else
            {| risk_level := LOW; risk_action := ALLOW; risk_note := N_drawdown_ok |}
      end
  end.

(** [RiskController.check_position_limit]: [position] is the market value
    of the holding ([None] without one) and [asset] the account's total. *)
Definition check_position_limit (cfg : Config)
    (position : Fetched (option Q)) (asset : Fetched (option Q)) : RiskCheck :=
  match position, asset with
  | Raised, _ | _, Raised => check_error
  | Got pos, Got None =>
      {| risk_level := CRITICAL; risk_action := STOP; risk_note := N_no_asset |}
  | Got pos, Got (Some total_asset) =>
      match pos with
      | None => {| risk_level := LOW; risk_action := ALLOW; risk_note := N_no_position |}
      | Some position_value =>
          if Qeq_bool total_asset 0 then
            {| risk_level := LOW; risk_action := ALLOW; risk_note := N_no_position |}
          else
            let ratio := position_value / total_asset in
            let limit := max_single_position cfg in
            if Qle_bool limit ratio then
              {| risk_level := HIGH; risk_action := REDUCE; risk_note := N_position_over |}
            else if Qle_bool (limit * (9 # 10)) ratio then
              {| risk_level := MEDIUM; risk_action := ALLOW;
                 risk_note := N_position_near |}
            else
              {| risk_level := LOW; risk_action := ALLOW; risk_note := N_position_ok |}
      end
  end.

(** [RiskController.check_trade_frequency]: [today_trades] is the number of
    today's trade records. *)
Definition check_trade_frequency (rcfg : RiskConfig) (today_trades : Fetched nat)
    : RiskCheck :=
  match today_trades with
  | Raised => check_error
  | Got n =>
      let trade_count := inject_Z (Z.of_nat n) in
      let limit := trade_frequency_limit rcfg in
      if Qle_bool limit trade_count then
        {| risk_level := HIGH; risk_action := STOP; risk_note := N_frequency_over |}
      else if Qle_bool (limit * (8 # 10)) trade_count then
        {| risk_level := MEDIUM; risk_action := ALLOW; risk_note := N_frequency_high |}
      else
        {| risk_level := LOW; risk_action := ALLOW; risk_note := N_frequency_ok |}
  end.

(** [level_priority] and [action_priority]. *)
Definition level_priority (l : RiskLevel) : nat :=
  match l with CRITICAL => 4 | HIGH => 3 | MEDIUM => 2 | LOW => 1 end.

Definition action_priority (a : RiskAction) : nat :=
  match a with EMERGENCY_EXIT => 4 | STOP => 3 | REDUCE => 2 | ALLOW => 1 end.

(** Python's [max(items, key=key)] on a non-empty list: the first item of
    the largest key. *)
Definition max_by {A : Type} (key : A -> nat) (first : A) (rest : list A) : A :=
  fold_left (fun best x => if (key best <? key x)%nat then x else best) rest first.

(** The dictionary [comprehensive_risk_check] returns. *)
Record RiskSummary : Type := mkRiskSummary {
  overall_risk_level : RiskLevel;
  required_action : RiskAction;
  risk_summary : list RiskNote;
  can_trade : bool
}.

(** [RiskController.comprehensive_risk_check], from the four checks in the
    order of its dictionary. *)
Definition comprehensive_risk_check (daily_loss drawdown position frequency : RiskCheck)
    : RiskSummary :=
  let rest := [drawdown; position; frequency] in
  let highest_risk := max_by level_priority (risk_level daily_loss) (map risk_level rest) in
  let action := max_by action_priority (risk_action daily_loss) (map risk_action rest) in
  {| overall_risk_level := highest_risk;
     required_action := action;
     risk_summary := map risk_note (daily_loss :: rest);
     can_trade := match action with
                  | ALLOW | REDUCE => true
                  | STOP | EMERGENCY_EXIT => false
                  end |}.

(** What the four checks read, each from its own query: today's
    [profit_loss] values and the account total for the loss check, the last
    30 days' (trade_time, profit_loss) for the drawdown check, the holding's
    market value and the account total for the position check, and the
    number of today's records for the frequency check. *)
Record RiskInputs : Type := mkRiskInputs {
  in_today_pnls : Fetched (list Q);
  in_loss_asset : Fetched (option Q);
  in_month_trades : Fetched (list (Z * Q));
  in_position : Fetched (option Q);
  in_position_asset : Fetched (option Q);
  in_today_count : Fetched nat
}.

(** [check_trading_risk]: the four checks, then their summary. *)
Definition check_trading_risk (cfg : Config) (rcfg : RiskConfig) (i : RiskInputs)
    : RiskSummary :=
  comprehensive_risk_check
    (check_daily_loss_limit rcfg (in_today_pnls i) (in_loss_asset i))
    (check_drawdown_limit rcfg (in_month_trades i))
    (check_position_limit cfg (in_position i) (in_position_asset i))
    (check_trade_frequency rcfg (in_today_count i)).

(** [is_trading_allowed]. *)
Definition is_trading_allowed (cfg : Config) (rcfg : RiskConfig) (i : RiskInputs) : bool :=
  can_trade (check_trading_risk cfg rcfg i).

(** The answer of [StopLossManager.check_stop_conditions]. *)
Inductive StopAnswer : Type :=
| StopNone       (* 'none': no position, or a position with no price or volume *)
| StopLoss       (* 'stop_loss' *)
| StopTakeProfit (* 'take_profit' *)
| StopHold       (* 'hold' *)
| StopError.     (* 'error' *)

(** [StopLossManager.check_stop_conditions]: [position] is the broker's
    (avg_price, volume) for the stock. *)
Definition check_stop_conditions (cfg : Config)
    (position : Fetched (option (Q * Z))) (current_price : Q) : StopAnswer :=
  match position with
  | Raised => StopError
  | Got None => StopNone
  | Got (Some (avg, vol)) =>
      if Qeq_bool avg 0 || (vol =? 0)%Z then StopNone
      else
        let stop_loss_price := calculate_stop_loss_price cfg avg SideBuy in
        let take_profit_price := calculate_take_profit_price cfg avg SideBuy in
        if Qle_bool current_price stop_loss_price then StopLoss
        else if Qle_bool take_profit_price current_price then StopTakeProfit
        else StopHold
  end.

(** ** Accounting over the trade log *)

(** The shares a trade adds to the position and the cash it adds to the
    account. *)
Definition signed_volume (t : Trade) : Z :=
  match action t with
  | ActBuy => volume t
  | ActSell => (- volume t)%Z
  end.

Definition cash_flow (t : Trade) : Q :=
  match action t with
  | ActBuy => - (amount t + commission t)
  | ActSell => amount t - commission t
  end.

Definition net_volume (log : list Trade) : Z :=
  fold_right (fun t acc => (signed_volume t + acc)%Z) 0%Z log.

Definition net_cash_flow (log : list Trade) : Q :=
  fold_right (fun t acc => cash_flow t + acc) 0 log.

(** The shares the engine holds. *)
Definition held_volume (st : Engine) : Z :=
  match current_position st with
  | Some pos => pos_volume pos
  | None => 0%Z
  end.

(** Two index entries that are both timestamps, the first not after the
    second. *)
Definition moment_le (d e : IndexEntry) : Prop :=
  match d, e with
  | Moment t, Moment u => (t <= u)%Z
  | _, _ => False
  end.

(** A frame indexed by timestamps that never go back in time. *)
Fixpoint ascending_dates (df : list Bar) : Prop :=
  match df with
  | [] => True
  | b :: rest =>
      moment_le (bar_date b) (bar_date b) /\
      (forall c, In c rest -> moment_le (bar_date b) (bar_date c)) /\
      ascending_dates rest
  end.

(** A frame indexed by the vendor's keys, and a wall clock that never goes
    back. *)
Definition keyed (df : list Bar) : Prop :=
  Forall (fun b => exists k, bar_date b = DateKey k) df.

Definition clock_monotone (cfg : Config) : Prop :=
  forall i j, (i <= j)%nat -> (wall_clock cfg i <= wall_clock cfg j)%Z.

(** The two kinds of run whose trades are stamped in order. *)
Definition stamps_in_order (cfg : Config) (df : list Bar) : Prop :=
  ascending_dates df \/ (keyed df /\ clock_monotone cfg).

(** A log stamped by the wall clock: trade number [k] carries
    [wall_clock k]. *)
Definition clock_stamped (cfg : Config) (log : list Trade) : Prop :=
  forall k t, nth_error log k = Some t -> timestamp t = wall_clock cfg k.

(** Trades appended to a log of [k] trades at a bar dated [date], each
    stamped as its order stamps it. *)
Definition stamped_from (cfg : Config) (k : nat) (date : IndexEntry) (added : list Trade)
    : Prop :=
  forall j t, nth_error added j = Some t -> timestamp t = stamp_at cfg (k + j) date.

(** The engine's books agree with its log: the shares held are the shares
    bought less the shares sold, and the cash is the initial capital plus the
    net proceeds of the logged trades. *)
Definition books_balance (cfg : Config) (st : Engine) : Prop :=
  held_volume st = net_volume (trades st) /\
  current_capital st == initial_capital cfg + net_cash_flow (trades st).

(** The decision procedure of [ascending_dates]. *)
Definition moment_leb (d e : IndexEntry) : bool :=
  match d, e with
  | Moment t, Moment u => (t <=? u)%Z
  | _, _ => false
  end.

Fixpoint ascending_datesb (df : list Bar) : bool :=
  match df with
  | [] => true
  | b :: rest =>
      moment_leb (bar_date b) (bar_date b)
      && forallb (fun c => moment_leb (bar_date b) (bar_date c)) rest
      && ascending_datesb rest
  end.

(** A signal source whose strengths all stay below 0.8. *)
Definition below_full_exit (gen : list Bar -> option Signal) : Prop :=
  forall data sig, gen data = Some sig -> signal_strength sig < 8 # 10.

(** The engine during the first 19 bars: untouched but for equity records
    that all show the initial capital. *)
Definition idle (cfg : Config) (st : Engine) : Prop :=
  current_capital st = initial_capital cfg /\
  current_position st = None /\
  trades st = [] /\
  Forall (fun e => equity e == initial_capital cfg) (daily_equity st).

(** The books of an engine that has not traded: Python floats, all showing
    the initial capital. *)
Definition untraded_books (cfg : Config) (st : Engine) : Prop :=
  python_floats st = true ->
  current_capital st = initial_capital cfg /\
  Forall (fun e => equity e == initial_capital cfg) (daily_equity st).

(** A signal source that buys on the twentieth bar and answers a
    half-strength SELL on every later frame, and a frame of 22 bars at 10. *)
Definition buy_then_sell (current_data : list Bar) : option Signal :=
  if (length current_data =? 20)%nat then
    Some {| signal_type := BUY; signal_strength := 7 # 10;
            signal_reason := "entry"; signal_price := 10 |}
  else
    Some {| signal_type := SELL; signal_strength := 6 # 10;
            signal_reason := "weakness"; signal_price := 10 |}.

Definition level_frame : list Bar := frame_of (repeat 10 22).

(** The indicator rows of a two-bar frame with closes 10 and 11: the
    rolling columns are still undefined, the MACD columns (exponential
    averages, defined from the first row) are not. *)
Definition early_row (close macd_line signal_line histogram change : pyfloat)
    : IndicatorRow :=
  {| row_close_price := close; sma_short := NaN; sma_long := NaN; row_rsi := NaN;
     row_macd := macd_line; macd_signal := signal_line; macd_histogram := histogram;
     bb_upper := NaN; bb_middle := NaN; bb_lower := NaN;
     row_volume := Fin 1000; row_volume_sma := NaN; row_price_change := change |}.

Definition rising_pair_rows : list IndicatorRow :=
  [ early_row (Fin 10) (Fin 0) (Fin 0) (Fin 0) NaN;
    early_row (Fin 11) (Fin (7 # 312)) (Fin (35 # 2808)) (Fin (7 # 702)) (Fin (1 # 10)) ].

(** Thresholds of the usual kind, and an indicator frame whose last two
    rows show a golden cross with an oversold RSI. *)
Definition sample_strategy_config : StrategyConfig :=
  {| rsi_oversold := 30; rsi_overbought := 70; price_change_threshold := 2 # 100 |}.

Definition crossing_rows : list IndicatorRow :=
  [ {| row_close_price := Fin 10; sma_short := Fin 9; sma_long := Fin 10;
       row_rsi := Fin 40; row_macd := NaN; macd_signal := NaN; macd_histogram := NaN;
       bb_upper := NaN; bb_middle := NaN; bb_lower := NaN;
       row_volume := Fin 1000; row_volume_sma := NaN; row_price_change := NaN |};
    {| row_close_price := Fin 10; sma_short := Fin 11; sma_long := Fin 10;
       row_rsi := Fin 25; row_macd := NaN; macd_signal := NaN; macd_histogram := NaN;
       bb_upper := NaN; bb_middle := NaN; bb_lower := NaN;
       row_volume := Fin 1000; row_volume_sma := NaN; row_price_change := NaN |} ].

Definition crossing_indicators (df : list Bar) : option (list IndicatorRow) :=
  Some crossing_rows.

Definition plain_render (a : TrendAnswer) : string := "technical".

(** Three bars closing at 10, 11 and 12. *)
Definition three_bar_frame : list Bar := frame_of [10; 11; 12].

(** An action that lets trading go on. *)
Definition permits (a : RiskAction) : Prop := a = ALLOW \/ a = REDUCE.

(** Limits of the usual kind: 5 percent daily loss, 10 percent drawdown,
    ten trades a day. *)
Definition sample_risk_config : RiskConfig :=
  {| max_daily_loss := 5 # 100; max_drawdown := 1 # 10; trade_frequency_limit := 10 |}.

(** A quiet day: two small trades, a profitable month, a modest holding. *)
Definition quiet_day : RiskInputs :=
  {| in_today_pnls := Got [100; - (50)];
     in_loss_asset := Got (Some 100000);
     in_month_trades := Got [(1%Z, 200); (2%Z, 100)];
     in_position := Got (Some 20000);
     in_position_asset := Got (Some 100000);
     in_today_count := Got 2%nat |}.

(** A day with a loss of 3000 and a day that ends 50 up. *)
Definition losing_day : list Q := [- (3000)].
Definition winning_day : list Q := [100; - (50)].

(** The live answer that corresponds to an answer of the simulator's check. *)
Definition stop_answer_of (a : option string) : StopAnswer :=
  match a with
  | None => StopHold
  | Some name => if String.eqb name "stop_loss" then StopLoss else StopTakeProfit
  end.

(** A series that never falls. *)
Fixpoint nondecreasing (l : list Q) : Prop :=
  match l with
  | [] => True
  | x :: rest => match rest with
                 | [] => True
                 | y :: _ => x <= y /\ nondecreasing rest
                 end
  end.

(** The loss check of a day on an account of 100000. *)
Definition checked_day (pnls : list Q) : RiskCheck :=
  check_daily_loss_limit sample_risk_config (Got pnls) (Got (Some 100000)).

(** ** indicators.py: rolling indicators *)

(** The [period] observations that end at position [i], as
    [Series.rolling(window=period)] hands them to its aggregate; there is
    none while fewer than [period] are available ([min_periods] defaults to
    the window) or past the end of the series. *)
Definition window (period : nat) (data : list Q) (i : nat) : option (list Q) :=
  if ((1 <=? period) && (period <=? S i) && (S i <=? length data))%nat
  then Some (firstn period (skipn (S i - period) data))
  else None.

Definition rolling (aggregate : list Q -> Q) (period : nat) (data : list Q) (i : nat)
    : option Q :=
  option_map aggregate (window period data i).

Definition window_max (w : list Q) : Q :=
  match w with
  | [] => 0
  | x :: rest => fold_left Qmax rest x
  end.

Definition window_min (w : list Q) : Q :=
  match w with
  | [] => 0
  | x :: rest => fold_left Qmin rest x
  end.

(** A missing entry of a series is NaN. *)
Definition of_option (x : option Q) : pyfloat :=
  match x with
  | Some q => Fin q
  | None => NaN
  end.

(** [sma(data, period)]: [data.rolling(window=period).mean()]. *)
Definition sma (data : list Q) (period : nat) : option (list pyfloat) :=
  match data with
  | [] => None
  | _ => Some (map (fun i => of_option (rolling np_mean period data i))
                   (seq 0 (length data)))
  end.

(** [data.diff()]. *)
Definition diff (data : list Q) : list (option Q) :=
  zip_with (fun x s => option_map (fun y => x - y) s) data (shift 1 data).

(** [delta.where(delta > 0, 0)] and [-delta.where(delta < 0, 0)]: the
    missing first difference fails both comparisons and becomes 0. *)
Definition gains (data : list Q) : list Q :=
  map (fun d => match d with
                | Some v => if Qlt_bool 0 v then v else 0
                | None => 0
                end) (diff data).

Definition losses (data : list Q) : list Q :=
  map (fun d => - match d with
                  | Some v => if Qlt_bool v 0 then v else 0
                  | None => 0
                  end) (diff data).

(** [q + x] and [q / x] for a finite [q]. *)
Definition qaddf (q : Q) (x : pyfloat) : pyfloat :=
  match x with
  | Fin a => Fin (q + a)
  | other => other
  end.

Definition qdivf (q : Q) (x : pyfloat) : pyfloat :=
  match x with
  | Fin a => fdiv q a
  | PInf | NInf => Fin 0
  | NaN => NaN
  end.

(** [rsi(data, period=14)]. *)
Definition rsi (data : list Q) (period : nat) : option (list pyfloat) :=
  match data with
  | [] => None
  | _ =>
      Some (map (fun i =>
                   match rolling np_mean period (gains data) i,
                         rolling np_mean period (losses data) i with
                   | Some gain, Some loss =>
                       let rs := fdiv gain loss in
                       fsub (Fin 100) (qdivf 100 (qaddf 1 rs))
                   | _, _ => NaN
                   end) (seq 0 (length data)))
  end.

(** [williams_r(high, low, close, period=14)]; the three series are aligned
    on their positions, and a position one of them lacks gives NaN. *)
Definition williams_r (high low close : list Q) (period : nat) : option (list pyfloat) :=
  match high with
  | [] => None
  | _ =>
      Some (map (fun i =>
                   match rolling window_max period high i,
                         rolling window_min period low i,
                         nth_error close i with
                   | Some highest_high, Some lowest_low, Some c =>
                       fmulq (fdiv (highest_high - c) (highest_high - lowest_low)) (- (100))
                   | _, _, _ => NaN
                   end)
                (seq 0 (Nat.max (length high) (Nat.max (length low) (length close)))))
  end.

(** An entry of a bounded indicator: missing, or a number in the range. *)
Definition nan_or_within (lo hi : Q) (x : pyfloat) : Prop :=
  x = NaN \/ exists q, x = Fin q /\ lo <= q /\ q <= hi.

(** Every entry of a series and the one after it stand in relation [R]. *)
Definition consecutive (R : Q -> Q -> Prop) (data : list Q) : Prop :=
  forall i a b, nth_error data i = Some a -> nth_error data (S i) = Some b -> R a b.

(** The value [rsi] computes from the average gain and the average loss of
    a window. *)
Definition rsi_value (gain loss : Q) : pyfloat :=
  fsub (Fin 100) (qdivf 100 (qaddf 1 (fdiv gain loss))).

(** Six closes that only rise. *)
Definition rising_closes : list Q := [10; 11; 12; 13; 14; 15].

(** Twenty closes that rise, fall and rise again, with their highs and lows. *)
Definition wavy_closes : list Q :=
  [10; 11; 12; 11; 10; 9; 10; 11; 12; 13; 14; 13; 12; 11; 12; 13; 14; 15; 16; 15].
Definition wavy_highs : list Q := map (fun c => c + 1) wavy_closes.
Definition wavy_lows : list Q := map (fun c => c - 1) wavy_closes.

(** * Properties *)

(** ** Facts on the number model *)

Lemma Qlt_bool_iff (x y : Q) : Qlt_bool x y = true <-> x < y.
Proof.
  unfold Qlt_bool. rewrite negb_true_iff.
  split; intro H.
  - apply Qnot_le_lt. intro Hle. apply Qle_bool_iff in Hle. congruence.
  - destruct (Qle_bool y x) eqn:E; [|reflexivity].
    apply Qle_bool_iff in E. exfalso. apply (Qlt_not_le _ _ H E).
Qed.

Lemma Qlt_bool_false_iff (x y : Q) : Qlt_bool x y = false <-> y <= x.
Proof.
  unfold Qlt_bool. rewrite negb_false_iff. apply Qle_bool_iff.
Qed.

Lemma Qle_bool_false_iff (x y : Q) : Qle_bool x y = false <-> y < x.
Proof.
  rewrite <- Qlt_bool_iff. unfold Qlt_bool.
  destruct (Qle_bool x y); simpl; intuition congruence.
Qed.

Lemma py_int_nonneg (q : Q) : 0 <= q -> py_int q = Qfloor q.
Proof.
  intro H. unfold py_int. apply Qle_bool_iff in H. now rewrite H.
Qed.

Lemma py_int_inject_Z (z : Z) : py_int (inject_Z z) = z.
Proof.
  unfold py_int. destruct (Qle_bool 0 (inject_Z z)).
  - apply Qfloor_Z.
  - apply Qceiling_Z.
Qed.

Lemma SignalType_eqb_eq (a b : SignalType) : SignalType_eqb a b = true <-> a = b.
Proof. destruct a, b; simpl; split; intro H; try reflexivity; discriminate. Qed.

(** ** Binary64 rounding *)


Lemma pow2_pos (e : Z) : 0 < pow2 e.
Proof. unfold pow2. apply Qpower_0_lt. reflexivity. Qed.

Lemma pow2_add (a b : Z) : pow2 (a + b) == pow2 a * pow2 b.
Proof. unfold pow2. apply Qpower_plus. discriminate. Qed.

Lemma pow2_inject (n : Z) : (0 <= n)%Z -> pow2 n == inject_Z (2 ^ n).
Proof. intro H. unfold pow2. now rewrite Zpower_Qpower. Qed.

Lemma Qabs_as_fraction (x : Q) :
  Qabs x == inject_Z (Z.abs (Qnum x)) / inject_Z (Zpos (Qden x)).
Proof.
  destruct x as [n d]. unfold Qabs. cbn [Qnum Qden].
  rewrite Qmake_Qdiv. reflexivity.
Qed.

(** The exponent found is a lower bound: [2^e <= |x|]. *)
Lemma binary_exponent_le (x : Q) : ~ x == 0 -> pow2 (binary_exponent x) <= Qabs x.
Proof.
  intro Hx. unfold binary_exponent.
  set (n := Z.abs (Qnum x)). set (d := Zpos (Qden x)).
  destruct (Qle_bool (pow2 (Z.log2 n - Z.log2 d)) (Qabs x)) eqn:E.
  - now apply Qle_bool_iff.
  - clear E.
    assert (Hn : (0 < n)%Z).
    { unfold n. destruct x as [[|p|p] q]; cbn; try lia. exfalso. apply Hx. reflexivity. }
    assert (Hd : (0 < d)%Z) by (unfold d; lia).
    pose proof (Z.log2_nonneg n) as Hln. pose proof (Z.log2_nonneg d) as Hld.
    destruct (Z.log2_spec n Hn) as [Hn1 _]. destruct (Z.log2_spec d Hd) as [_ Hd2].
    rewrite Qabs_as_fraction. fold n d.
    replace (Z.log2 n - Z.log2 d - 1)%Z with (Z.log2 n - Z.succ (Z.log2 d))%Z by lia.
    unfold pow2 at 1. rewrite Qpower_minus by discriminate.
    fold (pow2 (Z.log2 n)) (pow2 (Z.succ (Z.log2 d))).
    rewrite !pow2_inject by lia.
    assert (Hd' : 0 < inject_Z d) by (change 0 with (inject_Z 0); rewrite <- Zlt_Qlt; lia).
    assert (Hp : 0 < inject_Z (2 ^ Z.succ (Z.log2 d))).
    { change 0 with (inject_Z 0). rewrite <- Zlt_Qlt. lia. }
    apply Qle_shift_div_l; [exact Hd'|].
    assert (Hq : inject_Z (2 ^ Z.log2 n) / inject_Z (2 ^ Z.succ (Z.log2 d)) * inject_Z d
                 == inject_Z (2 ^ Z.log2 n) * inject_Z d / inject_Z (2 ^ Z.succ (Z.log2 d))).
    { field. lra. }
    rewrite Hq. apply Qle_shift_div_r; [exact Hp|].
    rewrite <- !inject_Z_mult, <- Zle_Qle. nia.
Qed.

Lemma round_half_even_near (m : Q) :
  Qabs (inject_Z (round_half_even m) - m) <= 1 # 2.
Proof.
  unfold round_half_even.
  pose proof (Qfloor_le m) as Hlo. pose proof (Qlt_floor m) as Hhi.
  rewrite inject_Z_plus in Hhi. change (inject_Z 1) with 1 in Hhi.
  apply Qabs_Qle_condition.
  destruct (Qcompare (m - inject_Z (Qfloor m)) (1 # 2)) eqn:E.
  - apply Qeq_alt in E. destruct (Z.even (Qfloor m)).
    + split; lra.
    + rewrite inject_Z_plus. change (inject_Z 1) with 1. split; lra.
  - apply Qlt_alt in E. split; lra.
  - apply Qgt_alt in E. rewrite inject_Z_plus. change (inject_Z 1) with 1. split; lra.
Qed.

(** Rounding to binary64 moves a value by at most [2^-53] of its size. *)
Lemma round64_error (x : Q) : Qabs (round64 x - x) <= Qabs x * float_unit.
Proof.
  unfold round64. destruct (Qeq_bool x 0) eqn:Ez.
  - apply Qeq_bool_iff in Ez. rewrite Ez. cbn. discriminate.
  - apply Qeq_bool_neq in Ez.
    pose proof (binary_exponent_le x Ez) as Hlow.
    set (e := binary_exponent x) in *.
    pose proof (round_half_even_near (Qabs x * pow2 (52 - e))) as Hr.
    set (r := inject_Z (round_half_even (Qabs x * pow2 (52 - e)))) in *.
    pose proof (pow2_pos (e - 52)) as Hs. pose proof (pow2_pos (52 - e)) as Ht.
    assert (Hone : pow2 (52 - e) * pow2 (e - 52) == 1).
    { rewrite <- pow2_add. replace (52 - e + (e - 52))%Z with 0%Z by lia. reflexivity. }
    assert (H52 : pow2 e == pow2 (e - 52) * 4503599627370496).
    { replace e with (e - 52 + 52)%Z at 1 by lia. rewrite pow2_add.
      apply Qmult_comp; [reflexivity|]. reflexivity. }
    set (s := pow2 (e - 52)) in *. set (t := pow2 (52 - e)) in *.
    set (a := Qabs x) in *.
    assert (Hdiff : Qabs (r * s - a) <= (1 # 2) * s).
    { assert (Heq : r * s - a == (r - a * t) * s).
      { transitivity (r * s - a * (t * s)); [rewrite Hone; ring | ring]. }
      rewrite Heq, Qabs_Qmult, (Qabs_pos s) by lra.
      apply Qmult_le_compat_r; [exact Hr | lra]. }
    assert (Hgoal : (1 # 2) * s <= a * float_unit).
    { unfold float_unit. rewrite H52 in Hlow.
      assert (Hu : s * 4503599627370496 * (1 # 9007199254740992) == (1 # 2) * s) by field.
      rewrite <- Hu. apply Qmult_le_compat_r; [exact Hlow | discriminate]. }
    destruct (Qle_bool 0 x) eqn:Es.
    + apply Qle_bool_iff in Es. unfold a in *. rewrite (Qabs_pos x Es) in *. lra.
    + apply Qle_bool_false_iff in Es.
      assert (Ha : a == - x) by (unfold a; apply Qabs_neg; lra).
      assert (Heq : - (r * s) - x == - (r * s - a)) by (rewrite Ha; ring).
      rewrite Heq, Qabs_opp. lra.
Qed.

Lemma round64_bounds (x : Q) :
  0 <= x -> x * (1 - float_unit) <= round64 x /\ round64 x <= x * (1 + float_unit).
Proof.
  intro Hx. pose proof (round64_error x) as H.
  rewrite (Qabs_pos x Hx) in H. apply Qabs_Qle_condition in H. split; lra.
Qed.

Lemma round64_nonneg (x : Q) : 0 <= x -> 0 <= round64 x.
Proof.
  intro Hx. destruct (round64_bounds x Hx) as [H _].
  assert (0 <= x * (1 - float_unit)).
  { apply Qmult_le_0_compat; [exact Hx | unfold float_unit; lra]. }
  lra.
Qed.

Lemma round64_pos_inv (x : Q) : 0 < round64 x -> 0 < x.
Proof.
  intro H. destruct (Qlt_le_dec 0 x) as [Hx | Hx]; [exact Hx|]. exfalso.
  pose proof (round64_error x) as He. rewrite (Qabs_neg x Hx) in He.
  apply Qabs_Qle_condition in He. unfold float_unit in He. lra.
Qed.

Lemma float_near_exact (y : Q) : 0 <= y -> float_near 1 1 y y.
Proof. intro H. unfold float_near. repeat split; lra. Qed.

Lemma float_near_nonneg (lo hi x y : Q) : float_near lo hi x y -> 0 <= x.
Proof.
  intros [Hlo [Hy [H1 _]]].
  assert (0 <= y * lo) by (now apply Qmult_le_0_compat). lra.
Qed.

Lemma float_near_eq (lo hi x y y' : Q) :
  y == y' -> float_near lo hi x y -> float_near lo hi x y'.
Proof.
  intros E [Hlo [Hy [H1 H2]]]. unfold float_near.
  rewrite <- E. repeat split; assumption.
Qed.

Lemma float_near_round (lo hi x y : Q) :
  float_near lo hi x y ->
  float_near (lo * (1 - float_unit)) (hi * (1 + float_unit)) (round64 x) y.
Proof.
  intros H. pose proof (float_near_nonneg _ _ _ _ H) as Hx.
  destruct H as [Hlo [Hy [H1 H2]]].
  destruct (round64_bounds x Hx) as [B1 B2]. unfold float_unit in *.
  unfold float_near. split; [apply Qmult_le_0_compat; lra|]. split; [exact Hy|].
  split.
  - assert (H : y * lo * (1 - (1 # 9007199254740992))
                <= x * (1 - (1 # 9007199254740992)))
      by (apply Qmult_le_compat_r; lra).
    lra.
  - assert (H : x * (1 + (1 # 9007199254740992))
                <= y * hi * (1 + (1 # 9007199254740992)))
      by (apply Qmult_le_compat_r; lra).
    lra.
Qed.

Lemma float_near_mul (lo1 hi1 x1 y1 lo2 hi2 x2 y2 : Q) :
  float_near lo1 hi1 x1 y1 -> float_near lo2 hi2 x2 y2 ->
  float_near (lo1 * lo2) (hi1 * hi2) (x1 * x2) (y1 * y2).
Proof.
  intros H1 H2.
  pose proof (float_near_nonneg _ _ _ _ H1) as Hx1.
  pose proof (float_near_nonneg _ _ _ _ H2) as Hx2.
  destruct H1 as [L1 [Y1 [A1 B1]]]. destruct H2 as [L2 [Y2 [A2 B2]]].
  assert (P1 : 0 <= y1 * lo1) by (now apply Qmult_le_0_compat).
  assert (P2 : 0 <= y2 * lo2) by (now apply Qmult_le_0_compat).
  unfold float_near.
  split; [now apply Qmult_le_0_compat|]. split; [now apply Qmult_le_0_compat|].
  split.
  - assert (H : (y1 * lo1) * (y2 * lo2) <= x1 * x2)
      by (apply Qmult_le_compat_nonneg; split; assumption).
    assert (E : y1 * y2 * (lo1 * lo2) == (y1 * lo1) * (y2 * lo2)) by ring.
    rewrite E. exact H.
  - assert (H : x1 * x2 <= (y1 * hi1) * (y2 * hi2))
      by (apply Qmult_le_compat_nonneg; split; assumption).
    assert (E : y1 * y2 * (hi1 * hi2) == (y1 * hi1) * (y2 * hi2)) by ring.
    rewrite E. exact H.
Qed.

Lemma float_near_div (lo1 hi1 x1 y1 lo2 hi2 x2 y2 : Q) :
  float_near lo1 hi1 x1 y1 -> float_near lo2 hi2 x2 y2 ->
  0 < lo2 -> 0 < y2 ->
  float_near (lo1 / hi2) (hi1 / lo2) (x1 / x2) (y1 / y2).
Proof.
  intros H1 H2 Hlo2 Hy2.
  pose proof (float_near_nonneg _ _ _ _ H1) as Hx1.
  destruct H1 as [L1 [Y1 [A1 B1]]]. destruct H2 as [L2 [Y2 [A2 B2]]].
  assert (P2 : 0 < y2 * lo2) by (apply Qmult_lt_0_compat; assumption).
  assert (Hx2 : 0 < x2) by lra.
  assert (Hhi2 : 0 < hi2).
  { destruct (Qlt_le_dec 0 hi2) as [H | H]; [exact H|]. exfalso.
    assert (0 <= y2 * (- hi2)) by (apply Qmult_le_0_compat; lra). lra. }
  assert (Q2 : 0 < y2 * hi2) by (apply Qmult_lt_0_compat; assumption).
  assert (P1 : 0 <= y1 * lo1) by (now apply Qmult_le_0_compat).
  unfold float_near.
  split; [apply Qle_shift_div_l; lra|].
  split; [apply Qle_shift_div_l; lra|].
  split.
  - assert (E : y1 / y2 * (lo1 / hi2) == (y1 * lo1) / (y2 * hi2)) by (field; lra).
    rewrite E. apply Qle_shift_div_l; [exact Hx2|].
    set (a := (y1 * lo1) / (y2 * hi2)).
    assert (Ha : 0 <= a) by (unfold a; apply Qle_shift_div_l; lra).
    assert (H : a * x2 <= a * (y2 * hi2)).
    { rewrite !(Qmult_comm a). now apply Qmult_le_compat_r. }
    assert (E2 : a * (y2 * hi2) == y1 * lo1) by (unfold a; field; lra).
    lra.
  - assert (E : y1 / y2 * (hi1 / lo2) == (y1 * hi1) / (y2 * lo2)) by (field; lra).
    rewrite E. apply Qle_shift_div_r; [exact Hx2|].
    set (b := (y1 * hi1) / (y2 * lo2)).
    assert (Hb : 0 <= b) by (unfold b; apply Qle_shift_div_l; lra).
    assert (H : b * (y2 * lo2) <= b * x2).
    { rewrite !(Qmult_comm b). now apply Qmult_le_compat_r. }
    assert (E2 : b * (y2 * lo2) == y1 * hi1) by (unfold b; field; lra).
    lra.
Qed.

(** ** The strategy combiner *)

(** On the plain signals the combiner follows its decision table: agreement
    on BUY or SELL is promoted at strength 0.7 and kept below it. *)
Lemma combine_plain_agreement (s : SignalType) (strength : Q) :
  s = BUY \/ s = SELL ->
  _combine_strategy_signals s s strength =
    if Qle_bool (7 # 10) strength
    then match s with BUY => STRONG_BUY | _ => STRONG_SELL end
    else s.
Proof.
  intros [-> | ->]; unfold _combine_strategy_signals; simpl;
    destruct (Qle_bool (7 # 10) strength); reflexivity.
Qed.

(** Signals that differ: the technical signal at strength 0.5, else HOLD. *)
Lemma combine_disagreement (tech mom : SignalType) (strength : Q) :
  tech <> mom ->
  _combine_strategy_signals tech mom strength =
    if Qle_bool (5 # 10) strength then tech else HOLD.
Proof.
  intro Hne. unfold _combine_strategy_signals.
  destruct (SignalType_eqb tech mom) eqn:E.
  - apply SignalType_eqb_eq in E. contradiction.
  - reflexivity.
Qed.

(** C3, at the failing input: both analyzers answer STRONG_BUY with combined
    strength 0.8, so the agreed direction is buy and the rule asks for
    STRONG_BUY; the combiner's test [tech_signal == BUY] fails on STRONG_BUY
    and its else branch returns STRONG_SELL. *)
Theorem combine_strong_buy_agreement_returns_strong_sell :
  _combine_strategy_signals STRONG_BUY STRONG_BUY (8 # 10) = STRONG_SELL.
Proof. reflexivity. Qed.

(** The same slip for every strength of at least 0.7. *)
Lemma combine_strong_buy_agreement_flips (strength : Q) :
  7 # 10 <= strength ->
  _combine_strategy_signals STRONG_BUY STRONG_BUY strength = STRONG_SELL.
Proof.
  intro H. unfold _combine_strategy_signals; simpl.
  apply Qle_bool_iff in H. now rewrite H.
Qed.

(** ** The data guard and the momentum analyzer *)

(** Called as a method, the analyzer never meets its guard: [args[0]] is the
    strategy instance, so the body runs on frames of any length. *)
Lemma validate_data_skipped_on_method_call (df : list Bar) :
  call_analyze_momentum df = Some (analyze_momentum_body StrategyObj (DataFrame df)).
Proof. reflexivity. Qed.

(** Called with the frame first, the guard does answer as documented. *)
Lemma validate_data_guards_frame_first (df : list Bar) (rest : list pyobj) :
  (length df < 20)%nat ->
  exists r, analyze_momentum (DataFrame df :: rest) = Some (HOLD, 0, r)
            /\ (r = R_data_empty \/ r = R_data_insufficient).
Proof.
  intro Hlen. unfold analyze_momentum, validate_data.
  destruct (length df =? 0)%nat eqn:E0.
  - exists R_data_empty. split; [reflexivity | now left].
  - apply Nat.ltb_lt in Hlen. rewrite Hlen.
    exists R_data_insufficient. split; [reflexivity | now right].
Qed.

(** C6, at the failing input: on twenty bars whose last close rises from 100
    to 106 the momentum is 6 (more than 5) and the price change is 6 percent
    (more than 2 percent), so the rule asks for STRONG_BUY at 0.8; the
    analyzer compares the fraction 0.06 with 2 and answers HOLD at 0.0. *)
Theorem analyze_momentum_compares_fraction_with_percent :
  length rising_close_frame = 20%nat /\
  (exists m c,
      option_map (@iloc_last pyfloat) (momentum (map close_price rising_close_frame) 10)
        = Some (Some (Fin m)) /\
      option_map (@iloc_last pyfloat) (price_change (map close_price rising_close_frame) 1)
        = Some (Some (Fin c)) /\
      m == 6 /\ c * 100 == 6 /\
      call_analyze_momentum rising_close_frame
        = Some (HOLD, 0, R_unclear (Fin m) (Fin c))).
Proof.
  split; [reflexivity|].
  eexists; eexists.
  split; [vm_compute; reflexivity|].
  split; [vm_compute; reflexivity|].
  split; [reflexivity|].
  split; [reflexivity|].
  vm_compute; reflexivity.
Qed.

(** What the analyzer does decide on: STRONG_BUY exactly when the momentum
    exceeds 5 and the fractional change exceeds 2 (a tripling of the price). *)
Lemma analyze_momentum_strong_buy_iff (rows : list Bar) (m c : pyfloat) :
  option_map (@iloc_last pyfloat) (momentum (map close_price rows) 10) = Some (Some m) ->
  option_map (@iloc_last pyfloat) (price_change (map close_price rows) 1) = Some (Some c) ->
  (analysis_signal (analyze_momentum_body StrategyObj (DataFrame rows)) = STRONG_BUY
   <-> fgtq m 5 = true /\ fgtq c 2 = true).
Proof.
  intros Hm Hc. unfold analyze_momentum_body.
  destruct (momentum (map close_price rows) 10) as [mom|]; [|discriminate].
  destruct (price_change (map close_price rows) 1) as [chg|]; [|discriminate].
  simpl in Hm, Hc. injection Hm as Hm. injection Hc as Hc. rewrite Hm, Hc.
  destruct (fgtq m 5) eqn:E5, (fgtq c 2) eqn:E2; simpl;
    try (split; [intros _; split; reflexivity | reflexivity]);
    repeat match goal with
           | |- context [if ?b then _ else _] => destruct b; simpl
           end;
    split; intro H; try discriminate; destruct H; discriminate.
Qed.

(** C9, at the failing input: the momentum analyzer, called as the strategy
    manager calls it on a frame of eleven bars, returns STRONG_BUY with
    strength 0.8 where the guard is meant to answer HOLD with 0.0. *)
Theorem analyze_momentum_short_frame_not_hold :
  (length short_frame < 20)%nat /\
  call_analyze_momentum short_frame
    = Some (STRONG_BUY, 8 # 10, R_strong_up (Fin 9) (Fin 9)).
Proof.
  split; [vm_compute; lia|].
  vm_compute; reflexivity.
Qed.

(** ** Truncation and lots *)

Lemma Qle_bool_comp (a b c d : Q) : a == b -> c == d -> Qle_bool a c = Qle_bool b d.
Proof.
  intros Hab Hcd.
  destruct (Qle_bool a c) eqn:E1, (Qle_bool b d) eqn:E2; try reflexivity.
  - apply Qle_bool_iff in E1. rewrite Hab, Hcd in E1.
    apply Qle_bool_iff in E1. congruence.
  - apply Qle_bool_iff in E2. rewrite <- Hab, <- Hcd in E2.
    apply Qle_bool_iff in E2. congruence.
Qed.

Lemma py_int_comp (x y : Q) : x == y -> py_int x = py_int y.
Proof.
  intro H. unfold py_int.
  rewrite (Qle_bool_comp 0 0 x y (Qeq_refl 0) H).
  destruct (Qle_bool 0 y).
  - now apply Qfloor_comp.
  - now apply Qceiling_comp.
Qed.

Lemma py_int_le (q : Q) : 0 <= q -> inject_Z (py_int q) <= q.
Proof.
  intro H. rewrite (py_int_nonneg q H). apply Qfloor_le.
Qed.

Lemma py_int_ge_0 (q : Q) : 0 <= q -> (0 <= py_int q)%Z.
Proof.
  intro H. rewrite (py_int_nonneg q H).
  change 0%Z with (Qfloor 0). now apply Qfloor_resp_le.
Qed.

Lemma py_int_mono_nonneg (x y : Q) : 0 <= x -> x <= y -> (py_int x <= py_int y)%Z.
Proof.
  intros Hx Hxy.
  rewrite (py_int_nonneg x Hx), (py_int_nonneg y (Qle_trans _ _ _ Hx Hxy)).
  now apply Qfloor_resp_le.
Qed.

Lemma sell_ratio_bounds (s : Q) : 0 < sell_ratio s /\ sell_ratio s <= 1.
Proof.
  unfold sell_ratio.
  destruct (Qle_bool (8 # 10) s); [split; lra|].
  destruct (Qle_bool (5 # 10) s); split; lra.
Qed.

(** At strength 0.8 or more the whole position is sold. *)
Lemma sell_volume_of_full (k : Z) (s : Q) :
  8 # 10 <= s -> sell_volume_of (100 * k) s = (100 * k)%Z.
Proof.
  intro Hs. unfold sell_volume_of, sell_ratio.
  apply Qle_bool_iff in Hs. rewrite Hs.
  rewrite (py_int_comp _ (inject_Z k)).
  - rewrite py_int_inject_Z. lia.
  - rewrite inject_Z_mult. field.
Qed.

(** At strength in [0.5, 0.8) half of the lots, rounded down, are sold. *)
Lemma sell_volume_of_half (k : Z) (s : Q) :
  (0 <= k)%Z -> 5 # 10 <= s -> s < 8 # 10 ->
  sell_volume_of (100 * k) s = (100 * (k / 2))%Z.
Proof.
  intros Hk Hlo Hhi. unfold sell_volume_of, sell_ratio.
  apply Qle_bool_false_iff in Hhi. rewrite Hhi.
  apply Qle_bool_iff in Hlo. rewrite Hlo.
  rewrite (py_int_comp _ (k # 2)).
  - rewrite py_int_nonneg.
    + unfold Qfloor. cbn [Qnum Qden]. lia.
    + unfold Qle. cbn [Qnum Qden]. lia.
  - rewrite (Qmake_Qdiv k 2), inject_Z_mult.
    change (inject_Z 100) with 100. change (inject_Z (Z.pos 2)) with 2. field.
Qed.

(** Below strength 0.5 the sold volume is 33 percent of the lots, rounded down. *)
Lemma sell_volume_of_weak (k : Z) (s : Q) :
  (0 <= k)%Z -> s < 5 # 10 ->
  sell_volume_of (100 * k) s = (100 * (33 * k / 100))%Z.
Proof.
  intros Hk Hhi. unfold sell_volume_of, sell_ratio.
  assert (H8 : s < 8 # 10) by lra.
  apply Qle_bool_false_iff in H8. rewrite H8.
  apply Qle_bool_false_iff in Hhi. rewrite Hhi.
  rewrite (py_int_comp _ (33 * k # 100)).
  - rewrite py_int_nonneg.
    + unfold Qfloor. cbn [Qnum Qden]. lia.
    + unfold Qle. cbn [Qnum Qden]. lia.
  - rewrite (Qmake_Qdiv (33 * k) 100), !inject_Z_mult.
    change (inject_Z 100) with 100. change (inject_Z (Z.pos 100)) with 100.
    change (inject_Z 33) with 33. field.
Qed.

(** The sold volume never exceeds the position. *)
Lemma sell_volume_of_le (k : Z) (s : Q) :
  (0 <= k)%Z -> (0 <= sell_volume_of (100 * k) s <= 100 * k)%Z.
Proof.
  intro Hk. unfold sell_volume_of.
  destruct (sell_ratio_bounds s) as [Hr0 Hr1].
  assert (Hk' : 0 <= inject_Z k).
  { change 0 with (inject_Z 0). now rewrite <- Zle_Qle. }
  assert (Hq : inject_Z (100 * k) * sell_ratio s / 100 == inject_Z k * sell_ratio s).
  { rewrite inject_Z_mult. field. }
  rewrite (py_int_comp _ _ Hq).
  assert (H0 : 0 <= inject_Z k * sell_ratio s).
  { apply Qmult_le_0_compat; [exact Hk' | lra]. }
  assert (H1 : inject_Z k * sell_ratio s <= inject_Z k).
  { rewrite <- (Qmult_1_r (inject_Z k)) at 2.
    rewrite !(Qmult_comm (inject_Z k)).
    now apply Qmult_le_compat_r. }
  pose proof (py_int_ge_0 _ H0) as Hge.
  pose proof (py_int_mono_nonneg _ _ H0 H1) as Hle.
  rewrite py_int_inject_Z in Hle. lia.
Qed.

(** ** The sell ladder *)

(** C4, at the failing input: a weak sell signal (strength 0.3) on a position
    of three lots. One third of 300 shares is exactly one lot, so the rule
    asks for 100 shares sold; the ladder's constant is 0.33, 99 shares round
    down to no lot, and the order is dropped with the state untouched. *)
Theorem weak_sell_of_three_lots_sells_nothing :
  sell_ratio (3 # 10) = 33 # 100 /\
  (py_int (inject_Z 300 * (1 # 3) / 100) * 100)%Z = 100%Z /\
  sell_volume_of 300 (3 # 10) = 0%Z /\
  _execute_sell sample_config (holding 300 10 0) (Moment 20) 10 (3 # 10) "weak sell"
    = holding 300 10 0.
Proof. repeat split; vm_compute; reflexivity. Qed.

(** ** The fixed-amount sizer *)




(** ** Rejected orders *)

Lemma _execute_buy_unfold (cfg : Config) (st : Engine) (date : IndexEntry)
    (price signal_strength : Q) (reason : string) :
  _execute_buy cfg st date price signal_strength reason =
    if Qeq_bool price 0 then st
    else if (buy_volume cfg (current_capital st) price signal_strength <? 100)%Z then st
    else if Qlt_bool (current_capital st)
              (buy_total_cost cfg (current_capital st) price signal_strength) then st
    else
      let volume := buy_volume cfg (current_capital st) price signal_strength in
      {| current_capital :=
           current_capital st
           - buy_total_cost cfg (current_capital st) price signal_strength;
         current_position :=
           Some {| pos_volume := volume; avg_price := price;
                   market_value := inject_Z volume * price;
                   unrealized_pnl := 0; realized_pnl := 0 |};
         trades := trades st ++
           [ {| timestamp := trade_timestamp cfg st date; action := ActBuy; price := price;
                volume := volume; amount := inject_Z volume * price;
                commission := inject_Z volume * price * commission_rate cfg;
                reason := reason |} ];
         daily_equity := daily_equity st;
         daily_returns := daily_returns st |}.
Proof. reflexivity. Qed.

(** A buy below one lot, or dearer than the cash, is dropped. *)
Lemma _execute_buy_rejected (cfg : Config) (st : Engine) (date : IndexEntry)
    (price signal_strength : Q) (reason : string) :
  (buy_volume cfg (current_capital st) price signal_strength < 100)%Z \/
  current_capital st < buy_total_cost cfg (current_capital st) price signal_strength ->
  _execute_buy cfg st date price signal_strength reason = st.
Proof.
  intros H. rewrite _execute_buy_unfold.
  destruct (Qeq_bool price 0); [reflexivity|].
  destruct (buy_volume cfg (current_capital st) price signal_strength <? 100)%Z eqn:Ev;
    [reflexivity|].
  destruct (Qlt_bool (current_capital st)
              (buy_total_cost cfg (current_capital st) price signal_strength)) eqn:Ec;
    [reflexivity|].
  exfalso. apply Z.ltb_ge in Ev. apply Qlt_bool_false_iff in Ec.
  destruct H as [H | H]; [lia | exact (Qlt_not_le _ _ H Ec)].
Qed.

(** A sell below one lot is dropped. *)
Lemma _execute_sell_rejected (cfg : Config) (st : Engine) (date : IndexEntry)
    (price signal_strength : Q) (reason : string) (pos : Position) :
  current_position st = Some pos ->
  (sell_volume_of (pos_volume pos) signal_strength < 100)%Z ->
  _execute_sell cfg st date price signal_strength reason = st.
Proof.
  intros Hpos Hv. unfold _execute_sell. rewrite Hpos.
  apply Z.ltb_lt in Hv. now rewrite Hv.
Qed.

(** C10: a buy whose lot-rounded volume is below one lot or whose total cost
    exceeds the cash, and a sell whose lot-rounded volume is below one lot,
    return the engine they were given: cash, position and trade log (and the
    equity records) are exactly as before. *)
Theorem rejected_order_leaves_state_unchanged (cfg : Config) (st : Engine)
    (date : IndexEntry) (price signal_strength : Q) (reason : string) :
  ((buy_volume cfg (current_capital st) price signal_strength < 100)%Z \/
   current_capital st < buy_total_cost cfg (current_capital st) price signal_strength ->
   _execute_buy cfg st date price signal_strength reason = st) /\
  (forall pos, current_position st = Some pos ->
     (sell_volume_of (pos_volume pos) signal_strength < 100)%Z ->
     _execute_sell cfg st date price signal_strength reason = st).
Proof.
  split.
  - apply _execute_buy_rejected.
  - intros pos. apply _execute_sell_rejected.
Qed.

Lemma rejected_order_leaves_state_unchanged_witness :
  _execute_buy sample_config (flat 500) (Moment 20) 10 1 "buy" = flat 500 /\
  _execute_buy all_in_config (flat 1000) (Moment 20) 10 1 "buy" = flat 1000 /\
  _execute_sell sample_config (holding 100 10 0) (Moment 20) 10 (6 # 10) "sell" = holding 100 10 0.
Proof.
  split; [|split].
  - apply (proj1 (rejected_order_leaves_state_unchanged
                    sample_config (flat 500) (Moment 20) 10 1 "buy")).
    left. vm_compute. reflexivity.
  - apply (proj1 (rejected_order_leaves_state_unchanged
                    all_in_config (flat 1000) (Moment 20) 10 1 "buy")).
    right. vm_compute. reflexivity.
  - apply (proj2 (rejected_order_leaves_state_unchanged
                    sample_config (holding 100 10 0) (Moment 20) 10 (6 # 10) "sell")
             {| pos_volume := 100; avg_price := 10; market_value := inject_Z 100 * 10;
                unrealized_pnl := 0; realized_pnl := 0 |}).
    + reflexivity.
    + vm_compute. reflexivity.
Defined.

(** ** Invariants of the simulator *)

Section Invariants.

Variable cfg : Config.
Variable gen : list Bar -> option Signal.

(** No operation of the engine moves the cash below zero. *)
Lemma _execute_buy_cash_nonneg (st : Engine) (date : IndexEntry) (price s : Q) (reason : string) :
  0 <= current_capital st ->
  0 <= current_capital (_execute_buy cfg st date price s reason).
Proof.
  intro H. rewrite _execute_buy_unfold.
  destruct (Qeq_bool price 0); [exact H|].
  destruct (buy_volume cfg (current_capital st) price s <? 100)%Z; [exact H|].
  destruct (Qlt_bool (current_capital st)
              (buy_total_cost cfg (current_capital st) price s)) eqn:E; [exact H|].
  apply Qlt_bool_false_iff in E. cbn [current_capital]. lra.
Qed.

Lemma _execute_sell_cash_nonneg (st : Engine) (date : IndexEntry) (price s : Q) (reason : string) :
  0 <= price -> commission_rate cfg <= 1 ->
  0 <= current_capital st ->
  0 <= current_capital (_execute_sell cfg st date price s reason).
Proof.
  intros Hp Hr H. unfold _execute_sell.
  destruct (current_position st) as [pos|]; [|exact H].
  destruct (sell_volume_of (pos_volume pos) s <? 100)%Z eqn:Ev; [exact H|].
  apply Z.ltb_ge in Ev. cbn [current_capital].
  set (a := inject_Z (sell_volume_of (pos_volume pos) s) * price).
  assert (Ha : 0 <= a).
  { apply Qmult_le_0_compat; [|exact Hp].
    change 0 with (inject_Z 0). rewrite <- Zle_Qle. lia. }
  assert (Hn : 0 <= a * (1 - commission_rate cfg)).
  { apply Qmult_le_0_compat; [exact Ha | lra]. }
  lra.
Qed.

Lemma _execute_trade_cash_nonneg (st : Engine) (date : IndexEntry) (price : Q) (a : string) :
  0 <= price -> commission_rate cfg <= 1 ->
  0 <= current_capital st ->
  0 <= current_capital (_execute_trade cfg st date price a).
Proof.
  intros Hp Hr H. unfold _execute_trade.
  destruct (String.eqb a "stop_loss" || String.eqb a "take_profit")%bool; [|exact H].
  now apply _execute_sell_cash_nonneg.
Qed.

Lemma _execute_trading_logic_cash_nonneg (st : Engine) (date : IndexEntry) (price : Q) (sig : Signal) :
  0 <= price -> commission_rate cfg <= 1 ->
  0 <= current_capital st ->
  0 <= current_capital (_execute_trading_logic cfg st date price sig).
Proof.
  intros Hp Hr H. unfold _execute_trading_logic.
  destruct (signal_type sig), (current_position st) eqn:E; try exact H;
    try (now apply _execute_buy_cash_nonneg);
    now apply _execute_sell_cash_nonneg.
Qed.

(** What the equity update leaves, whether it returns or raises: cash and
    log untouched, the position marked to the price, one equity point
    more. *)
Lemma _update_daily_equity_state (st : Engine) (date : IndexEntry) (price : Q) :
  current_capital (state_of (_update_daily_equity st date price)) = current_capital st /\
  current_position (state_of (_update_daily_equity st date price))
    = mark_to_market (current_position st) price /\
  trades (state_of (_update_daily_equity st date price)) = trades st /\
  daily_equity (state_of (_update_daily_equity st date price))
    = daily_equity st ++
      [ {| eq_date := date;
           equity := current_capital st
                     + match current_position st with
                       | Some pos => inject_Z (pos_volume pos) * price
                       | None => 0
                       end;
           eq_cash := current_capital st;
           eq_position_value :=
             match current_position st with
             | Some pos => inject_Z (pos_volume pos) * price
             | None => 0
             end |} ].
Proof.
  unfold _update_daily_equity.
  destruct (iloc_last (daily_equity st)) as [prev|];
    [destruct (Qeq_bool (equity prev) 0 && python_floats st)|]; cbn; repeat split.
Qed.

Lemma _update_daily_equity_cash (st : Engine) (date : IndexEntry) (price : Q) :
  current_capital (state_of (_update_daily_equity st date price)) = current_capital st.
Proof. apply _update_daily_equity_state. Qed.

Lemma _update_daily_equity_trades (st : Engine) (date : IndexEntry) (price : Q) :
  trades (state_of (_update_daily_equity st date price)) = trades st.
Proof. apply _update_daily_equity_state. Qed.

Lemma _update_daily_equity_position (st : Engine) (date : IndexEntry) (price : Q) :
  current_position (state_of (_update_daily_equity st date price))
    = mark_to_market (current_position st) price.
Proof. apply _update_daily_equity_state. Qed.

Lemma process_bar_unfold (st : Engine) (current_data : list Bar) (bar : Bar) :
  process_bar cfg gen st current_data bar =
    if (length current_data <? 20)%nat
    then _update_daily_equity st (bar_date bar) (close_price bar)
    else _update_daily_equity (after_signal_check cfg gen st current_data bar)
           (bar_date bar) (close_price bar).
Proof. reflexivity. Qed.

Lemma after_stop_check_cash_nonneg (st : Engine) (bar : Bar) :
  0 <= close_price bar -> commission_rate cfg <= 1 ->
  0 <= current_capital st ->
  0 <= current_capital (after_stop_check cfg st bar).
Proof.
  intros Hp Hr H. unfold after_stop_check.
  destruct (current_position st); [|exact H].
  destruct (_check_stop_conditions cfg st (close_price bar)); [|exact H].
  now apply _execute_trade_cash_nonneg.
Qed.

Lemma after_signal_check_cash_nonneg (st : Engine) (data : list Bar) (bar : Bar) :
  0 <= close_price bar -> commission_rate cfg <= 1 ->
  0 <= current_capital st ->
  0 <= current_capital (after_signal_check cfg gen st data bar).
Proof.
  intros Hp Hr H. unfold after_signal_check.
  pose proof (after_stop_check_cash_nonneg st bar Hp Hr H) as H1.
  destruct (gen data); [|exact H1].
  now apply _execute_trading_logic_cash_nonneg.
Qed.

Lemma process_bar_cash_nonneg (st : Engine) (data : list Bar) (bar : Bar) :
  0 <= close_price bar -> commission_rate cfg <= 1 ->
  0 <= current_capital st ->
  0 <= current_capital (state_of (process_bar cfg gen st data bar)).
Proof.
  intros Hp Hr H. rewrite process_bar_unfold.
  destruct (length data <? 20)%nat; rewrite _update_daily_equity_cash.
  - exact H.
  - now apply after_signal_check_cash_nonneg.
Qed.

Lemma backtest_loop_cash_nonneg (df rest : list Bar) :
  commission_rate cfg <= 1 ->
  Forall (fun b => 0 <= close_price b) rest ->
  forall (i : nat) (st : Engine),
    0 <= current_capital st ->
    0 <= current_capital (state_of (backtest_loop cfg gen df rest i st)).
Proof.
  intros Hr Hall. induction Hall as [|bar rest Hbar Hrest IH]; intros i st H.
  - exact H.
  - cbn [backtest_loop].
    pose proof (process_bar_cash_nonneg st (firstn (S i) df) bar Hbar Hr H) as Hstep.
    destruct (process_bar cfg gen st (firstn (S i) df) bar) as [st' | st'].
    + apply IH. exact Hstep.
    + exact Hstep.
Qed.

Lemma Forall_firstn_prices (n : nat) (df : list Bar) :
  Forall (fun b => 0 <= close_price b) df ->
  Forall (fun b => 0 <= close_price b) (firstn n df).
Proof.
  intro H. revert n. induction H as [|b df Hb Hdf IH]; intros [|n]; cbn [firstn].
  - constructor.
  - constructor.
  - constructor.
  - constructor; [exact Hb | apply IH].
Qed.

End Invariants.

(** C2: with a non-negative initial capital, non-negative closing prices and
    a commission rate of at most 1, the cash is non-negative after every bar
    of every run, and also between the stop check, the signal check and the
    equity update of each bar; and a buy whose total cost exceeds the cash
    returns the engine unchanged instead of buying a smaller volume. *)
Theorem cash_never_negative (cfg : Config) (gen : list Bar -> option Signal)
    (df : list Bar) (n : nat) :
  0 <= initial_capital cfg ->
  commission_rate cfg <= 1 ->
  Forall (fun b => 0 <= close_price b) df ->
  0 <= current_capital (state_after cfg gen df n) /\
  (forall data bar, 0 <= close_price bar ->
     0 <= current_capital (after_stop_check cfg (state_after cfg gen df n) bar) /\
     0 <= current_capital (after_signal_check cfg gen (state_after cfg gen df n) data bar)) /\
  (forall st date price s reason,
     current_capital st < buy_total_cost cfg (current_capital st) price s ->
     _execute_buy cfg st date price s reason = st).
Proof.
  intros Hcap Hrate Hprices.
  assert (Hn : 0 <= current_capital (state_after cfg gen df n)).
  { unfold state_after, outcome_after. apply backtest_loop_cash_nonneg.
    - exact Hrate.
    - now apply Forall_firstn_prices.
    - exact Hcap. }
  split; [exact Hn|]. split.
  - intros data bar Hbar. split.
    + now apply after_stop_check_cash_nonneg.
    + now apply after_signal_check_cash_nonneg.
  - intros st date price s reason Hcost.
    apply _execute_buy_rejected. now right.
Qed.

Lemma nonneg_prices_Forall (df : list Bar) :
  nonneg_prices df = true -> Forall (fun b => 0 <= close_price b) df.
Proof.
  unfold nonneg_prices. intro H. apply Forall_forall. intros b Hb.
  rewrite forallb_forall in H. apply Qle_bool_iff. now apply H.
Qed.

Lemma cash_never_negative_witness :
  0 <= current_capital (state_after sample_config always_buy take_profit_frame 21).
Proof.
  refine (proj1 (cash_never_negative sample_config always_buy take_profit_frame 21 _ _ _)).
  - vm_compute. discriminate.
  - vm_compute. discriminate.
  - apply nonneg_prices_Forall. vm_compute. reflexivity.
Defined.

(** ** The stop check of a bar *)

Lemma _check_stop_conditions_reason (cfg : Config) (st : Engine) (p : Q) (a : string) :
  _check_stop_conditions cfg st p = Some a ->
  a = "stop_loss"%string \/ a = "take_profit"%string.
Proof.
  unfold _check_stop_conditions.
  destruct (current_position st) as [pos|]; [|discriminate].
  destruct (Qle_bool p _); [intro H; injection H as <-; now left|].
  destruct (Qle_bool _ p); [intro H; injection H as <-; now right|discriminate].
Qed.

(** A triggered stop closes the whole position at the bar's close. *)
Lemma after_stop_check_exit (cfg : Config) (st : Engine) (bar : Bar)
    (pos : Position) (a : string) :
  current_position st = Some pos ->
  whole_lots (pos_volume pos) ->
  _check_stop_conditions cfg st (close_price bar) = Some a ->
  after_stop_check cfg st bar =
    {| current_capital :=
         current_capital st
         + (amount (exit_trade cfg st pos bar a) - commission (exit_trade cfg st pos bar a));
       current_position := None;
       trades := trades st ++ [exit_trade cfg st pos bar a];
       daily_equity := daily_equity st;
       daily_returns := daily_returns st |}.
Proof.
  intros Hpos [k [Hk Hv]] Hstop.
  pose proof (_check_stop_conditions_reason _ _ _ _ Hstop) as Ha.
  unfold after_stop_check, exit_trade. rewrite Hpos, Hstop.
  cbn [amount commission].
  assert (Hfull : sell_volume_of (pos_volume pos) 1 = pos_volume pos).
  { rewrite Hv. apply sell_volume_of_full. lra. }
  assert (Hexec : forall r, _execute_sell cfg st (bar_date bar) (close_price bar) 1 r =
    {| current_capital :=
         current_capital st
         + (inject_Z (pos_volume pos) * close_price bar
            - inject_Z (pos_volume pos) * close_price bar * commission_rate cfg);
       current_position := None;
       trades := trades st ++
         [ {| timestamp := trade_timestamp cfg st (bar_date bar); action := ActSell;
              price := close_price bar;
              volume := pos_volume pos;
              amount := inject_Z (pos_volume pos) * close_price bar;
              commission := inject_Z (pos_volume pos) * close_price bar * commission_rate cfg;
              reason := r |} ];
       daily_equity := daily_equity st;
       daily_returns := daily_returns st |}).
  { intro r. unfold _execute_sell. rewrite Hpos, Hfull.
    replace (pos_volume pos <? 100)%Z with false by (symmetry; apply Z.ltb_ge; lia).
    now rewrite Z.eqb_refl. }
  destruct Ha as [-> | ->]; unfold _execute_trade; cbn [String.eqb Ascii.eqb Bool.eqb orb];
    apply Hexec.
Qed.

(** With no position open, the signal check appends at most one trade, a buy
    dated at the bar. *)
Lemma _execute_trading_logic_flat (cfg : Config) (st : Engine) (date : IndexEntry)
    (p : Q) (sig : Signal) :
  current_position st = None ->
  exists rest,
    trades (_execute_trading_logic cfg st date p sig) = trades st ++ rest /\
    (rest = [] \/ exists b, rest = [b] /\ action b = ActBuy /\
                           timestamp b = trade_timestamp cfg st date).
Proof.
  intro Hflat. unfold _execute_trading_logic. rewrite Hflat.
  assert (Hbuy : forall s r, exists rest,
    trades (_execute_buy cfg st date p s r) = trades st ++ rest /\
    (rest = [] \/ exists b, rest = [b] /\ action b = ActBuy /\
                           timestamp b = trade_timestamp cfg st date)).
  { intros s r. rewrite _execute_buy_unfold.
    destruct (Qeq_bool p 0);
      [exists []; split; [now rewrite app_nil_r | now left]|].
    destruct (buy_volume cfg (current_capital st) p s <? 100)%Z;
      [exists []; split; [now rewrite app_nil_r | now left]|].
    destruct (Qlt_bool _ _);
      [exists []; split; [now rewrite app_nil_r | now left]|].
    eexists. split; [reflexivity|]. right. eexists. split; [reflexivity|].
    split; reflexivity. }
  destruct (signal_type sig); try apply Hbuy;
    exists []; (split; [now rewrite app_nil_r | now left]).
Qed.

(** C1, counterexample: on a run where every frame draws a BUY signal, the
    position bought at bar 19 hits its take-profit at bar 20; it is closed
    there, and the signal check of the same bar buys again. So it is on the
    frame indexed by timestamps and on the frame under the vendor's keys,
    where the three trades carry successive readings of the wall clock. *)
Lemma take_profit_exit_followed_by_signal_buy :
  map (fun t => (timestamp t, action t, volume t, reason t))
      (trades (state_after sample_config always_buy take_profit_frame 21))
  = [ (19%Z, ActBuy, 2400%Z, "trend"%string);
      (20%Z, ActSell, 2400%Z, "take_profit"%string);
      (20%Z, ActBuy, 2200%Z, "trend"%string) ] /\
  map (fun t => (action t, volume t, reason t))
      (trades (state_after sample_config always_buy keyed_take_profit_frame 20))
  = [ (ActBuy, 2400%Z, "trend"%string) ] /\
  map (fun t => (timestamp t, action t, volume t, reason t))
      (trades (state_after sample_config always_buy keyed_take_profit_frame 21))
  = [ (1000%Z, ActBuy, 2400%Z, "trend"%string);
      (1001%Z, ActSell, 2400%Z, "take_profit"%string);
      (1002%Z, ActBuy, 2200%Z, "trend"%string) ].
Proof. repeat split; vm_compute; reflexivity. Qed.

(** One bar with enough history, a position open and the stop policy
    triggered: the exit comes first, and the signal check follows it. *)
Lemma process_bar_stop_exit (cfg : Config)
    (gen : list Bar -> option Signal) (st : Engine) (data : list Bar) (bar : Bar)
    (pos : Position) (a : string) :
  (20 <= length data)%nat ->
  current_position st = Some pos ->
  whole_lots (pos_volume pos) ->
  _check_stop_conditions cfg st (close_price bar) = Some a ->
  current_position (after_stop_check cfg st bar) = None /\
  trades (after_stop_check cfg st bar) = trades st ++ [exit_trade cfg st pos bar a] /\
  process_bar cfg gen st data bar =
    _update_daily_equity (after_signal_check cfg gen st data bar)
      (bar_date bar) (close_price bar) /\
  exists rest,
    trades (state_of (process_bar cfg gen st data bar))
      = trades st ++ exit_trade cfg st pos bar a :: rest /\
    (rest = [] \/
     exists b, rest = [b] /\ action b = ActBuy /\
               timestamp b = trade_timestamp cfg (after_stop_check cfg st bar) (bar_date bar)).
Proof.
  intros Hlen Hpos Hlots Hstop.
  pose proof (after_stop_check_exit cfg st bar pos a Hpos Hlots Hstop) as Hexit.
  assert (Hflat : current_position (after_stop_check cfg st bar) = None)
    by now rewrite Hexit.
  assert (Htr : trades (after_stop_check cfg st bar) = trades st ++ [exit_trade cfg st pos bar a])
    by now rewrite Hexit.
  assert (Hbar : process_bar cfg gen st data bar =
    _update_daily_equity (after_signal_check cfg gen st data bar)
      (bar_date bar) (close_price bar)).
  { rewrite process_bar_unfold.
    replace (length data <? 20)%nat with false; [reflexivity|].
    symmetry. apply Nat.ltb_ge. exact Hlen. }
  split; [exact Hflat|]. split; [exact Htr|]. split; [exact Hbar|].
  rewrite Hbar, _update_daily_equity_trades. unfold after_signal_check.
  destruct (gen data) as [sig|].
  - destruct (_execute_trading_logic_flat cfg _ (bar_date bar) (close_price bar) sig Hflat)
      as [rest [Hrest Hshape]].
    exists rest. split; [|exact Hshape].
    rewrite Hrest, Htr, <- app_assoc. reflexivity.
  - exists []. split; [exact Htr | now left].
Qed.

(** ** Max drawdown *)

Lemma fdiv_unit_drop (e p : Q) : 0 < p -> 0 <= e -> e <= p -> unit_drop (fdiv (e - p) p).
Proof.
  intros Hp He Hep. unfold fdiv.
  destruct (Qeq_bool p 0) eqn:E.
  - apply Qeq_bool_iff in E. lra.
  - exists ((e - p) / p). split; [reflexivity|]. split.
    + apply Qle_shift_div_l; [exact Hp | lra].
    + apply Qle_shift_div_r; [exact Hp | lra].
Qed.

Lemma py_max_bounds (m x : Q) : m <= py_max m x /\ x <= py_max m x.
Proof.
  unfold py_max. destruct (Qlt_bool m x) eqn:E.
  - apply Qlt_bool_iff in E. split; lra.
  - apply Qlt_bool_false_iff in E. split; lra.
Qed.

Lemma drawdown_from_unit (rest : list Q) :
  Forall (fun e => 0 <= e) rest ->
  forall m, 0 < m ->
    Forall unit_drop
      (zip_with (fun e p => fdiv (e - p) p) rest (expanding_max_from m rest)).
Proof.
  intro Hall. induction Hall as [|x rest Hx Hrest IH]; intros m Hm.
  - constructor.
  - cbn [expanding_max_from zip_with].
    destruct (py_max_bounds m x) as [H1 H2].
    constructor.
    + apply fdiv_unit_drop; [lra | exact Hx | exact H2].
    + apply IH. lra.
Qed.

Lemma fmin2_unit_drop (x y : pyfloat) : unit_drop x -> unit_drop y -> unit_drop (fmin2 x y).
Proof.
  intros [a [-> Ha]] [b [-> Hb]]. cbn [fmin2].
  destruct (Qle_bool a b); [exists a | exists b]; auto.
Qed.

Lemma series_min_unit_drop (x : pyfloat) (l : list pyfloat) :
  unit_drop x -> Forall unit_drop l -> unit_drop (series_min (x :: l)).
Proof.
  intros Hx Hl. revert x Hx. induction Hl as [|y l Hy Hl IH]; intros x Hx.
  - destruct Hx as [a [-> Ha]]. exists a. split; [reflexivity | exact Ha].
  - change (series_min (x :: y :: l)) with (fmin2 x (series_min (y :: l))).
    apply fmin2_unit_drop; [exact Hx | now apply IH].
Qed.

(** C8, counterexample: an equity series that falls from 100 to -50 has a
    drawdown of 1.5. *)
Lemma max_drawdown_above_one :
  exists d, _calculate_max_drawdown [100; - (50)] = Fin d /\ 1 < d.
Proof.
  eexists. split; [vm_compute; reflexivity|]. reflexivity.
Qed.

(** The deepest relative drop of a series that starts positive and stays
    non-negative lies between -1 and 0. *)
Lemma deepest_drop_unit (e0 : Q) (rest : list Q) :
  0 < e0 ->
  Forall (fun e => 0 <= e) rest ->
  unit_drop
    (series_min
       (zip_with (fun e p => fdiv (e - p) p) (e0 :: rest) (expanding_max (e0 :: rest)))).
Proof.
  intros H0 Hrest. cbn [expanding_max zip_with].
  apply series_min_unit_drop.
  - apply fdiv_unit_drop; lra.
  - now apply drawdown_from_unit.
Qed.

Lemma fabs_unit_drop (x : pyfloat) :
  unit_drop x -> exists d, fabs x = Fin d /\ 0 <= d /\ d <= 1.
Proof.
  intros [q [-> [Hlo Hhi]]]. cbn [fabs].
  exists (Qabs q). split; [reflexivity|]. split.
  - apply Qabs_nonneg.
  - apply Qabs_Qle_condition. split; lra.
Qed.

(** C8, amended: for every non-empty equity series that starts positive and
    never goes negative, the max drawdown is a number between 0 and 1. *)
Theorem max_drawdown_between_0_and_1 (e0 : Q) (rest : list Q) :
  0 < e0 ->
  Forall (fun e => 0 <= e) rest ->
  exists d, _calculate_max_drawdown (e0 :: rest) = Fin d /\ 0 <= d /\ d <= 1.
Proof.
  intros H0 Hrest. unfold _calculate_max_drawdown.
  pose proof (deepest_drop_unit e0 rest H0 Hrest) as Hmin.
  destruct (fabs_unit_drop _ Hmin) as [d [Hd Hbounds]].
  exists d. split; [exact Hd | exact Hbounds].
Qed.

(** The equity curve 100000, 110000, 90000, 95000 has drawdown 2/11. *)
Lemma max_drawdown_witness :
  exists d, _calculate_max_drawdown [100000; 110000; 90000; 95000] = Fin d /\
            0 <= d /\ d <= 1.
Proof.
  apply (max_drawdown_between_0_and_1 100000 [110000; 90000; 95000]).
  - reflexivity.
  - repeat constructor; discriminate.
Defined.

Lemma max_drawdown_scenario :
  exists d, _calculate_max_drawdown [100000; 110000; 90000; 95000] = Fin d /\
            d == 2 # 11.
Proof.
  eexists. split; [vm_compute; reflexivity|]. reflexivity.
Qed.

(** ** Trade statistics *)

Lemma chronological_filter (f : Trade -> bool) (log : list Trade) :
  chronological log -> chronological (filter f log).
Proof.
  induction log as [|t log IH]; intro H; [exact I|].
  destruct H as [Hhd Htl]. cbn [filter].
  destruct (f t).
  - split; [|now apply IH].
    intros u Hu. apply Hhd. apply filter_In in Hu. tauto.
  - now apply IH.
Qed.

Lemma is_sell_action (t : Trade) : is_sell t = true <-> action t = ActSell.
Proof. unfold is_sell. destruct (action t); split; congruence. Qed.

(** In a log kept in bar order the paired sell is the earliest later sell. *)
Lemma paired_sell_chronologically_first (log : list Trade) (b s : Trade) :
  chronological log ->
  paired_sell (filter is_sell log) b = Some s ->
  chronologically_first_later_sell log b s.
Proof.
  intros Hchr Hpair. unfold paired_sell in Hpair.
  destruct (matching_sells (filter is_sell log) b) as [|s0 later] eqn:E; [discriminate|].
  injection Hpair as ->.
  assert (Hin : In s (matching_sells (filter is_sell log) b)) by (rewrite E; now left).
  unfold matching_sells in Hin. apply filter_In in Hin. destruct Hin as [Hin Hts].
  apply filter_In in Hin. destruct Hin as [Hin Hsell].
  apply Z.ltb_lt in Hts. apply is_sell_action in Hsell.
  repeat split; try assumption.
  intros s' Hin' Hsell' Hts'.
  assert (Hin2 : In s' (matching_sells (filter is_sell log) b)).
  { unfold matching_sells. apply filter_In. split.
    - apply filter_In. split; [exact Hin' | now apply is_sell_action].
    - now apply Z.ltb_lt. }
  pose proof (chronological_filter (fun s1 => (timestamp b <? timestamp s1)%Z) _
                (chronological_filter is_sell _ Hchr)) as Hc.
  fold (matching_sells (filter is_sell log) b) in Hc.
  rewrite E in Hc, Hin2. destruct Hc as [Hhd _].
  destruct Hin2 as [<- | Hlater]; [lia | now apply Hhd].
Qed.

(** A buy is left unpaired only when no sell is later than it. *)
Lemma paired_sell_none (log : list Trade) (b : Trade) :
  paired_sell (filter is_sell log) b = None ->
  forall s, In s log -> action s = ActSell -> (timestamp s <= timestamp b)%Z.
Proof.
  intros Hpair s Hin Hsell. unfold paired_sell in Hpair.
  destruct (matching_sells (filter is_sell log) b) as [|s0 later] eqn:E; [|discriminate].
  destruct (Z.ltb_spec (timestamp b) (timestamp s)) as [Hlt | Hge]; [|exact Hge].
  assert (Hin2 : In s (matching_sells (filter is_sell log) b)).
  { unfold matching_sells. apply filter_In. split.
    - apply filter_In. split; [exact Hin | now apply is_sell_action].
    - now apply Z.ltb_lt. }
  rewrite E in Hin2. contradiction.
Qed.

Lemma fold_left_Qplus_neg (l : list Q) (acc : Q) :
  Forall (fun p => p < 0) l -> fold_left Qplus l acc <= acc.
Proof.
  intro H. revert acc. induction H as [|p l Hp Hl IH]; intro acc; cbn [fold_left].
  - lra.
  - specialize (IH (acc + p)). lra.
Qed.

(** The sum of a non-empty list of losses is negative. *)
Lemma py_sum_losses_neg (l : list Q) :
  l <> [] -> Forall (fun p => p < 0) l -> py_sum l < 0.
Proof.
  intros Hne H. destruct H as [|p l Hp Hl]; [contradiction|].
  unfold py_sum. cbn [fold_left].
  pose proof (fold_left_Qplus_neg l (0 + p) Hl). lra.
Qed.

Lemma filter_is_loss_neg (pairs : list Q) : Forall (fun p => p < 0) (filter is_loss pairs).
Proof.
  apply Forall_forall. intros p Hp. apply filter_In in Hp.
  destruct Hp as [_ Hp]. now apply Qlt_bool_iff in Hp.
Qed.

Lemma nonempty_true {A : Type} (l : list A) : l <> [] -> nonempty l = true.
Proof. destruct l; [contradiction | reflexivity]. Qed.

(** The statistics computed on a log with at least one pair. *)
Lemma _calculate_trade_statistics_pairs (log : list Trade) :
  trade_pairs log <> [] ->
  let pairs := trade_pairs log in
  let stats := _calculate_trade_statistics log in
  total_trades stats = length pairs /\
  winning_trades stats = length (filter is_win pairs) /\
  losing_trades stats = length (filter is_loss pairs) /\
  win_rate stats =
    inject_Z (Z.of_nat (length (filter is_win pairs)))
    / inject_Z (Z.of_nat (length pairs)) /\
  (filter is_loss pairs = [] -> profit_factor stats = PInf) /\
  (filter is_loss pairs <> [] ->
   profit_factor stats =
     Fin (py_sum (filter is_win pairs) / Qabs (py_sum (filter is_loss pairs)))).
Proof.
  intros Hne. cbv zeta. unfold _calculate_trade_statistics.
  assert (Hlog : nonempty log = true).
  { destruct log; [|reflexivity]. exfalso. now apply Hne. }
  rewrite Hlog. generalize dependent (trade_pairs log). intros pairs Hne.
  rewrite (nonempty_true pairs Hne). cbn [negb].
  cbn [total_trades winning_trades losing_trades win_rate profit_factor].
  assert (Hlen : (0 <? length pairs)%nat = true).
  { apply Nat.ltb_lt. destruct pairs; [now contradiction Hne | cbn; lia]. }
  rewrite Hlen.
  repeat split.
  - intro Hnl. rewrite Hnl. reflexivity.
  - intro Hl. rewrite (nonempty_true _ Hl).
    pose proof (py_sum_losses_neg _ Hl (filter_is_loss_neg pairs)) as Hneg.
    assert (Hpos : Qlt_bool 0 (Qabs (py_sum (filter is_loss pairs))) = true).
    { apply Qlt_bool_iff. rewrite Qabs_neg by lra. lra. }
    rewrite Hpos.
    destruct (filter is_win pairs); reflexivity.
Qed.

(** The statistics computed on a log with no pair. *)
Lemma _calculate_trade_statistics_no_pairs (log : list Trade) :
  trade_pairs log = [] ->
  win_rate (_calculate_trade_statistics log) = 0 /\
  profit_factor (_calculate_trade_statistics log) = Fin 0 /\
  winning_trades (_calculate_trade_statistics log) = 0%nat /\
  losing_trades (_calculate_trade_statistics log) = 0%nat.
Proof.
  intro H. unfold _calculate_trade_statistics.
  destruct (nonempty log); cbn [negb].
  - rewrite H. cbn. repeat split.
  - cbn. repeat split.
Qed.

(** C5, counterexample: a log with no trade, and a log with one buy and no
    sell, have no losing pair, yet the profit factor returned is 0.0. *)
Lemma profit_factor_zero_without_pairs :
  (filter is_loss (trade_pairs []) = [] /\
   profit_factor (_calculate_trade_statistics []) = Fin 0) /\
  (filter is_loss (trade_pairs open_buy_log) = [] /\
   profit_factor (_calculate_trade_statistics open_buy_log) = Fin 0).
Proof. repeat split. Qed.

(** No pair loses exactly when every pair profit is non-negative. *)
Lemma no_loss_iff (pairs : list Q) :
  filter is_loss pairs = [] <-> Forall (fun p => 0 <= p) pairs.
Proof.
  induction pairs as [|p pairs IH]; [split; [constructor | reflexivity]|].
  cbn [filter]. unfold is_loss at 1. destruct (Qlt_bool p 0) eqn:E.
  - apply Qlt_bool_iff in E. split; [discriminate|].
    intro H. inversion H; subst. lra.
  - apply Qlt_bool_false_iff in E. rewrite IH. split.
    + intro H. constructor; assumption.
    + intro H. now inversion H.
Qed.

(** In a log kept in bar order the list of pair profits the code builds is
    the one the spec describes: the buys in log order, each with the
    chronologically first sell strictly later than it, each pair worth the
    price difference on the smaller volume less both commissions. *)
Lemma trade_pairs_follow_spec (log : list Trade) :
  chronological log ->
  exists pairing : list (Trade * option Trade),
    map fst pairing = filter is_buy log /\
    Forall (fun bo => spec_pairing log (fst bo) (snd bo)) pairing /\
    trade_pairs log = pair_profits pairing.
Proof.
  intro Hchr.
  exists (map (fun b => (b, paired_sell (filter is_sell log) b)) (filter is_buy log)).
  split; [|split].
  - rewrite map_map. cbn [fst]. apply map_id.
  - apply Forall_forall. intros bo Hbo. apply in_map_iff in Hbo.
    destruct Hbo as [b [<- _]]. cbn [fst snd]. unfold spec_pairing.
    destruct (paired_sell (filter is_sell log) b) as [s|] eqn:E.
    + now apply paired_sell_chronologically_first.
    + now apply paired_sell_none.
  - unfold trade_pairs, pair_profits. cbv zeta.
    induction (filter is_buy log) as [|b buys IH]; [reflexivity|].
    cbn [map flat_map fst snd]. rewrite IH.
    destruct (paired_sell (filter is_sell log) b); reflexivity.
Qed.

(** C5, amended: in a trade log kept in bar order every buy with a later
    sell is paired with the chronologically first sell of strictly later
    timestamp, whatever the volumes, and a buy with no later sell is left out;
    the pair profits the statistics are computed from are those of exactly
    these pairs, in the order of the buys. When at least one pair exists, the
    win rate is the fraction of pairs with positive profit and the profit
    factor is the sum of the winning profits over the absolute sum of the
    losing ones, infinite when no pair loses. When no pair exists, win rate
    and profit factor are both 0.0. *)
Theorem trade_statistics_pairing (log : list Trade) :
  chronological log ->
  (forall b, In b log -> action b = ActBuy ->
     match paired_sell (filter is_sell log) b with
     | Some s => chronologically_first_later_sell log b s
     | None => forall s, In s log -> action s = ActSell ->
                         (timestamp s <= timestamp b)%Z
     end) /\
  (exists pairing : list (Trade * option Trade),
     map fst pairing = filter (fun t => match action t with
                                        | ActBuy => true
                                        | ActSell => false
                                        end) log /\
     Forall (fun bo => spec_pairing log (fst bo) (snd bo)) pairing /\
     trade_pairs log = pair_profits pairing /\
     (pair_profits pairing <> [] ->
        win_rate (_calculate_trade_statistics log) =
          inject_Z (Z.of_nat (length (filter (fun p => Qlt_bool 0 p) (pair_profits pairing))))
          / inject_Z (Z.of_nat (length (pair_profits pairing))) /\
        (Forall (fun p => 0 <= p) (pair_profits pairing) ->
           profit_factor (_calculate_trade_statistics log) = PInf) /\
        (~ Forall (fun p => 0 <= p) (pair_profits pairing) ->
           profit_factor (_calculate_trade_statistics log) =
             Fin (py_sum (filter (fun p => Qlt_bool 0 p) (pair_profits pairing))
                  / Qabs (py_sum (filter (fun p => Qlt_bool p 0) (pair_profits pairing)))))) /\
     (pair_profits pairing = [] ->
        win_rate (_calculate_trade_statistics log) = 0 /\
        profit_factor (_calculate_trade_statistics log) = Fin 0)) /\
  (trade_pairs log <> [] ->
     win_rate (_calculate_trade_statistics log) =
       inject_Z (Z.of_nat (length (filter is_win (trade_pairs log))))
       / inject_Z (Z.of_nat (length (trade_pairs log))) /\
     (filter is_loss (trade_pairs log) = [] ->
        profit_factor (_calculate_trade_statistics log) = PInf) /\
     (filter is_loss (trade_pairs log) <> [] ->
        profit_factor (_calculate_trade_statistics log) =
          Fin (py_sum (filter is_win (trade_pairs log))
               / Qabs (py_sum (filter is_loss (trade_pairs log)))))) /\
  (trade_pairs log = [] ->
     win_rate (_calculate_trade_statistics log) = 0 /\
     profit_factor (_calculate_trade_statistics log) = Fin 0).
Proof.
  intro Hchr. split; [|split; [|split]].
  - intros b _ _.
    destruct (paired_sell (filter is_sell log) b) as [s|] eqn:E.
    + now apply paired_sell_chronologically_first.
    + now apply paired_sell_none.
  - destruct (trade_pairs_follow_spec log Hchr) as [pairing [Hbuys [Hspec Hpairs]]].
    exists pairing. split; [exact Hbuys|]. split; [exact Hspec|].
    split; [exact Hpairs|]. rewrite <- Hpairs. split.
    + intro Hne.
      destruct (_calculate_trade_statistics_pairs log Hne) as [_ [_ [_ [Hw [Hinf Hpf]]]]].
      split; [exact Hw|]. split.
      * intro Hall. apply Hinf. apply no_loss_iff. exact Hall.
      * intro Hsome. apply Hpf. intro Hnil. apply Hsome. now apply no_loss_iff.
    + intro Hnone.
      destruct (_calculate_trade_statistics_no_pairs log Hnone) as [Hw [Hpf _]].
      split; assumption.
  - intro Hne.
    destruct (_calculate_trade_statistics_pairs log Hne) as [_ [_ [_ [Hw [Hinf Hpf]]]]].
    repeat split; assumption.
  - intro Hnone.
    destruct (_calculate_trade_statistics_no_pairs log Hnone) as [Hw [Hpf _]].
    split; assumption.
Qed.

Lemma chronologicalb_sound (log : list Trade) :
  chronologicalb log = true -> chronological log.
Proof.
  induction log as [|t rest IH]; intro H; [exact I|].
  cbn [chronologicalb] in H. apply andb_true_iff in H. destruct H as [Hhd Htl].
  split; [|now apply IH].
  intros u Hu. rewrite forallb_forall in Hhd. apply Z.leb_le. now apply Hhd.
Qed.

Lemma trade_statistics_pairing_witness :
  (exists pairing : list (Trade * option Trade),
     Forall (fun bo => spec_pairing sample_log (fst bo) (snd bo)) pairing /\
     trade_pairs sample_log = pair_profits pairing) /\
  win_rate (_calculate_trade_statistics sample_log) =
    inject_Z (Z.of_nat (length (filter is_win (trade_pairs sample_log))))
    / inject_Z (Z.of_nat (length (trade_pairs sample_log))).
Proof.
  assert (Hchr : chronological sample_log) by (apply chronologicalb_sound; reflexivity).
  assert (Hne : trade_pairs sample_log <> []) by (vm_compute; discriminate).
  destruct (trade_statistics_pairing sample_log Hchr)
    as [_ [[pairing [_ [Hspec [Hpairs _]]]] [Hstats _]]].
  split.
  - exists pairing. split; [exact Hspec | exact Hpairs].
  - exact (proj1 (Hstats Hne)).
Defined.

(** On the sample log the first buy is paired with the take-profit exit and
    the re-entry with the partial sell: one winning and one losing pair. *)
Lemma sample_log_statistics :
  map Qred (trade_pairs sample_log) = [59622 # 25; (-27764) # 25] /\
  win_rate (_calculate_trade_statistics sample_log) == 1 # 2.
Proof. split; vm_compute; reflexivity. Qed.

(** ** Lots and equity along a run *)

Section RunInvariants.

Variable cfg : Config.
Variable gen : list Bar -> option Signal.

Lemma _execute_buy_lots_ok (st : Engine) (date : IndexEntry) (p s : Q) (r : string) :
  lots_ok st -> lots_ok (_execute_buy cfg st date p s r).
Proof.
  intro H. rewrite _execute_buy_unfold.
  destruct (Qeq_bool p 0); [exact H|].
  destruct (buy_volume cfg (current_capital st) p s <? 100)%Z eqn:Ev; [exact H|].
  destruct (Qlt_bool _ _); [exact H|].
  apply Z.ltb_ge in Ev. unfold lots_ok. cbn [current_position pos_volume].
  unfold buy_volume in *.
  eexists. split; [|apply Z.mul_comm]. lia.
Qed.

Lemma _execute_sell_lots_ok (st : Engine) (date : IndexEntry) (p s : Q) (r : string) :
  lots_ok st -> lots_ok (_execute_sell cfg st date p s r).
Proof.
  intro H. unfold _execute_sell.
  destruct (current_position st) as [pos|] eqn:Epos; [|exact H].
  destruct (sell_volume_of (pos_volume pos) s <? 100)%Z eqn:Ev; [exact H|].
  apply Z.ltb_ge in Ev. unfold lots_ok in *. cbn [current_position].
  rewrite Epos in H. destruct H as [k [Hk Hv]].
  destruct (sell_volume_of (pos_volume pos) s =? pos_volume pos)%Z eqn:Eq; [exact I|].
  apply Z.eqb_neq in Eq. cbn [pos_volume].
  rewrite Hv in *.
  pose proof (sell_volume_of_le k s ltac:(lia)) as Hle.
  unfold sell_volume_of in *.
  set (j := py_int (inject_Z (100 * k) * sell_ratio s / 100)) in *.
  exists (k - j)%Z. split; lia.
Qed.

Lemma _update_daily_equity_lots_ok (st : Engine) (date : IndexEntry) (p : Q) :
  lots_ok st -> lots_ok (state_of (_update_daily_equity st date p)).
Proof.
  unfold lots_ok. rewrite _update_daily_equity_position.
  destruct (current_position st); auto.
Qed.

Lemma after_signal_check_lots_ok (st : Engine) (data : list Bar) (bar : Bar) :
  lots_ok st -> lots_ok (after_signal_check cfg gen st data bar).
Proof.
  intro H.
  assert (H1 : lots_ok (after_stop_check cfg st bar)).
  { unfold after_stop_check.
    destruct (current_position st); [|exact H].
    destruct (_check_stop_conditions cfg st (close_price bar)); [|exact H].
    unfold _execute_trade. destruct (_ || _)%bool; [|exact H].
    now apply _execute_sell_lots_ok. }
  unfold after_signal_check. destruct (gen data) as [sig|]; [|exact H1].
  unfold _execute_trading_logic.
  destruct (signal_type sig), (current_position (after_stop_check cfg st bar));
    try exact H1;
    try (now apply _execute_buy_lots_ok);
    now apply _execute_sell_lots_ok.
Qed.

Lemma process_bar_lots_ok (st : Engine) (data : list Bar) (bar : Bar) :
  lots_ok st -> lots_ok (state_of (process_bar cfg gen st data bar)).
Proof.
  intro H. rewrite process_bar_unfold.
  destruct (length data <? 20)%nat; apply _update_daily_equity_lots_ok.
  - exact H.
  - now apply after_signal_check_lots_ok.
Qed.

(** Every position a run ever holds is a whole, positive number of lots. *)
Lemma state_after_lots_ok (df : list Bar) (n : nat) :
  lots_ok (state_after cfg gen df n).
Proof.
  unfold state_after, outcome_after.
  assert (H : forall rest i st,
            lots_ok st -> lots_ok (state_of (backtest_loop cfg gen df rest i st))).
  { induction rest as [|bar rest IH]; intros i st Hst; [exact Hst|].
    cbn [backtest_loop].
    pose proof (process_bar_lots_ok st (firstn (S i) df) bar Hst) as Hstep.
    destruct (process_bar cfg gen st (firstn (S i) df) bar) as [st' | st'].
    - apply IH. exact Hstep.
    - exact Hstep. }
  apply H. exact I.
Qed.

(** Orders touch neither the equity records nor the return series. *)
Lemma _execute_buy_daily_equity (st : Engine) (date : IndexEntry) (p s : Q) (r : string) :
  equity_series (_execute_buy cfg st date p s r) = equity_series st.
Proof.
  rewrite _execute_buy_unfold.
  destruct (Qeq_bool p 0); [reflexivity|].
  destruct (_ <? 100)%Z; [reflexivity|].
  destruct (Qlt_bool _ _); reflexivity.
Qed.

Lemma _execute_sell_daily_equity (st : Engine) (date : IndexEntry) (p s : Q) (r : string) :
  equity_series (_execute_sell cfg st date p s r) = equity_series st.
Proof.
  unfold _execute_sell.
  destruct (current_position st) as [pos|]; [|reflexivity].
  destruct (_ <? 100)%Z; reflexivity.
Qed.

Lemma after_stop_check_daily_equity (st : Engine) (bar : Bar) :
  equity_series (after_stop_check cfg st bar) = equity_series st.
Proof.
  unfold after_stop_check.
  destruct (current_position st); [|reflexivity].
  destruct (_check_stop_conditions cfg st (close_price bar)); [|reflexivity].
  unfold _execute_trade. destruct (_ || _)%bool; [|reflexivity].
  apply _execute_sell_daily_equity.
Qed.

Lemma after_signal_check_daily_equity (st : Engine) (data : list Bar) (bar : Bar) :
  equity_series (after_signal_check cfg gen st data bar) = equity_series st.
Proof.
  unfold after_signal_check.
  destruct (gen data) as [sig|]; [|apply after_stop_check_daily_equity].
  unfold _execute_trading_logic.
  destruct (signal_type sig), (current_position (after_stop_check cfg st bar));
    rewrite ?_execute_buy_daily_equity, ?_execute_sell_daily_equity;
    apply after_stop_check_daily_equity.
Qed.

(** The equity [_update_daily_equity] records. *)
Lemma _update_daily_equity_curve (st : Engine) (date : IndexEntry) (p : Q) :
  equity_series (state_of (_update_daily_equity st date p)) =
    equity_series st ++
    [ current_capital st
      + match current_position st with
        | Some pos => inject_Z (pos_volume pos) * p
        | None => 0
        end ].
Proof.
  unfold equity_series.
  destruct (_update_daily_equity_state st date p) as [_ [_ [_ ->]]].
  now rewrite map_app.
Qed.

Lemma position_value_nonneg (st : Engine) (p : Q) :
  lots_ok st -> 0 <= p ->
  0 <= match current_position st with
       | Some pos => inject_Z (pos_volume pos) * p
       | None => 0
       end.
Proof.
  unfold lots_ok. intros H Hp.
  destruct (current_position st) as [pos|]; [|lra].
  destruct H as [k [Hk Hv]].
  apply Qmult_le_0_compat; [|exact Hp].
  change 0 with (inject_Z 0). rewrite <- Zle_Qle. lia.
Qed.

Lemma process_bar_run_inv (df : list Bar) (i : nat) (st : Engine) (bar : Bar) :
  commission_rate cfg <= 1 ->
  0 <= close_price bar ->
  run_inv i st ->
  run_inv (S i) (state_of (process_bar cfg gen st (firstn (S i) df) bar)).
Proof.
  intros Hr Hp [Hlen [Hcash [Hlots [Hall Hhd]]]].
  assert (Hstep : forall st',
            0 <= current_capital st' -> lots_ok st' ->
            equity_series st' = equity_series st ->
            (equity_series st = [] -> current_position st' = None /\ 0 < current_capital st') ->
            run_inv (S i)
              (state_of (_update_daily_equity st' (bar_date bar) (close_price bar)))).
  { intros st' Hc' Hl' Heq Hfirst.
    pose proof (position_value_nonneg st' (close_price bar) Hl' Hp) as Hv.
    unfold run_inv. rewrite _update_daily_equity_curve, Heq, _update_daily_equity_cash.
    split; [rewrite length_app; cbn [length]; lia|].
    split; [exact Hc'|].
    split; [now apply _update_daily_equity_lots_ok|].
    split.
    - apply Forall_app. split; [exact Hall|]. constructor; [lra | constructor].
    - destruct (equity_series st) as [|e0 l] eqn:E.
      + cbn [app]. destruct (Hfirst eq_refl) as [Hnone Hpos]. rewrite Hnone. lra.
      + cbn [app]. exact Hhd. }
  rewrite process_bar_unfold.
  destruct (length (firstn (S i) df) <? 20)%nat eqn:E20.
  - apply Hstep; auto.
    intro E. rewrite E in Hhd. exact Hhd.
  - apply Hstep.
    + now apply after_signal_check_cash_nonneg.
    + now apply after_signal_check_lots_ok.
    + apply after_signal_check_daily_equity.
    + intro E. exfalso.
      rewrite E in Hlen. cbn [length] in Hlen. subst i.
      apply Nat.ltb_ge in E20.
      pose proof (firstn_le_length 1 df). lia.
Qed.

Lemma backtest_loop_run_inv (df rest : list Bar) :
  commission_rate cfg <= 1 ->
  Forall (fun b => 0 <= close_price b) rest ->
  forall i st st', run_inv i st ->
    backtest_loop cfg gen df rest i st = Returned st' ->
    run_inv (i + length rest) st'.
Proof.
  intros Hr Hall. induction Hall as [|bar rest Hbar Hrest IH]; intros i st st' H Hrun.
  - cbn [backtest_loop length] in *. injection Hrun as <-. now rewrite Nat.add_0_r.
  - cbn [backtest_loop length] in *. rewrite Nat.add_succ_r.
    pose proof (process_bar_run_inv df i st bar Hr Hbar H) as Hstep.
    destruct (process_bar cfg gen st (firstn (S i) df) bar) as [st1 | st1];
      [|discriminate].
    apply (IH (S i) st1); assumption.
Qed.

(** The equity curve of a run starts positive and never goes negative, so
    its max drawdown is a number between 0 and 1. *)
Lemma run_backtest_max_drawdown (df : list Bar) (st : Engine) :
  0 < initial_capital cfg ->
  commission_rate cfg <= 1 ->
  Forall (fun b => 0 <= close_price b) df ->
  run_backtest cfg gen df = Some st ->
  exists d, _calculate_max_drawdown (equity_series st) = Fin d /\ 0 <= d /\ d <= 1.
Proof.
  intros Hcap Hr Hp Hrun.
  assert (Hst : df <> [] /\ backtest_loop cfg gen df df 0 (_reset_state cfg) = Returned st).
  { unfold run_backtest in Hrun. destruct df; [discriminate|].
    split; [discriminate|].
    destruct (backtest_loop cfg gen (b :: df) (b :: df) 0 (_reset_state cfg));
      [congruence | discriminate]. }
  destruct Hst as [Hne Hloop].
  assert (H0 : run_inv 0 (_reset_state cfg)).
  { unfold run_inv, equity_series, lots_ok. cbn.
    repeat split; try lra; try constructor. }
  pose proof (backtest_loop_run_inv df df Hr Hp 0 _ st H0 Hloop) as [Hlen [_ [_ [Hall Hhd]]]].
  destruct (equity_series st) as [|e0 rest].
  - destruct df; [contradiction | discriminate].
  - inversion Hall; subst. unfold _calculate_max_drawdown.
    apply fabs_unit_drop. now apply deepest_drop_unit.
Qed.

End RunInvariants.

(** ** The bars of a run *)

Section RunSteps.

Variable cfg : Config.
Variable gen : list Bar -> option Signal.

Lemma backtest_loop_app (df l1 l2 : list Bar) :
  forall i st,
    backtest_loop cfg gen df (l1 ++ l2) i st =
    match backtest_loop cfg gen df l1 i st with
    | Returned st' => backtest_loop cfg gen df l2 (i + length l1) st'
    | Raises st' => Raises st'
    end.
Proof.
  induction l1 as [|b l1 IH]; intros i st.
  - cbn [app backtest_loop length]. now rewrite Nat.add_0_r.
  - cbn [app backtest_loop length].
    destruct (process_bar cfg gen st (firstn (S i) df) b) as [st' | st'];
      [|reflexivity].
    rewrite IH. now rewrite Nat.add_succ_r.
Qed.

Lemma firstn_S_nth_error (df : list Bar) (n : nat) (bar : Bar) :
  nth_error df n = Some bar ->
  firstn (S n) df = firstn n df ++ [bar] /\ length (firstn n df) = n.
Proof.
  revert n. induction df as [|b df IH]; intros [|n] H; try discriminate.
  - cbn in H. injection H as ->. split; reflexivity.
  - cbn [nth_error] in H. destruct (IH n H) as [H1 H2].
    split.
    + rewrite firstn_cons, H1. reflexivity.
    + rewrite firstn_cons. cbn [length]. now rewrite H2.
Qed.

(** The run over one bar more: [process_bar] applied to the state before
    the bar, with the frame up to and including it, unless the run has
    raised already. *)
Lemma outcome_after_S (df : list Bar) (n : nat) (bar : Bar) :
  nth_error df n = Some bar ->
  outcome_after cfg gen df (S n) =
    match outcome_after cfg gen df n with
    | Returned st => process_bar cfg gen st (firstn (S n) df) bar
    | Raises st => Raises st
    end.
Proof.
  intro H. destruct (firstn_S_nth_error df n bar H) as [Hfirst Hlen].
  unfold outcome_after. rewrite Hfirst at 1.
  rewrite backtest_loop_app, Hlen.
  destruct (backtest_loop cfg gen df (firstn n df) 0 (_reset_state cfg)) as [st | st];
    [|reflexivity].
  cbn [backtest_loop Nat.add].
  destruct (process_bar cfg gen st (firstn (S n) df) bar); reflexivity.
Qed.

Lemma state_after_S (df : list Bar) (n : nat) (bar : Bar) :
  nth_error df n = Some bar ->
  raised (outcome_after cfg gen df n) = false ->
  outcome_after cfg gen df (S n) =
    process_bar cfg gen (state_after cfg gen df n) (firstn (S n) df) bar.
Proof.
  intros H Hrun. rewrite (outcome_after_S df n bar H). unfold state_after.
  destruct (outcome_after cfg gen df n); [reflexivity | discriminate].
Qed.

(** Once an iteration has raised, the run has ended: later bars change
    nothing. *)
Lemma backtest_loop_firstn_raised (df rest : list Bar) (n m : nat) :
  (n <= m)%nat ->
  forall i st,
    raised (backtest_loop cfg gen df (firstn n rest) i st) = true ->
    backtest_loop cfg gen df (firstn m rest) i st
    = backtest_loop cfg gen df (firstn n rest) i st.
Proof.
  revert n m. induction rest as [|b rest IH]; intros n m Hnm i st Hr.
  - rewrite !firstn_nil in *. discriminate.
  - destruct n as [|n]; [discriminate|].
    destruct m as [|m]; [lia|].
    rewrite !firstn_cons in *. cbn [backtest_loop] in *.
    destruct (process_bar cfg gen st (firstn (S i) df) b) as [st' | st'];
      [|reflexivity].
    apply IH; [lia | exact Hr].
Qed.

Lemma raised_stays (df : list Bar) (n m : nat) :
  (n <= m)%nat ->
  raised (outcome_after cfg gen df n) = true ->
  outcome_after cfg gen df m = outcome_after cfg gen df n.
Proof. intros Hnm Hr. unfold outcome_after in *. now apply backtest_loop_firstn_raised. Qed.

(** A raise leaves an engine that has made no order and holds no position:
    only then are the operands of the division Python floats. *)
Lemma _update_daily_equity_raises (st st' : Engine) (date : IndexEntry) (price : Q) :
  _update_daily_equity st date price = Raises st' ->
  trades st' = [] /\ current_position st' = None.
Proof.
  unfold _update_daily_equity.
  destruct (iloc_last (daily_equity st)) as [prev|]; [|discriminate].
  destruct (Qeq_bool (equity prev) 0); cbn [andb]; [|discriminate].
  unfold python_floats.
  destruct (trades st) eqn:Et; [|discriminate].
  destruct (current_position st) eqn:Ep; [discriminate|].
  intro H. injection H as <-. split; reflexivity.
Qed.

Lemma backtest_loop_raises (df rest : list Bar) :
  forall i st st',
    backtest_loop cfg gen df rest i st = Raises st' ->
    trades st' = [] /\ current_position st' = None.
Proof.
  induction rest as [|b rest IH]; intros i st st' H; [discriminate|].
  cbn [backtest_loop] in H.
  destruct (process_bar cfg gen st (firstn (S i) df) b) as [st1 | st1] eqn:E.
  - exact (IH _ _ _ H).
  - injection H as <-. rewrite process_bar_unfold in E.
    destruct (length (firstn (S i) df) <? 20)%nat;
      exact (_update_daily_equity_raises _ _ _ _ E).
Qed.

(** A run that holds a position has not raised. *)
Lemma open_position_not_raised (df : list Bar) (n : nat) (pos : Position) :
  current_position (state_after cfg gen df n) = Some pos ->
  raised (outcome_after cfg gen df n) = false.
Proof.
  unfold state_after, outcome_after.
  destruct (backtest_loop cfg gen df (firstn n df) 0 (_reset_state cfg)) as [st | st] eqn:E;
    [reflexivity|].
  destruct (backtest_loop_raises _ _ _ _ _ E) as [_ Hp].
  cbn [state_of]. rewrite Hp. discriminate.
Qed.

(** A bar either finds the run already ended by a raise and changes nothing,
    or is processed from the state before it. *)
Lemma state_after_step (df : list Bar) (n : nat) (bar : Bar) :
  nth_error df n = Some bar ->
  state_after cfg gen df (S n) = state_after cfg gen df n \/
  state_after cfg gen df (S n) =
    state_of (process_bar cfg gen (state_after cfg gen df n) (firstn (S n) df) bar).
Proof.
  intro H. unfold state_after. rewrite (outcome_after_S df n bar H).
  destruct (outcome_after cfg gen df n); [now right | now left].
Qed.

(** No position is opened while fewer than 20 bars have been seen. *)
Lemma backtest_loop_warm_up (df rest : list Bar) :
  forall i st,
    (i + length rest <= 19)%nat ->
    current_position st = None ->
    current_position (state_of (backtest_loop cfg gen df rest i st)) = None.
Proof.
  induction rest as [|b rest IH]; intros i st Hi Hst; [exact Hst|].
  cbn [backtest_loop]. cbn [length] in Hi.
  assert (Hstep : current_position
                    (state_of (process_bar cfg gen st (firstn (S i) df) b)) = None).
  { rewrite process_bar_unfold.
    replace (length (firstn (S i) df) <? 20)%nat with true.
    - rewrite _update_daily_equity_position, Hst. reflexivity.
    - symmetry. apply Nat.ltb_lt. pose proof (firstn_le_length (S i) df). lia. }
  destruct (process_bar cfg gen st (firstn (S i) df) b) as [st' | st'].
  - apply IH; [lia | exact Hstep].
  - exact Hstep.
Qed.

Lemma state_after_warm_up (df : list Bar) (n : nat) :
  (n <= 19)%nat -> current_position (state_after cfg gen df n) = None.
Proof.
  intro Hn. unfold state_after, outcome_after. apply backtest_loop_warm_up.
  - pose proof (firstn_le_length n df). lia.
  - reflexivity.
Qed.

End RunSteps.

(** C1, amended: at every bar of a run at which a position is open and at
    whose close the stop policy triggers, the policy is applied before the
    signal: the whole position is sold at the bar's close and logged with
    reason stop_loss or take_profit, leaving no position. The signal check of
    that bar still runs, on the engine left by the exit: the bar's trades are
    the exit followed by either nothing or one buy. Each of the two is
    stamped as its order stamps it: with the bar's index entry when that is a
    timestamp, with the wall clock otherwise. *)
Theorem stop_exit_precedes_signal_check (cfg : Config)
    (gen : list Bar -> option Signal) (df : list Bar) (n : nat) (bar : Bar)
    (pos : Position) (a : string) :
  nth_error df n = Some bar ->
  current_position (state_after cfg gen df n) = Some pos ->
  _check_stop_conditions cfg (state_after cfg gen df n) (close_price bar) = Some a ->
  (a = "stop_loss"%string \/ a = "take_profit"%string) /\
  current_position (after_stop_check cfg (state_after cfg gen df n) bar) = None /\
  outcome_after cfg gen df (S n) =
    _update_daily_equity
      (after_signal_check cfg gen (state_after cfg gen df n) (firstn (S n) df) bar)
      (bar_date bar) (close_price bar) /\
  exists exit rest,
    trades (state_after cfg gen df (S n))
      = trades (state_after cfg gen df n) ++ exit :: rest /\
    exit = exit_trade cfg (state_after cfg gen df n) pos bar a /\
    action exit = ActSell /\ volume exit = pos_volume pos /\
    price exit = close_price bar /\ reason exit = a /\
    timestamp exit
      = match bar_date bar with
        | Moment at_bar => at_bar
        | DateKey _ => wall_clock cfg (length (trades (state_after cfg gen df n)))
        end /\
    (rest = [] \/
     exists b, rest = [b] /\ action b = ActBuy /\
               timestamp b
               = match bar_date bar with
                 | Moment at_bar => at_bar
                 | DateKey _ =>
                     wall_clock cfg (S (length (trades (state_after cfg gen df n))))
                 end).
Proof.
  intros Hbar Hpos Hstop.
  pose proof (open_position_not_raised cfg gen df n pos Hpos) as Hrun.
  assert (Hn : (20 <= n)%nat).
  { destruct (Nat.le_gt_cases n 19) as [Hle | Hgt]; [|lia].
    rewrite (state_after_warm_up cfg gen df n Hle) in Hpos. discriminate. }
  assert (Hlen : (20 <= length (firstn (S n) df))%nat).
  { destruct (firstn_S_nth_error df n bar Hbar) as [Hfirst Hl].
    rewrite Hfirst, length_app, Hl. cbn [length]. lia. }
  assert (Hlots : whole_lots (pos_volume pos)).
  { pose proof (state_after_lots_ok cfg gen df n) as H.
    unfold lots_ok in H. now rewrite Hpos in H. }
  destruct (process_bar_stop_exit cfg gen _ (firstn (S n) df) bar pos a
              Hlen Hpos Hlots Hstop) as [Hflat [Htr [Hstep [rest [Htrades Hshape]]]]].
  split; [exact (_check_stop_conditions_reason _ _ _ _ Hstop)|].
  split; [exact Hflat|]. split.
  - rewrite (state_after_S cfg gen df n bar Hbar Hrun). exact Hstep.
  - exists (exit_trade cfg (state_after cfg gen df n) pos bar a), rest.
    split.
    + unfold state_after at 1. rewrite (state_after_S cfg gen df n bar Hbar Hrun).
      exact Htrades.
    + do 6 (split; [reflexivity|]).
      destruct Hshape as [Hnil | [b [Hb [Hab Htb]]]]; [now left|].
      right. exists b. split; [exact Hb|]. split; [exact Hab|].
      rewrite Htb. unfold trade_timestamp, stamp_at.
      rewrite Htr, length_app. cbn [length]. now rewrite Nat.add_1_r.
Qed.

Lemma stop_exit_precedes_signal_check_witness :
  exists exit rest,
    trades (state_after sample_config always_buy keyed_take_profit_frame 21)
      = trades (state_after sample_config always_buy keyed_take_profit_frame 20)
        ++ exit :: rest /\
    reason exit = "take_profit"%string.
Proof.
  assert (Hbar : nth_error keyed_take_profit_frame 20 = Some (mkBar (DateKey 20240121) 11))
    by (vm_compute; reflexivity).
  assert (Hpos : current_position
                   (state_after sample_config always_buy keyed_take_profit_frame 20)
                 = Some {| pos_volume := 2400; avg_price := 10; market_value := 24000;
                           unrealized_pnl := 0; realized_pnl := 0 |})
    by (vm_compute; reflexivity).
  assert (Hstop : _check_stop_conditions sample_config
                    (state_after sample_config always_buy keyed_take_profit_frame 20)
                    (close_price (mkBar (DateKey 20240121) 11))
                  = Some "take_profit"%string)
    by (vm_compute; reflexivity).
  destruct (stop_exit_precedes_signal_check sample_config always_buy
              keyed_take_profit_frame 20 (mkBar (DateKey 20240121) 11) _ _
              Hbar Hpos Hstop)
    as [_ [_ [_ [exit [rest [Htrades [_ [_ [_ [_ [Hreason _]]]]]]]]]]].
  exists exit, rest. split; [exact Htrades | exact Hreason].
Defined.

(** * Further properties of the simulator *)

Section TradeLog.

Variable cfg : Config.
Variable gen : list Bar -> option Signal.

(** What an order appends to the log. *)
Lemma _execute_buy_appends (st : Engine) (date : IndexEntry) (p s : Q) (r : string) :
  trades (_execute_buy cfg st date p s r) = trades st \/
  exists t, trades (_execute_buy cfg st date p s r) = trades st ++ [t] /\
            action t = ActBuy /\ timestamp t = trade_timestamp cfg st date /\
            current_position (_execute_buy cfg st date p s r) <> None.
Proof.
  rewrite _execute_buy_unfold.
  destruct (Qeq_bool p 0); [now left|].
  destruct (_ <? 100)%Z; [now left|].
  destruct (Qlt_bool _ _); [now left|].
  right. eexists. cbn [trades current_position].
  split; [reflexivity|]. repeat split; discriminate.
Qed.

Lemma _execute_sell_appends (st : Engine) (date : IndexEntry) (p s : Q) (r : string) :
  _execute_sell cfg st date p s r = st \/
  exists t, trades (_execute_sell cfg st date p s r) = trades st ++ [t] /\
            action t = ActSell /\ timestamp t = trade_timestamp cfg st date /\
            reason t = r.
Proof.
  unfold _execute_sell.
  destruct (current_position st) as [pos|]; [|now left].
  destruct (_ <? 100)%Z; [now left|].
  right. eexists. cbn [trades]. split; [reflexivity|]. repeat split.
Qed.

Lemma after_stop_check_appends (st : Engine) (bar : Bar) :
  after_stop_check cfg st bar = st \/
  exists t, trades (after_stop_check cfg st bar) = trades st ++ [t] /\
            action t = ActSell /\ timestamp t = trade_timestamp cfg st (bar_date bar) /\
            (reason t = "stop_loss"%string \/ reason t = "take_profit"%string).
Proof.
  unfold after_stop_check.
  destruct (current_position st) as [pos|]; [|now left].
  destruct (_check_stop_conditions cfg st (close_price bar)) as [a|] eqn:E; [|now left].
  pose proof (_check_stop_conditions_reason _ _ _ _ E) as Ha.
  unfold _execute_trade.
  destruct (String.eqb a "stop_loss" || String.eqb a "take_profit")%bool; [|now left].
  destruct (_execute_sell_appends st (bar_date bar) (close_price bar) 1 a)
    as [Hsame | [t [Ht [Hact [Hts Hr]]]]]; [now left|].
  right. exists t. repeat split; try assumption. now rewrite Hr.
Qed.

Lemma _execute_trading_logic_appends (st : Engine) (date : IndexEntry) (p : Q)
    (sig : Signal) :
  trades (_execute_trading_logic cfg st date p sig) = trades st \/
  exists t, trades (_execute_trading_logic cfg st date p sig) = trades st ++ [t] /\
            timestamp t = trade_timestamp cfg st date /\
            (action t = ActBuy <-> current_position st = None).
Proof.
  unfold _execute_trading_logic.
  destruct (signal_type sig), (current_position st) as [pos|] eqn:Epos;
    try (now left).
  1, 3: destruct (_execute_buy_appends st date p (signal_strength sig)
                    (signal_reason sig)) as [H | [t [Ht [Ha [Hts _]]]]];
    [now left | right; exists t; repeat split; auto].
  all: destruct (_execute_sell_appends st date p (signal_strength sig)
                   (signal_reason sig)) as [H | [t [Ht [Ha [Hts _]]]]];
    [left; now rewrite H
    | right; exists t; repeat split; auto;
      [intro Hb; rewrite Ha in Hb; discriminate | intro Hn; discriminate]].
Qed.

Lemma stamped_from_nil (k : nat) (date : IndexEntry) : stamped_from cfg k date [].
Proof. intros [|j] t H; discriminate. Qed.

Lemma stamped_from_one (k : nat) (date : IndexEntry) (t : Trade) :
  timestamp t = stamp_at cfg k date -> stamped_from cfg k date [t].
Proof.
  intros Ht [|[|j]] u H; try discriminate.
  cbn in H. injection H as <-. now rewrite Nat.add_0_r.
Qed.

Lemma stamped_from_two (k : nat) (date : IndexEntry) (x t : Trade) :
  timestamp x = stamp_at cfg k date -> timestamp t = stamp_at cfg (S k) date ->
  stamped_from cfg k date [x; t].
Proof.
  intros Hx Ht [|[|[|j]]] u H; try discriminate; cbn in H; injection H as <-.
  - now rewrite Nat.add_0_r.
  - now rewrite Nat.add_1_r.
Qed.

(** The trades of one bar: the optional stop exit, then the optional signal
    trade, each stamped as its order stamps it. *)
Lemma process_bar_appends (st : Engine) (data : list Bar) (bar : Bar) :
  lots_ok st ->
  exists added,
    trades (state_of (process_bar cfg gen st data bar)) = trades st ++ added /\
    stamped_from cfg (length (trades st)) (bar_date bar) added /\
    (added = [] \/ (exists t, added = [t]) \/
     exists x b, added = [x; b] /\ action x = ActSell /\ action b = ActBuy /\
                 (reason x = "stop_loss"%string \/ reason x = "take_profit"%string)).
Proof.
  intro Hlots. rewrite process_bar_unfold.
  destruct (length data <? 20)%nat; rewrite _update_daily_equity_trades.
  - exists []. rewrite app_nil_r.
    split; [reflexivity|]. split; [apply stamped_from_nil | now left].
  - unfold after_signal_check.
    destruct (after_stop_check_appends st bar) as [Hsame | [x [Hx [Hax [Htx Hrx]]]]].
    + rewrite Hsame.
      destruct (gen data) as [sig|].
      * destruct (_execute_trading_logic_appends st (bar_date bar) (close_price bar) sig)
          as [H | [t [Ht [Hts _]]]].
        -- exists []. rewrite H, app_nil_r. split; [reflexivity|].
           split; [apply stamped_from_nil | now left].
        -- exists [t]. split; [exact Ht|].
           split; [now apply stamped_from_one|].
           right; left. now exists t.
      * exists []. rewrite app_nil_r. split; [reflexivity|].
        split; [apply stamped_from_nil | now left].
    + assert (Hflat : current_position (after_stop_check cfg st bar) = None).
      { unfold after_stop_check in *.
        destruct (current_position st) as [pos|] eqn:Epos.
        - destruct (_check_stop_conditions cfg st (close_price bar)) as [a|] eqn:E.
          + unfold lots_ok in Hlots. rewrite Epos in Hlots.
            pose proof (after_stop_check_exit cfg st bar pos a Epos Hlots E) as Hexit.
            unfold after_stop_check in Hexit. rewrite Epos, E in Hexit.
            now rewrite Hexit.
          + exfalso. apply (f_equal (@length Trade)) in Hx.
            rewrite length_app in Hx. cbn [length] in Hx. lia.
        - exfalso. apply (f_equal (@length Trade)) in Hx.
          rewrite length_app in Hx. cbn [length] in Hx. lia. }
      destruct (gen data) as [sig|].
      * destruct (_execute_trading_logic_appends (after_stop_check cfg st bar)
                    (bar_date bar) (close_price bar) sig) as [H | [t [Ht [Hts Hbuy]]]].
        -- exists [x]. rewrite H. split; [exact Hx|].
           split; [now apply stamped_from_one|]. right; left. now exists x.
        -- exists [x; t]. rewrite Ht, Hx, <- app_assoc. split; [reflexivity|].
           split.
           ++ apply stamped_from_two; [exact Htx|].
              rewrite Hts. unfold trade_timestamp. rewrite Hx, length_app.
              cbn [length]. now rewrite Nat.add_1_r.
           ++ right; right.
              exists x, t. repeat split; try assumption. now apply Hbuy.
      * exists [x]. split; [exact Hx|]. split; [now apply stamped_from_one|].
        right; left. now exists x.
Qed.

End TradeLog.

Section RunLedger.

Variable cfg : Config.
Variable gen : list Bar -> option Signal.

(** A property kept by every bar holds throughout the loop. *)
Lemma backtest_loop_invariant (P : Engine -> Prop) (df rest : list Bar) :
  (forall st data bar, In bar rest -> P st ->
                       P (state_of (process_bar cfg gen st data bar))) ->
  forall i st, P st -> P (state_of (backtest_loop cfg gen df rest i st)).
Proof.
  induction rest as [|b rest IH]; intros Hstep i st Hst; [exact Hst|].
  cbn [backtest_loop].
  pose proof (Hstep st (firstn (S i) df) b (or_introl eq_refl) Hst) as H1.
  destruct (process_bar cfg gen st (firstn (S i) df) b) as [st' | st'].
  - apply IH; [|exact H1].
    intros st0 data bar Hin. apply Hstep. now right.
  - exact H1.
Qed.

Lemma state_after_invariant (P : Engine -> Prop) (df : list Bar) (n : nat) :
  (forall st data bar, In bar df -> P st ->
                       P (state_of (process_bar cfg gen st data bar))) ->
  P (_reset_state cfg) -> P (state_after cfg gen df n).
Proof.
  intros Hstep H0. unfold state_after, outcome_after.
  apply backtest_loop_invariant; [|exact H0].
  intros st data bar Hin. apply Hstep.
  rewrite <- (firstn_skipn n df). apply in_or_app. now left.
Qed.

Lemma net_volume_app (l : list Trade) (t : Trade) :
  net_volume (l ++ [t]) = (net_volume l + signed_volume t)%Z.
Proof.
  induction l as [|u l IH]; cbn [app net_volume fold_right].
  - lia.
  - fold (net_volume (l ++ [t])). fold (net_volume l). rewrite IH. lia.
Qed.

Lemma net_cash_flow_app (l : list Trade) (t : Trade) :
  net_cash_flow (l ++ [t]) == net_cash_flow l + cash_flow t.
Proof.
  induction l as [|u l IH]; cbn [app net_cash_flow fold_right].
  - lra.
  - fold (net_cash_flow (l ++ [t])). fold (net_cash_flow l). rewrite IH. lra.
Qed.

Lemma _execute_buy_books (st : Engine) (date : IndexEntry) (p s : Q) (r : string) :
  current_position st = None ->
  books_balance cfg st -> books_balance cfg (_execute_buy cfg st date p s r).
Proof.
  intros Hflat [Hv Hc]. rewrite _execute_buy_unfold.
  destruct (Qeq_bool p 0); [now split|].
  destruct (_ <? 100)%Z; [now split|].
  destruct (Qlt_bool _ _); [now split|].
  unfold books_balance, held_volume in *. rewrite Hflat in Hv.
  cbn [current_position pos_volume trades current_capital].
  rewrite net_volume_app, net_cash_flow_app.
  unfold signed_volume, cash_flow, buy_total_cost. cbn [action volume amount commission].
  split; [lia | lra].
Qed.

Lemma _execute_sell_books (st : Engine) (date : IndexEntry) (p s : Q) (r : string) :
  books_balance cfg st -> books_balance cfg (_execute_sell cfg st date p s r).
Proof.
  intros [Hv Hc]. unfold _execute_sell.
  destruct (current_position st) as [pos|] eqn:Epos; [|now split].
  destruct (_ <? 100)%Z; [now split|].
  unfold books_balance, held_volume in *. rewrite Epos in Hv.
  cbn [current_position trades current_capital].
  rewrite net_volume_app, net_cash_flow_app.
  unfold signed_volume, cash_flow. cbn [action volume amount commission].
  split; [|lra].
  destruct (sell_volume_of (pos_volume pos) s =? pos_volume pos)%Z eqn:E.
  - apply Z.eqb_eq in E. lia.
  - cbn [pos_volume]. lia.
Qed.

Lemma _update_daily_equity_books (st : Engine) (date : IndexEntry) (p : Q) :
  books_balance cfg st -> books_balance cfg (state_of (_update_daily_equity st date p)).
Proof.
  unfold books_balance, held_volume.
  rewrite _update_daily_equity_position, _update_daily_equity_trades,
    _update_daily_equity_cash.
  destruct (current_position st); auto.
Qed.

Lemma process_bar_books (st : Engine) (data : list Bar) (bar : Bar) :
  books_balance cfg st -> books_balance cfg (state_of (process_bar cfg gen st data bar)).
Proof.
  intro H. rewrite process_bar_unfold.
  destruct (length data <? 20)%nat; apply _update_daily_equity_books; [exact H|].
  assert (H1 : books_balance cfg (after_stop_check cfg st bar)).
  { unfold after_stop_check.
    destruct (current_position st); [|exact H].
    destruct (_check_stop_conditions cfg st (close_price bar)); [|exact H].
    unfold _execute_trade. destruct (_ || _)%bool; [|exact H].
    now apply _execute_sell_books. }
  unfold after_signal_check. destruct (gen data) as [sig|]; [|exact H1].
  unfold _execute_trading_logic.
  destruct (signal_type sig), (current_position (after_stop_check cfg st bar)) eqn:E;
    try exact H1;
    try (now apply _execute_buy_books);
    now apply _execute_sell_books.
Qed.

Lemma chronological_same_date (d : Z) (l : list Trade) :
  Forall (fun t => timestamp t = d) l -> chronological l.
Proof.
  induction 1 as [|t l Ht Hl IH]; [exact I|].
  split; [|exact IH].
  intros u Hu. rewrite Forall_forall in Hl. rewrite Ht, (Hl u Hu). lia.
Qed.

Lemma chronological_app (l1 l2 : list Trade) :
  chronological l1 -> chronological l2 ->
  (forall a b, In a l1 -> In b l2 -> (timestamp a <= timestamp b)%Z) ->
  chronological (l1 ++ l2).
Proof.
  induction l1 as [|t l1 IH]; intros H1 H2 Hcross; [exact H2|].
  destruct H1 as [Hhd Htl]. cbn [app]. split.
  - intros u Hu. apply in_app_or in Hu. destruct Hu as [Hu | Hu].
    + now apply Hhd.
    + apply Hcross; [now left | exact Hu].
  - apply IH; [exact Htl | exact H2|].
    intros a b Ha Hb. apply Hcross; [now right | exact Hb].
Qed.

(** At a bar indexed by a timestamp every trade added carries it. *)
Lemma stamped_from_moment (k : nat) (u : Z) (added : list Trade) :
  stamped_from cfg k (Moment u) added -> Forall (fun t => timestamp t = u) added.
Proof.
  intro H. apply Forall_forall. intros t Ht.
  destruct (In_nth_error _ _ Ht) as [j Hj]. exact (H j t Hj).
Qed.

Lemma backtest_loop_chronological (df rest : list Bar) :
  ascending_dates rest ->
  forall i st,
    lots_ok st ->
    chronological (trades st) ->
    (forall t b, In t (trades st) -> In b rest ->
                 moment_le (Moment (timestamp t)) (bar_date b)) ->
    chronological (trades (state_of (backtest_loop cfg gen df rest i st))).
Proof.
  induction rest as [|bar rest IH]; intros Hasc i st Hlots Hchr Hbound; [exact Hchr|].
  destruct Hasc as [Hself [Hhd Hasc]]. cbn [backtest_loop].
  destruct (process_bar_appends cfg gen st (firstn (S i) df) bar Hlots)
    as [added [Hadded [Hstamps _]]].
  pose proof (process_bar_lots_ok cfg gen st (firstn (S i) df) bar Hlots) as Hlots'.
  destruct (bar_date bar) as [u | key] eqn:Edate; [|contradiction].
  apply stamped_from_moment in Hstamps.
  assert (Hchr' : chronological
                    (trades (state_of (process_bar cfg gen st (firstn (S i) df) bar)))).
  { rewrite Hadded. apply chronological_app.
    - exact Hchr.
    - now apply (chronological_same_date u).
    - intros a b Ha Hb. rewrite Forall_forall in Hstamps. rewrite (Hstamps b Hb).
      specialize (Hbound a bar Ha (or_introl eq_refl)).
      rewrite Edate in Hbound. exact Hbound. }
  destruct (process_bar cfg gen st (firstn (S i) df) bar) as [st' | st'];
    cbn [state_of] in *; [|exact Hchr'].
  apply IH; try assumption.
  intros t b Ht Hb. rewrite Hadded in Ht. apply in_app_or in Ht.
  destruct Ht as [Ht | Ht].
  - apply Hbound; [exact Ht | now right].
  - rewrite Forall_forall in Hstamps. rewrite (Hstamps t Ht). now apply Hhd.
Qed.

Lemma ascending_dates_firstn (n : nat) (df : list Bar) :
  ascending_dates df -> ascending_dates (firstn n df).
Proof.
  revert n. induction df as [|b df IH]; intros [|n] H; try exact I.
  destruct H as [Hself [Hhd Htl]]. cbn [firstn ascending_dates].
  split; [exact Hself|]. split.
  - intros c Hc. apply Hhd.
    rewrite <- (firstn_skipn n df). apply in_or_app. now left.
  - now apply IH.
Qed.

(** Under the vendor's keys every trade is stamped by the wall clock. *)
Lemma clock_stamped_app (log added : list Trade) (key : Z) :
  clock_stamped cfg log ->
  stamped_from cfg (length log) (DateKey key) added ->
  clock_stamped cfg (log ++ added).
Proof.
  intros Hlog Hadded k t Hk.
  destruct (Nat.lt_ge_cases k (length log)) as [Hlt | Hge].
  - rewrite nth_error_app1 in Hk by exact Hlt. now apply Hlog.
  - rewrite nth_error_app2 in Hk by exact Hge.
    rewrite (Hadded _ _ Hk). cbn [stamp_at]. f_equal. lia.
Qed.

Lemma process_bar_clock_stamped (st : Engine) (data : list Bar) (bar : Bar) :
  (exists key, bar_date bar = DateKey key) ->
  lots_ok st /\ clock_stamped cfg (trades st) ->
  lots_ok (state_of (process_bar cfg gen st data bar)) /\
  clock_stamped cfg (trades (state_of (process_bar cfg gen st data bar))).
Proof.
  intros [key Hkey] [Hlots Hlog]. split; [now apply process_bar_lots_ok|].
  destruct (process_bar_appends cfg gen st data bar Hlots) as [added [-> [Hstamps _]]].
  rewrite Hkey in Hstamps. now apply (clock_stamped_app _ _ key).
Qed.

Lemma clock_stamped_chronological (log : list Trade) :
  clock_monotone cfg -> clock_stamped cfg log -> chronological log.
Proof.
  intros Hmono Hlog.
  assert (Hgen : forall l off,
            (forall k t, nth_error l k = Some t -> timestamp t = wall_clock cfg (off + k)) ->
            chronological l).
  { induction l as [|t l IH]; intros off Hl; [exact I|]. split.
    - intros u Hu. destruct (In_nth_error _ _ Hu) as [j Hj].
      rewrite (Hl 0%nat t eq_refl), (Hl (S j) u Hj). apply Hmono. lia.
    - apply (IH (S off)). intros k u Hk.
      rewrite (Hl (S k) u Hk). f_equal. lia. }
  apply (Hgen log 0%nat). exact Hlog.
Qed.

Lemma keyed_In (df : list Bar) (bar : Bar) :
  keyed df -> In bar df -> exists key, bar_date bar = DateKey key.
Proof. intros H Hin. unfold keyed in H. rewrite Forall_forall in H. now apply H. Qed.

(** The log of a run is in time order when the frame is indexed by
    ascending timestamps, and when it is under the vendor's keys and the
    wall clock never goes back. *)
Lemma state_after_chronological (df : list Bar) (n : nat) :
  stamps_in_order cfg df -> chronological (trades (state_after cfg gen df n)).
Proof.
  intros [Hasc | [Hkeyed Hmono]].
  - unfold state_after, outcome_after. apply backtest_loop_chronological.
    + now apply ascending_dates_firstn.
    + exact I.
    + exact I.
    + intros t b [].
  - apply clock_stamped_chronological; [exact Hmono|].
    apply (state_after_invariant
             (fun st => lots_ok st /\ clock_stamped cfg (trades st)) df n).
    + intros st data bar Hin. apply process_bar_clock_stamped.
      now apply (keyed_In df).
    + split; [exact I|]. intros [|k] t H; discriminate.
Qed.

End RunLedger.

(** X1: The log of a run only grows, and a bar adds at most two trades to it: an
    exit for stop_loss or take_profit, a trade on the signal, or the exit
    followed by a buy; never two sells and never two buys. Each is stamped
    as its order stamps it: with the bar's index entry when that is a
    timestamp, otherwise with the reading of the wall clock that belongs to
    its place in the log. *)
Theorem bar_adds_exit_then_signal_trade (cfg : Config)
    (gen : list Bar -> option Signal) (df : list Bar) (n : nat) (bar : Bar) :
  nth_error df n = Some bar ->
  exists added,
    trades (state_after cfg gen df (S n)) = trades (state_after cfg gen df n) ++ added /\
    (forall j t, nth_error added j = Some t ->
       timestamp t =
         match bar_date bar with
         | Moment at_bar => at_bar
         | DateKey _ =>
             wall_clock cfg (length (trades (state_after cfg gen df n)) + j)
         end) /\
    (added = [] \/ (exists t, added = [t]) \/
     exists x b, added = [x; b] /\ action x = ActSell /\ action b = ActBuy /\
                 (reason x = "stop_loss"%string \/ reason x = "take_profit"%string)).
Proof.
  intro Hbar.
  destruct (state_after_step cfg gen df n bar Hbar) as [-> | ->].
  - exists []. rewrite app_nil_r. split; [reflexivity|].
    split; [intros [|j] t H; discriminate | now left].
  - destruct (process_bar_appends cfg gen (state_after cfg gen df n) (firstn (S n) df) bar
                (state_after_lots_ok cfg gen df n)) as [added [Hadded [Hstamps Hshape]]].
    exists added. split; [exact Hadded|]. split; [|exact Hshape].
    intros j t Hj. rewrite (Hstamps j t Hj). unfold stamp_at.
    destruct (bar_date bar); reflexivity.
Qed.

Lemma bar_adds_exit_then_signal_trade_witness :
  exists added,
    trades (state_after sample_config always_buy keyed_take_profit_frame 21)
      = trades (state_after sample_config always_buy keyed_take_profit_frame 20) ++ added /\
    map timestamp added = [1001%Z; 1002%Z].
Proof.
  assert (Hbar : nth_error keyed_take_profit_frame 20 = Some (mkBar (DateKey 20240121) 11))
    by (vm_compute; reflexivity).
  destruct (bar_adds_exit_then_signal_trade sample_config always_buy
              keyed_take_profit_frame 20 (mkBar (DateKey 20240121) 11) Hbar)
    as [added [Hadded _]].
  exists added. split; [exact Hadded|].
  assert (Hlog : trades (state_after sample_config always_buy keyed_take_profit_frame 20)
                 ++ added
                 = trades (state_after sample_config always_buy keyed_take_profit_frame 20)
                   ++ skipn 1 (trades (state_after sample_config always_buy
                                         keyed_take_profit_frame 21)))
    by (rewrite <- Hadded; vm_compute; reflexivity).
  apply app_inv_head in Hlog. rewrite Hlog. vm_compute. reflexivity.
Defined.

(** X2: Throughout a run the books balance: the shares held equal the shares
    bought less the shares sold in the log, and the cash equals the initial
    capital less what the buys cost (amount plus commission) plus what the
    sells returned (amount less commission). *)
Theorem run_books_balance (cfg : Config) (gen : list Bar -> option Signal)
    (df : list Bar) (n : nat) :
  held_volume (state_after cfg gen df n) = net_volume (trades (state_after cfg gen df n)) /\
  current_capital (state_after cfg gen df n)
    == initial_capital cfg + net_cash_flow (trades (state_after cfg gen df n)).
Proof.
  apply (state_after_invariant cfg gen (books_balance cfg)).
  - intros st data bar _. apply process_bar_books.
  - split; [reflexivity|]. cbn. lra.
Qed.

(** X3: The log of a run is in time order when the frame is indexed by
    timestamps that never decrease and also when it is under the vendor's
    keys, where every trade is stamped by the wall clock, provided the
    clock never goes back. The statistics then pair each buy with the
    chronologically first sell that is strictly later, and the pair profits
    they are computed from are those of exactly these pairs. *)
Theorem run_log_is_chronological (cfg : Config) (gen : list Bar -> option Signal)
    (df : list Bar) (n : nat) :
  ascending_dates df \/ (keyed df /\ clock_monotone cfg) ->
  chronological (trades (state_after cfg gen df n)) /\
  (forall b s,
     paired_sell (filter is_sell (trades (state_after cfg gen df n))) b = Some s ->
     chronologically_first_later_sell (trades (state_after cfg gen df n)) b s) /\
  exists pairing : list (Trade * option Trade),
    map fst pairing = filter is_buy (trades (state_after cfg gen df n)) /\
    Forall (fun bo => spec_pairing (trades (state_after cfg gen df n)) (fst bo) (snd bo))
           pairing /\
    trade_pairs (trades (state_after cfg gen df n)) = pair_profits pairing.
Proof.
  intro Horder.
  pose proof (state_after_chronological cfg gen df n Horder) as Hchr.
  split; [exact Hchr|]. split.
  - intros b s. now apply paired_sell_chronologically_first.
  - now apply trade_pairs_follow_spec.
Qed.

Lemma ascending_datesb_sound (df : list Bar) :
  ascending_datesb df = true -> ascending_dates df.
Proof.
  assert (Hle : forall d e, moment_leb d e = true -> moment_le d e).
  { intros [t | k] [u | k'] H; try discriminate. now apply Z.leb_le. }
  induction df as [|b rest IH]; intro H; [exact I|].
  cbn [ascending_datesb] in H. apply andb_true_iff in H. destruct H as [H Htl].
  apply andb_true_iff in H. destruct H as [Hself Hhd].
  split; [now apply Hle|]. split; [|now apply IH].
  intros c Hc. rewrite forallb_forall in Hhd. apply Hle. now apply Hhd.
Qed.

Lemma ticking_clock_monotone : clock_monotone sample_config.
Proof.
  intros i j Hij. unfold sample_config. cbn [wall_clock]. unfold ticking_clock. lia.
Qed.

Lemma keyed_frame_of_keyed (closes : list Q) : keyed (keyed_frame_of closes).
Proof.
  unfold keyed, keyed_frame_of. apply Forall_forall. intros b Hb.
  apply in_map_iff in Hb. destruct Hb as [ic [<- _]]. eexists. reflexivity.
Qed.

Lemma run_log_is_chronological_witness :
  chronological (trades (state_after sample_config always_buy take_profit_frame 21)) /\
  chronological (trades (state_after sample_config always_buy keyed_take_profit_frame 21)).
Proof.
  split.
  - refine (proj1 (run_log_is_chronological sample_config always_buy take_profit_frame 21
                     (or_introl _))).
    apply ascending_datesb_sound. vm_compute. reflexivity.
  - refine (proj1 (run_log_is_chronological sample_config always_buy
                     keyed_take_profit_frame 21 (or_intror (conj _ _)))).
    + apply keyed_frame_of_keyed.
    + apply ticking_clock_monotone.
Defined.

(** X4: Every position a run holds, after any number of bars, is a positive
    whole number of lots of 100 shares. *)
Theorem run_position_is_whole_lots (cfg : Config) (gen : list Bar -> option Signal)
    (df : list Bar) (n : nat) (pos : Position) :
  current_position (state_after cfg gen df n) = Some pos ->
  exists k : Z, (1 <= k)%Z /\ pos_volume pos = (100 * k)%Z.
Proof.
  intro Hpos. pose proof (state_after_lots_ok cfg gen df n) as H.
  unfold lots_ok in H. rewrite Hpos in H. exact H.
Qed.

Lemma run_position_is_whole_lots_witness :
  exists k : Z, (1 <= k)%Z /\ 2400%Z = (100 * k)%Z.
Proof.
  assert (Hpos : current_position (state_after sample_config always_buy take_profit_frame 20)
                 = Some {| pos_volume := 2400; avg_price := 10; market_value := 24000;
                           unrealized_pnl := 0; realized_pnl := 0 |})
    by (vm_compute; reflexivity).
  exact (run_position_is_whole_lots sample_config always_buy take_profit_frame 20 _ Hpos).
Defined.

Section WarmUp.

Variable cfg : Config.
Variable gen : list Bar -> option Signal.

Lemma backtest_loop_idle (df rest : list Bar) :
  forall i st,
    (i + length rest <= 19)%nat -> idle cfg st ->
    idle cfg (state_of (backtest_loop cfg gen df rest i st)).
Proof.
  induction rest as [|b rest IH]; intros i st Hi Hst; [exact Hst|].
  cbn [backtest_loop]. cbn [length] in Hi.
  assert (Hstep : idle cfg (state_of (process_bar cfg gen st (firstn (S i) df) b))).
  { rewrite process_bar_unfold.
    replace (length (firstn (S i) df) <? 20)%nat with true.
    - destruct Hst as [Hc [Hp [Ht He]]]. unfold idle.
      destruct (_update_daily_equity_state st (bar_date b) (close_price b))
        as [-> [-> [-> ->]]].
      rewrite Hp. repeat split; try assumption.
      apply Forall_app. split; [exact He|].
      constructor; [|constructor]. cbn [equity]. rewrite Hc. lra.
    - symmetry. apply Nat.ltb_lt. pose proof (firstn_le_length (S i) df). lia. }
  destruct (process_bar cfg gen st (firstn (S i) df) b) as [st' | st'].
  - apply IH; [lia | exact Hstep].
  - exact Hstep.
Qed.

End WarmUp.

(** X5: During the first 19 bars of a run nothing is decided: no position, no
    trade, the cash is the initial capital and every equity point recorded
    shows it. *)
Theorem run_warm_up_is_idle (cfg : Config) (gen : list Bar -> option Signal)
    (df : list Bar) (n : nat) :
  (n <= 19)%nat ->
  current_capital (state_after cfg gen df n) = initial_capital cfg /\
  current_position (state_after cfg gen df n) = None /\
  trades (state_after cfg gen df n) = [] /\
  Forall (fun e => equity e == initial_capital cfg)
         (daily_equity (state_after cfg gen df n)).
Proof.
  intro Hn. unfold state_after, outcome_after. apply backtest_loop_idle.
  - pose proof (firstn_le_length n df). lia.
  - unfold idle. cbn. repeat split. constructor.
Qed.

Lemma run_warm_up_is_idle_witness :
  trades (state_after sample_config always_buy take_profit_frame 19) = [].
Proof.
  assert (Hn : (19 <= 19)%nat) by lia.
  exact (proj1 (proj2 (proj2
    (run_warm_up_is_idle sample_config always_buy take_profit_frame 19 Hn)))).
Defined.

Section EquityRecords.

Variable cfg : Config.
Variable gen : list Bar -> option Signal.

Lemma before_update_records (st : Engine) (data : list Bar) (bar : Bar) :
  daily_equity (before_update cfg gen st data bar) = daily_equity st /\
  daily_returns (before_update cfg gen st data bar) = daily_returns st.
Proof.
  unfold before_update.
  destruct (length data <? 20)%nat; [split; reflexivity|].
  unfold after_signal_check, after_stop_check, _execute_trading_logic, _execute_trade.
  destruct (gen data) as [sig|];
    repeat match goal with
           | |- context [match ?x with _ => _ end] => destruct x eqn:?
           end;
    rewrite ?_execute_buy_unfold; unfold _execute_sell;
    repeat match goal with
           | |- context [match ?x with _ => _ end] => destruct x eqn:?
           | |- context [if ?b then _ else _] => destruct b eqn:?
           end; split; reflexivity.
Qed.

Lemma process_bar_before_update (st : Engine) (data : list Bar) (bar : Bar) :
  process_bar cfg gen st data bar =
    _update_daily_equity (before_update cfg gen st data bar) (bar_date bar) (close_price bar).
Proof.
  rewrite process_bar_unfold. unfold before_update.
  destruct (length data <? 20)%nat; reflexivity.
Qed.

Lemma _update_daily_equity_python_floats (st : Engine) (date : IndexEntry) (price : Q) :
  python_floats (state_of (_update_daily_equity st date price)) = python_floats st.
Proof.
  unfold python_floats.
  rewrite _update_daily_equity_trades, _update_daily_equity_position.
  destruct (current_position st); reflexivity.
Qed.

(** One bar: an equity point is appended whatever happens, and a daily
    return as well unless the division raises. *)
Lemma process_bar_records (st : Engine) (data : list Bar) (bar : Bar) :
  exists e,
    daily_equity (state_of (process_bar cfg gen st data bar)) = daily_equity st ++ [e] /\
    eq_date e = bar_date bar /\
    equity e = eq_cash e + eq_position_value e /\
    eq_cash e = current_capital (state_of (process_bar cfg gen st data bar)) /\
    eq_position_value e
      = match current_position (state_of (process_bar cfg gen st data bar)) with
        | Some pos => market_value pos
        | None => 0
        end /\
    match iloc_last (daily_equity st) with
    | None =>
        process_bar cfg gen st data bar = Returned (state_of (process_bar cfg gen st data bar))
        /\ daily_returns (state_of (process_bar cfg gen st data bar))
           = daily_returns st ++ [Fin 0]
    | Some prev =>
        (equity prev == 0 ->
         python_floats (state_of (process_bar cfg gen st data bar)) = true ->
         process_bar cfg gen st data bar = Raises (state_of (process_bar cfg gen st data bar))
         /\ daily_returns (state_of (process_bar cfg gen st data bar)) = daily_returns st) /\
        (~ equity prev == 0 \/
         python_floats (state_of (process_bar cfg gen st data bar)) = false ->
         process_bar cfg gen st data bar = Returned (state_of (process_bar cfg gen st data bar))
         /\ daily_returns (state_of (process_bar cfg gen st data bar))
            = daily_returns st ++ [fdiv (equity e - equity prev) (equity prev)])
    end.
Proof.
  rewrite process_bar_before_update.
  destruct (before_update_records st data bar) as [He Hr].
  set (st' := before_update cfg gen st data bar) in *.
  rewrite _update_daily_equity_python_floats.
  unfold _update_daily_equity. rewrite He, Hr.
  destruct (iloc_last (daily_equity st)) as [prev|].
  - destruct (Qeq_bool (equity prev) 0) eqn:E;
      [apply Qeq_bool_iff in E | apply Qeq_bool_neq in E];
      destruct (python_floats st') eqn:Ef; cbn [andb state_of];
      eexists; cbn [daily_equity current_capital current_position daily_returns];
      (split; [reflexivity|]); cbn [eq_date equity eq_cash eq_position_value];
      (split; [reflexivity|]); (split; [reflexivity|]); (split; [reflexivity|]);
      (split; [destruct (current_position st'); reflexivity|]);
      (split; [intros Hz Hpy | intros [Hz | Hpy]]);
      try contradiction; try discriminate; split; reflexivity.
  - cbn [state_of].
    eexists; cbn [daily_equity current_capital current_position daily_returns].
    split; [reflexivity|]. cbn [eq_date equity eq_cash eq_position_value].
    split; [reflexivity|]. split; [reflexivity|]. split; [reflexivity|].
    split; [destruct (current_position st'); reflexivity|].
    split; reflexivity.
Qed.

Lemma _execute_buy_quiet (st : Engine) (date : IndexEntry) (p s : Q) (r : string) :
  _execute_buy cfg st date p s r = st \/ trades (_execute_buy cfg st date p s r) <> [].
Proof.
  rewrite _execute_buy_unfold.
  repeat match goal with
         | |- context [if ?b then _ else _] => destruct b; [now left|]
         end.
  right. cbn [trades]. intro H. now apply app_eq_nil in H.
Qed.

Lemma _execute_sell_quiet (st : Engine) (date : IndexEntry) (p s : Q) (r : string) :
  _execute_sell cfg st date p s r = st \/ trades (_execute_sell cfg st date p s r) <> [].
Proof.
  unfold _execute_sell. destruct (current_position st) as [pos|]; [|now left].
  destruct (sell_volume_of (pos_volume pos) s <? 100)%Z; [now left|].
  right. cbn [trades]. intro H. now apply app_eq_nil in H.
Qed.

Lemma _execute_trading_logic_quiet (st : Engine) (date : IndexEntry) (p : Q)
    (sig : Signal) :
  _execute_trading_logic cfg st date p sig = st \/
  trades (_execute_trading_logic cfg st date p sig) <> [].
Proof.
  unfold _execute_trading_logic.
  destruct (signal_type sig), (current_position st);
    try (now left); first [apply _execute_buy_quiet | apply _execute_sell_quiet].
Qed.

(** A bar that leaves the log empty has left the engine alone. *)
Lemma before_update_quiet (st : Engine) (data : list Bar) (bar : Bar) :
  before_update cfg gen st data bar = st \/
  trades (before_update cfg gen st data bar) <> [].
Proof.
  unfold before_update. destruct (length data <? 20)%nat; [now left|].
  unfold after_signal_check.
  assert (Hstop : after_stop_check cfg st bar = st \/
                  trades (after_stop_check cfg st bar) <> []).
  { unfold after_stop_check. destruct (current_position st); [|now left].
    destruct (_check_stop_conditions cfg st (close_price bar)); [|now left].
    unfold _execute_trade.
    destruct (String.eqb _ _ || String.eqb _ _)%bool; [|now left].
    apply _execute_sell_quiet. }
  destruct (gen data) as [sig|]; [|exact Hstop].
  destruct (_execute_trading_logic_quiet (after_stop_check cfg st bar) (bar_date bar)
              (close_price bar) sig) as [Hq | Hq]; [|now right].
  rewrite Hq. exact Hstop.
Qed.

Lemma process_bar_untraded_books (st : Engine) (data : list Bar) (bar : Bar) :
  untraded_books cfg st ->
  untraded_books cfg (state_of (process_bar cfg gen st data bar)) /\
  (~ initial_capital cfg == 0 -> raised (process_bar cfg gen st data bar) = false).
Proof.
  intro Hst. rewrite process_bar_before_update.
  assert (Hquiet : python_floats (before_update cfg gen st data bar) = true ->
                   before_update cfg gen st data bar = st).
  { intro Hpy. destruct (before_update_quiet st data bar) as [Hq | Hq]; [exact Hq|].
    unfold python_floats in Hpy.
    destruct (trades (before_update cfg gen st data bar)); [now contradiction Hq|].
    discriminate Hpy. }
  set (st' := before_update cfg gen st data bar) in *.
  split.
  - intro Hpy. rewrite _update_daily_equity_python_floats in Hpy.
    pose proof (Hquiet Hpy) as Heq. clearbody st'. subst st'.
    destruct (Hst Hpy) as [Hc He].
    destruct (_update_daily_equity_state st (bar_date bar) (close_price bar))
      as [-> [_ [_ ->]]].
    split; [exact Hc|]. apply Forall_app. split; [exact He|].
    constructor; [|constructor]. cbn [equity].
    unfold python_floats in Hpy. destruct (trades st); [|discriminate].
    destruct (current_position st); [discriminate|]. rewrite Hc. lra.
  - intro Hcap. unfold _update_daily_equity.
    destruct (iloc_last (daily_equity st')) as [prev|] eqn:Eprev; [|reflexivity].
    destruct (Qeq_bool (equity prev) 0 && python_floats st') eqn:E; [|reflexivity].
    exfalso. apply andb_true_iff in E. destruct E as [Ez Hpy].
    apply Qeq_bool_iff in Ez.
    pose proof (Hquiet Hpy) as Heq. clearbody st'. subst st'.
    destruct (Hst Hpy) as [_ He].
    assert (Hin : In prev (daily_equity st)).
    { apply in_rev. revert Eprev. unfold iloc_last.
      destruct (rev (daily_equity st)); [discriminate|].
      intro H. injection H as <-. now left. }
    pose proof (proj1 (Forall_forall _ _) He prev Hin) as Hp. cbn in Hp.
    apply Hcap. lra.
Qed.

Lemma backtest_loop_untraded_books (df rest : list Bar) :
  forall i st, untraded_books cfg st ->
    untraded_books cfg (state_of (backtest_loop cfg gen df rest i st)) /\
    (~ initial_capital cfg == 0 -> raised (backtest_loop cfg gen df rest i st) = false).
Proof.
  induction rest as [|b rest IH]; intros i st Hst.
  - split; [exact Hst | reflexivity].
  - cbn [backtest_loop].
    destruct (process_bar_untraded_books st (firstn (S i) df) b Hst) as [H1 H2].
    destruct (process_bar cfg gen st (firstn (S i) df) b) as [st' | st'].
    + apply IH. exact H1.
    + split; [exact H1 | exact H2].
Qed.

(** Only an engine created without capital can raise: with a non-zero
    initial capital no equity recorded before the first order is zero. *)
Lemma run_raises_only_without_capital (df : list Bar) (n : nat) :
  ~ initial_capital cfg == 0 -> raised (outcome_after cfg gen df n) = false.
Proof.
  intro Hcap. unfold outcome_after.
  apply backtest_loop_untraded_books; [|exact Hcap].
  intros _. split; [reflexivity | constructor].
Qed.

(** Without capital the second bar raises. *)
Lemma run_without_capital_raises (b1 b2 : Bar) (rest : list Bar) (n : nat) :
  initial_capital cfg == 0 -> (2 <= n)%nat ->
  raised (outcome_after cfg gen (b1 :: b2 :: rest) n) = true /\
  length (daily_equity (state_after cfg gen (b1 :: b2 :: rest) n)) = 2%nat /\
  daily_returns (state_after cfg gen (b1 :: b2 :: rest) n) = [Fin 0].
Proof.
  intros Hcap Hn. unfold state_after, outcome_after.
  destruct n as [|[|n]]; [lia | lia |].
  change (firstn (S (S n)) (b1 :: b2 :: rest)) with (b1 :: b2 :: firstn n rest).
  cbn -[Qeq_bool Qplus Qminus Qdiv Qmult fdiv].
  replace (Qeq_bool (initial_capital cfg + 0) 0) with true
    by (symmetry; apply Qeq_bool_iff; lra).
  cbn -[Qeq_bool Qplus Qminus Qdiv Qmult fdiv]. repeat split.
Qed.

End EquityRecords.

(** X6: Every bar a run reaches appends exactly one equity point, which
    carries the bar's index entry and whose equity is the cash plus the
    position's market value as they stand once the bar is processed. It
    appends one daily return as well, 0 at the first bar and afterwards the
    relative change of the equity, with one exception: when the equity
    recorded last is zero and no order has been executed yet, the division
    raises, no return is appended and the run ends there. After an order
    the books hold numpy floats and a zero equity gives an infinite or
    undefined return instead. A run with a non-zero initial capital never
    raises. *)
Theorem bar_records_one_equity_point (cfg : Config) (gen : list Bar -> option Signal)
    (df : list Bar) (n : nat) (bar : Bar) :
  nth_error df n = Some bar ->
  raised (outcome_after cfg gen df n) = false ->
  (exists e,
    daily_equity (state_after cfg gen df (S n))
      = daily_equity (state_after cfg gen df n) ++ [e] /\
    eq_date e = bar_date bar /\
    equity e
      = current_capital (state_after cfg gen df (S n))
        + match current_position (state_after cfg gen df (S n)) with
          | Some pos => market_value pos
          | None => 0
          end /\
    match iloc_last (daily_equity (state_after cfg gen df n)) with
    | None =>
        raised (outcome_after cfg gen df (S n)) = false /\
        daily_returns (state_after cfg gen df (S n))
          = daily_returns (state_after cfg gen df n) ++ [Fin 0]
    | Some prev =>
        (~ equity prev == 0 ->
         raised (outcome_after cfg gen df (S n)) = false /\
         daily_returns (state_after cfg gen df (S n))
           = daily_returns (state_after cfg gen df n)
             ++ [Fin ((equity e - equity prev) / equity prev)]) /\
        (equity prev == 0 -> trades (state_after cfg gen df (S n)) = [] ->
         current_position (state_after cfg gen df (S n)) = None ->
         raised (outcome_after cfg gen df (S n)) = true /\
         daily_returns (state_after cfg gen df (S n))
           = daily_returns (state_after cfg gen df n) /\
         forall m, (S n <= m)%nat ->
                   state_after cfg gen df m = state_after cfg gen df (S n)) /\
        (equity prev == 0 ->
         trades (state_after cfg gen df (S n)) <> [] \/
         current_position (state_after cfg gen df (S n)) <> None ->
         raised (outcome_after cfg gen df (S n)) = false /\
         daily_returns (state_after cfg gen df (S n))
           = daily_returns (state_after cfg gen df n)
             ++ [fdiv (equity e - equity prev) (equity prev)])
    end) /\
  (~ initial_capital cfg == 0 -> raised (outcome_after cfg gen df (S n)) = false).
Proof.
  intros Hbar Hrun.
  split; [|intro Hcap; now apply run_raises_only_without_capital].
  pose proof (state_after_S cfg gen df n bar Hbar Hrun) as Hstep.
  destruct (process_bar_records cfg gen (state_after cfg gen df n) (firstn (S n) df) bar)
    as [e [He [Hd [Hsum [Hc [Hv Hr]]]]]].
  assert (HS : state_after cfg gen df (S n)
               = state_of (process_bar cfg gen (state_after cfg gen df n)
                             (firstn (S n) df) bar)).
  { unfold state_after at 1. now rewrite Hstep. }
  rewrite HS, Hstep.
  exists e. split; [exact He|]. split; [exact Hd|].
  split; [rewrite Hsum, Hc, Hv; reflexivity|].
  destruct (iloc_last (daily_equity (state_after cfg gen df n))) as [prev|].
  - destruct Hr as [Hzero Hnz]. split; [|split].
    + intro Hz. destruct (Hnz (or_introl Hz)) as [Hreturn Hret].
      split; [now rewrite Hreturn|]. rewrite Hret. do 2 f_equal.
      unfold fdiv. destruct (Qeq_bool (equity prev) 0) eqn:E; [|reflexivity].
      apply Qeq_bool_iff in E. contradiction.
    + intros Hz Ht Hp.
      assert (Hpy : python_floats
                      (state_of (process_bar cfg gen (state_after cfg gen df n)
                                   (firstn (S n) df) bar)) = true)
        by (unfold python_floats; now rewrite Ht, Hp).
      destruct (Hzero Hz Hpy) as [Hraise Hret].
      split; [now rewrite Hraise|]. split; [exact Hret|].
      intros m Hm. rewrite <- HS. unfold state_after.
      rewrite (raised_stays cfg gen df (S n) m Hm); [reflexivity|].
      rewrite Hstep, Hraise. reflexivity.
    + intros Hz Hnp.
      assert (Hpy : python_floats
                      (state_of (process_bar cfg gen (state_after cfg gen df n)
                                   (firstn (S n) df) bar)) = false).
      { unfold python_floats.
        destruct (trades _); [|reflexivity].
        destruct (current_position _); [reflexivity|].
        destruct Hnp as [Hnp | Hnp]; now contradiction Hnp. }
      destruct (Hnz (or_intror Hpy)) as [Hreturn Hret].
      split; [now rewrite Hreturn | exact Hret].
  - destruct Hr as [Hreturn Hret]. split; [now rewrite Hreturn | exact Hret].
Qed.

Lemma bar_records_one_equity_point_witness :
  exists e,
    daily_equity (state_after sample_config always_buy keyed_take_profit_frame 21)
      = daily_equity (state_after sample_config always_buy keyed_take_profit_frame 20)
        ++ [e] /\
    eq_date e = DateKey 20240121.
Proof.
  assert (Hbar : nth_error keyed_take_profit_frame 20 = Some (mkBar (DateKey 20240121) 11))
    by (vm_compute; reflexivity).
  assert (Hrun : raised (outcome_after sample_config always_buy keyed_take_profit_frame 20)
                 = false)
    by (vm_compute; reflexivity).
  destruct (bar_records_one_equity_point sample_config always_buy keyed_take_profit_frame
              20 (mkBar (DateKey 20240121) 11) Hbar Hrun) as [[e [He [Hd _]]] _].
  exists e. split; [exact He | exact Hd].
Defined.

(** ** Exits *)

Section Exits.

Variable cfg : Config.

(** Below strength 0.8 a sell leaves part of the position open, at its
    entry price. *)
Lemma _execute_sell_partial (st : Engine) (date : IndexEntry) (p s : Q) (r : string)
    (pos : Position) :
  current_position st = Some pos ->
  whole_lots (pos_volume pos) ->
  s < 8 # 10 ->
  exists pos',
    current_position (_execute_sell cfg st date p s r) = Some pos' /\
    avg_price pos' = avg_price pos /\
    (100 <= pos_volume pos' <= pos_volume pos)%Z.
Proof.
  intros Hpos [k [Hk Hv]] Hs. unfold _execute_sell. rewrite Hpos.
  destruct (sell_volume_of (pos_volume pos) s <? 100)%Z eqn:Ev.
  - exists pos. rewrite Hpos. repeat split; lia.
  - apply Z.ltb_ge in Ev. cbn [current_position].
    assert (Hlt : (sell_volume_of (pos_volume pos) s < pos_volume pos)%Z).
    { rewrite Hv. destruct (Qlt_le_dec s (5 # 10)) as [Hweak | Hhalf].
      - rewrite sell_volume_of_weak by (lia || exact Hweak).
        assert (33 * k / 100 < k)%Z by (apply Z.div_lt_upper_bound; lia). lia.
      - rewrite sell_volume_of_half by (lia || assumption).
        assert (k / 2 < k)%Z by (apply Z.div_lt_upper_bound; lia). lia. }
    replace (sell_volume_of (pos_volume pos) s =? pos_volume pos)%Z with false
      by (symmetry; apply Z.eqb_neq; lia).
    eexists. split; [reflexivity|]. cbn [avg_price pos_volume].
    assert (Hmult : exists j, sell_volume_of (pos_volume pos) s = (100 * j)%Z).
    { unfold sell_volume_of. eexists. apply Z.mul_comm. }
    destruct Hmult as [j Hj]. rewrite Hj in *. rewrite Hv in *.
    repeat split; lia.
Qed.

Variable gen : list Bar -> option Signal.

(** A bar on which the stop policy does not trigger, with signals below
    0.8, keeps the position open. *)
Lemma process_bar_keeps_position (st : Engine) (data : list Bar) (bar : Bar)
    (pos : Position) :
  below_full_exit gen ->
  current_position st = Some pos ->
  whole_lots (pos_volume pos) ->
  _check_stop_conditions cfg st (close_price bar) = None ->
  exists pos',
    current_position (state_of (process_bar cfg gen st data bar)) = Some pos' /\
    avg_price pos' = avg_price pos /\
    (100 <= pos_volume pos' <= pos_volume pos)%Z.
Proof.
  intros Hgen Hpos Hlots Hstop.
  assert (Hupd : forall st' q,
            current_position st' = Some q -> avg_price q = avg_price pos ->
            (100 <= pos_volume q <= pos_volume pos)%Z ->
            exists pos',
              current_position
                (state_of (_update_daily_equity st' (bar_date bar) (close_price bar)))
                = Some pos' /\
              avg_price pos' = avg_price pos /\
              (100 <= pos_volume pos' <= pos_volume pos)%Z).
  { intros st' q Hq Ha Hv. rewrite _update_daily_equity_position, Hq.
    cbn [mark_to_market].
    eexists. split; [reflexivity|]. cbn [avg_price pos_volume]. split; assumption. }
  assert (Hself : (100 <= pos_volume pos <= pos_volume pos)%Z).
  { destruct Hlots as [k [Hk Hv]]. lia. }
  rewrite process_bar_unfold.
  destruct (length data <? 20)%nat; [now apply (Hupd st pos)|].
  assert (Hstay : after_stop_check cfg st bar = st).
  { unfold after_stop_check. now rewrite Hpos, Hstop. }
  unfold after_signal_check. rewrite Hstay.
  destruct (gen data) as [sig|] eqn:Esig; [|now apply (Hupd st pos)].
  unfold _execute_trading_logic. rewrite Hpos.
  destruct (signal_type sig); try (now apply (Hupd st pos)).
  all: destruct (_execute_sell_partial st (bar_date bar) (close_price bar)
                   (signal_strength sig) (signal_reason sig) pos Hpos Hlots
                   (Hgen data sig Esig)) as [q [Hq [Ha Hv]]];
    now apply (Hupd _ q).
Qed.

Lemma state_after_keeps_position (df : list Bar) (n : nat) (bar : Bar) (pos : Position) :
  below_full_exit gen ->
  nth_error df n = Some bar ->
  current_position (state_after cfg gen df n) = Some pos ->
  _check_stop_conditions cfg (state_after cfg gen df n) (close_price bar) = None ->
  exists pos',
    current_position (state_after cfg gen df (S n)) = Some pos' /\
    avg_price pos' = avg_price pos /\
    (100 <= pos_volume pos' <= pos_volume pos)%Z.
Proof.
  intros Hgen Hbar Hpos Hstop.
  assert (Hlots : whole_lots (pos_volume pos)).
  { pose proof (state_after_lots_ok cfg gen df n) as H.
    unfold lots_ok in H. now rewrite Hpos in H. }
  destruct (state_after_step cfg gen df n bar Hbar) as [-> | ->].
  - exists pos. split; [exact Hpos|]. split; [reflexivity|].
    destruct Hlots as [k [Hk Hv]]. lia.
  - now apply process_bar_keeps_position.
Qed.

End Exits.

(** X7: With a signal source whose strengths stay below 0.8, a run closes a
    position only through the stop policy: at a bar where neither stop_loss
    nor take_profit triggers, an open position stays open at the same entry
    price, with at least one lot left. *)
Theorem position_closed_only_by_stop_policy (cfg : Config)
    (gen : list Bar -> option Signal) (df : list Bar) (n : nat) (bar : Bar)
    (pos : Position) :
  below_full_exit gen ->
  nth_error df n = Some bar ->
  current_position (state_after cfg gen df n) = Some pos ->
  _check_stop_conditions cfg (state_after cfg gen df n) (close_price bar) = None ->
  exists pos',
    current_position (state_after cfg gen df (S n)) = Some pos' /\
    avg_price pos' = avg_price pos /\
    (100 <= pos_volume pos' <= pos_volume pos)%Z.
Proof.
  intros Hgen Hbar Hpos Hstop.
  exact (state_after_keeps_position cfg gen df n bar pos Hgen Hbar Hpos Hstop).
Qed.

Lemma buy_then_sell_below_full_exit : below_full_exit buy_then_sell.
Proof.
  intros data sig. unfold buy_then_sell.
  destruct (length data =? 20)%nat; intro H; injection H as <-; reflexivity.
Qed.

Lemma position_closed_only_by_stop_policy_witness :
  exists pos',
    current_position (state_after sample_config buy_then_sell level_frame 21) = Some pos' /\
    avg_price pos' = 10.
Proof.
  assert (Hbar : nth_error level_frame 20 = Some (mkBar (Moment 20) 10))
    by (vm_compute; reflexivity).
  assert (Hpos : current_position (state_after sample_config buy_then_sell level_frame 20)
                 = Some {| pos_volume := 2100; avg_price := 10; market_value := 21000;
                           unrealized_pnl := 0; realized_pnl := 0 |})
    by (vm_compute; reflexivity).
  assert (Hstop : _check_stop_conditions sample_config
                    (state_after sample_config buy_then_sell level_frame 20)
                    (close_price (mkBar (Moment 20) 10)) = None)
    by (vm_compute; reflexivity).
  destruct (position_closed_only_by_stop_policy sample_config buy_then_sell level_frame
              20 (mkBar (Moment 20) 10) _ buy_then_sell_below_full_exit Hbar Hpos Hstop)
    as [pos' [Hpos' [Havg _]]].
  exists pos'. split; [exact Hpos' | exact Havg].
Defined.

(** ** The technical analyzer *)

Ltac split_ifs :=
  repeat match goal with
         | |- context [if ?b then _ else _] => destruct b
         end.

Lemma _analyze_ma_signals_strength (latest prev : IndicatorRow) :
  0 <= sub_strength (_analyze_ma_signals latest prev) /\
  sub_strength (_analyze_ma_signals latest prev) <= 8 # 10.
Proof.
  unfold _analyze_ma_signals. cbv zeta. split_ifs;
    cbn [sub_strength fst snd]; split; lra.
Qed.

Lemma _analyze_rsi_signals_strength (scfg : StrategyConfig) (latest prev : IndicatorRow) :
  0 <= sub_strength (_analyze_rsi_signals scfg latest prev) /\
  sub_strength (_analyze_rsi_signals scfg latest prev) <= 7 # 10.
Proof.
  unfold _analyze_rsi_signals. cbv zeta. split_ifs;
    cbn [sub_strength fst snd]; split; lra.
Qed.

Lemma _analyze_macd_signals_strength (latest prev : IndicatorRow) :
  0 <= sub_strength (_analyze_macd_signals latest prev) /\
  sub_strength (_analyze_macd_signals latest prev) <= 6 # 10.
Proof.
  unfold _analyze_macd_signals. cbv zeta. split_ifs;
    cbn [sub_strength fst snd]; split; lra.
Qed.

Lemma _analyze_bollinger_signals_strength (latest : IndicatorRow) :
  0 <= sub_strength (_analyze_bollinger_signals latest) /\
  sub_strength (_analyze_bollinger_signals latest) <= 6 # 10.
Proof.
  unfold _analyze_bollinger_signals. cbv zeta. split_ifs;
    cbn [sub_strength fst snd]; split; lra.
Qed.

Lemma _analyze_volume_signals_strength (scfg : StrategyConfig) (latest prev : IndicatorRow) :
  0 <= sub_strength (_analyze_volume_signals scfg latest prev) /\
  sub_strength (_analyze_volume_signals scfg latest prev) <= 4 # 10.
Proof.
  unfold _analyze_volume_signals. cbv zeta. split_ifs;
    cbn [sub_strength fst snd]; split; lra.
Qed.

Lemma trend_strength_bounds (scfg : StrategyConfig) (latest prev : IndicatorRow) :
  0 <= trend_strength (trend_sub_signals scfg latest prev) /\
  trend_strength (trend_sub_signals scfg latest prev) <= 66 # 100.
Proof.
  unfold trend_strength, trend_sub_signals, trend_weights.
  cbn [combine fold_left fst snd].
  pose proof (_analyze_ma_signals_strength latest prev).
  pose proof (_analyze_rsi_signals_strength scfg latest prev).
  pose proof (_analyze_macd_signals_strength latest prev).
  pose proof (_analyze_bollinger_signals_strength latest).
  pose proof (_analyze_volume_signals_strength scfg latest prev).
  split; lra.
Qed.

Lemma analyze_trend_rows_strength (scfg : StrategyConfig) (rows : list IndicatorRow) :
  0 <= trend_answer_strength (analyze_trend_rows scfg rows) /\
  trend_answer_strength (analyze_trend_rows scfg rows) <= 66 # 100.
Proof.
  unfold analyze_trend_rows. destruct (rev rows) as [|latest before].
  - cbn. split; lra.
  - cbn [trend_answer_strength]. apply trend_strength_bounds.
Qed.

(** X8: The strength the technical analyzer reports is never negative and never
    above 0.66, whatever the indicators: the five sub-analyzers answer at
    most 0.8, 0.7, 0.6, 0.6 and 0.4, weighted 0.30, 0.20, 0.25, 0.15, 0.10. *)
Theorem analyze_trend_strength_at_most_066 (scfg : StrategyConfig)
    (rows : list IndicatorRow) :
  0 <= trend_answer_strength (analyze_trend_rows scfg rows) /\
  trend_answer_strength (analyze_trend_rows scfg rows) <= 66 # 100 /\
  (forall latest prev,
     sub_strength (_analyze_ma_signals latest prev) <= 8 # 10 /\
     sub_strength (_analyze_rsi_signals scfg latest prev) <= 7 # 10 /\
     sub_strength (_analyze_macd_signals latest prev) <= 6 # 10 /\
     sub_strength (_analyze_bollinger_signals latest) <= 6 # 10 /\
     sub_strength (_analyze_volume_signals scfg latest prev) <= 4 # 10).
Proof.
  destruct (analyze_trend_rows_strength scfg rows) as [H0 H1].
  split; [exact H0|]. split; [exact H1|].
  intros latest prev. repeat split.
  - apply _analyze_ma_signals_strength.
  - apply _analyze_rsi_signals_strength.
  - apply _analyze_macd_signals_strength.
  - apply _analyze_bollinger_signals_strength.
  - apply _analyze_volume_signals_strength.
Qed.

Lemma _generate_signal_technical_below_full_exit (scfg : StrategyConfig)
    (indicators : list Bar -> option (list IndicatorRow))
    (render : TrendAnswer -> string) :
  below_full_exit (_generate_signal_technical scfg indicators render).
Proof.
  intros data sig. unfold _generate_signal_technical.
  destruct (iloc_last data) as [bar|]; [|discriminate].
  intro H. injection H as <-. cbn [signal_strength].
  destruct (indicators data) as [rows|].
  - pose proof (analyze_trend_rows_strength scfg rows). lra.
  - cbn. reflexivity.
Qed.

(** X9: In a backtest driven by the technical analyzer no sell signal ever
    closes a position: the analyzer's strength stays below the 0.8 that
    [_execute_sell] needs to sell everything, so at any bar where neither
    stop_loss nor take_profit triggers an open position stays open. *)
Theorem technical_backtest_exits_only_by_stops (cfg : Config) (scfg : StrategyConfig)
    (indicators : list Bar -> option (list IndicatorRow))
    (render : TrendAnswer -> string) (df : list Bar) (n : nat) (bar : Bar)
    (pos : Position) :
  let gen := _generate_signal_technical scfg indicators render in
  nth_error df n = Some bar ->
  current_position (state_after cfg gen df n) = Some pos ->
  _check_stop_conditions cfg (state_after cfg gen df n) (close_price bar) = None ->
  exists pos',
    current_position (state_after cfg gen df (S n)) = Some pos' /\
    avg_price pos' = avg_price pos /\
    (100 <= pos_volume pos' <= pos_volume pos)%Z.
Proof.
  intros gen Hbar Hpos Hstop.
  exact (state_after_keeps_position cfg gen df n bar pos
           (_generate_signal_technical_below_full_exit scfg indicators render)
           Hbar Hpos Hstop).
Qed.

Lemma technical_backtest_exits_only_by_stops_witness :
  exists pos',
    current_position
      (state_after sample_config
         (_generate_signal_technical sample_strategy_config crossing_indicators plain_render)
         level_frame 21) = Some pos' /\
    avg_price pos' = 10.
Proof.
  assert (Hbar : nth_error level_frame 20 = Some (mkBar (Moment 20) 10))
    by (vm_compute; reflexivity).
  assert (Hpos : current_position
                   (state_after sample_config
                      (_generate_signal_technical sample_strategy_config
                         crossing_indicators plain_render) level_frame 20)
                 = Some {| pos_volume := 1100; avg_price := 10; market_value := 11000;
                           unrealized_pnl := 0; realized_pnl := 0 |})
    by (vm_compute; reflexivity).
  assert (Hstop : _check_stop_conditions sample_config
                    (state_after sample_config
                       (_generate_signal_technical sample_strategy_config
                          crossing_indicators plain_render) level_frame 20)
                    (close_price (mkBar (Moment 20) 10)) = None)
    by (vm_compute; reflexivity).
  destruct (technical_backtest_exits_only_by_stops sample_config sample_strategy_config
              crossing_indicators plain_render level_frame 20 (mkBar (Moment 20) 10) _
              Hbar Hpos Hstop) as [pos' [Hpos' [Havg _]]].
  exists pos'. split; [exact Hpos' | exact Havg].
Defined.

(** X10: The tally of [_combine_signals]: only plain BUY and SELL votes count.
    The answer is on the buy side only when BUY votes strictly outnumber
    SELL votes, on the sell side only when SELL votes strictly outnumber BUY
    votes, strong exactly when the strength reaches 0.6 and the votes are
    not tied, and HOLD on a tie or under strength 0.3. *)
Theorem _combine_signals_majority (signals : list SignalType) (strength : Q) :
  let r := _combine_signals signals strength in
  let buys := count_signal BUY signals in
  let sells := count_signal SELL signals in
  (r = BUY \/ r = STRONG_BUY -> (sells < buys)%nat /\ 3 # 10 <= strength) /\
  (r = SELL \/ r = STRONG_SELL -> (buys < sells)%nat /\ 3 # 10 <= strength) /\
  (r = STRONG_BUY \/ r = STRONG_SELL <-> 6 # 10 <= strength /\ buys <> sells) /\
  (buys = sells -> r = HOLD) /\
  (strength < 3 # 10 -> r = HOLD).
Proof.
  cbv zeta. unfold _combine_signals.
  destruct (Qle_bool (6 # 10) strength) eqn:E6;
    [apply Qle_bool_iff in E6 | apply Qle_bool_false_iff in E6];
    (destruct (Qle_bool (3 # 10) strength) eqn:E3;
     [apply Qle_bool_iff in E3 | apply Qle_bool_false_iff in E3]);
    (destruct (count_signal SELL signals <? count_signal BUY signals)%nat eqn:Eb;
     [apply Nat.ltb_lt in Eb | apply Nat.ltb_ge in Eb]);
    (destruct (count_signal BUY signals <? count_signal SELL signals)%nat eqn:Es;
     [apply Nat.ltb_lt in Es | apply Nat.ltb_ge in Es]);
    try (exfalso; lia); try (exfalso; lra);
    repeat split; intros;
    repeat match goal with
           | H : _ \/ _ |- _ => destruct H
           | H : _ /\ _ |- _ => destruct H
           end;
    try discriminate; try reflexivity; try lia; try lra;
    try (left; reflexivity); try (right; reflexivity).
Qed.

Lemma rev_head_is_last {A : Type} (l : list A) (d : A) :
  match rev l with p :: _ => p | [] => d end = last l d.
Proof.
  destruct l as [|x l] using rev_ind; [reflexivity|].
  rewrite rev_app_distr, last_last. reflexivity.
Qed.

(** X11: On a row whose rolling indicators are not available yet (a moving
    average, the RSI, a band and the volume average all missing) only the
    MACD sub-analyzer can contribute: the technical analyzer's strength is a
    quarter of the MACD sub-strength, so at most 0.15 and 0 when the MACD
    sub-signal is HOLD, and its answer is HOLD. *)
Theorem analyze_trend_without_indicators (scfg : StrategyConfig)
    (earlier : list IndicatorRow) (latest : IndicatorRow) :
  isna (sma_short latest) || isna (sma_long latest) = true ->
  isna (row_rsi latest) = true ->
  isna (bb_upper latest) || isna (bb_lower latest) = true ->
  isna (row_volume_sma latest) = true ->
  let answer := analyze_trend_rows scfg (earlier ++ [latest]) in
  let macd_part := _analyze_macd_signals latest (last earlier latest) in
  trend_signal answer = HOLD /\
  trend_answer_strength answer == (25 # 100) * sub_strength macd_part /\
  trend_answer_strength answer <= 15 # 100 /\
  (sub_signal macd_part = HOLD -> trend_answer_strength answer == 0).
Proof.
  intros Hma Hrsi Hbb Hvol. cbv zeta.
  unfold analyze_trend_rows. rewrite rev_app_distr. cbn [rev app].
  rewrite rev_head_is_last.
  set (prev := last earlier latest).
  pose proof (_analyze_macd_signals_strength latest prev) as [Hlo Hhi].
  assert (Hhold : sub_signal (_analyze_macd_signals latest prev) = HOLD ->
                  sub_strength (_analyze_macd_signals latest prev) == 0).
  { unfold _analyze_macd_signals. cbv zeta. split_ifs;
      cbn [sub_signal sub_strength fst snd]; intro H;
      first [discriminate H | reflexivity]. }
  unfold trend_sub_signals, _analyze_ma_signals, _analyze_rsi_signals,
    _analyze_bollinger_signals, _analyze_volume_signals.
  rewrite Hma, Hrsi, Hbb, Hvol.
  set (macd_part := _analyze_macd_signals latest prev) in *.
  cbn [trend_signal trend_answer_strength map].
  unfold trend_strength, trend_weights. cbn [combine fold_left fst snd sub_strength].
  fold (sub_strength macd_part).
  assert (Hs : 0 + 0 * (3 # 10) + 0 * (2 # 10) + sub_strength macd_part * (25 # 100)
               + 0 * (15 # 100) + 0 * (1 # 10)
               == (25 # 100) * sub_strength macd_part) by ring.
  split; [|split; [exact Hs | split; [lra | intro H; rewrite Hs, (Hhold H); reflexivity]]].
  unfold _combine_signals.
  destruct (Qle_bool (6 # 10) _) eqn:E6; [apply Qle_bool_iff in E6; lra|].
  destruct (Qle_bool (3 # 10) _) eqn:E3; [apply Qle_bool_iff in E3; lra|].
  reflexivity.
Qed.

Lemma analyze_trend_without_indicators_witness :
  trend_signal (analyze_trend_rows sample_strategy_config rising_pair_rows) = HOLD /\
  trend_answer_strength (analyze_trend_rows sample_strategy_config rising_pair_rows)
    == 15 # 100.
Proof.
  destruct (analyze_trend_without_indicators sample_strategy_config
              [early_row (Fin 10) (Fin 0) (Fin 0) (Fin 0) NaN]
              (early_row (Fin 11) (Fin (7 # 312)) (Fin (35 # 2808)) (Fin (7 # 702))
                 (Fin (1 # 10)))
              eq_refl eq_refl eq_refl eq_refl) as [Hsig [Hstr _]].
  split; [exact Hsig|].
  etransitivity; [exact Hstr|]. vm_compute. reflexivity.
Defined.

(** ** The momentum analyzer on short frames *)

(** X12: With at most ten bars the ten-bar momentum is undefined, and the
    momentum analyzer, called as a method, answers HOLD with strength 0.0:
    the error text on an empty frame, the unclear-momentum text otherwise. *)
Theorem analyze_momentum_at_most_ten_bars (df : list Bar) :
  (length df <= 10)%nat ->
  exists r, call_analyze_momentum df = Some (HOLD, 0, r) /\
            (df = [] -> r = R_error) /\
            (df <> [] -> exists c, r = R_unclear NaN c).
Proof.
  intro Hlen.
  do 11 (destruct df as [|? df];
         [eexists; split; [reflexivity|];
          split; [intro H; first [reflexivity | discriminate H]
                 | intro H; first [now contradiction H | eexists; reflexivity]]
         |]).
  cbn [length] in Hlen. lia.
Qed.

Lemma analyze_momentum_at_most_ten_bars_witness :
  exists r, call_analyze_momentum three_bar_frame = Some (HOLD, 0, r).
Proof.
  assert (Hlen : (length three_bar_frame <= 10)%nat) by (vm_compute; lia).
  destruct (analyze_momentum_at_most_ten_bars three_bar_frame Hlen) as [r [Hr _]].
  exists r. exact Hr.
Defined.

(** X13: Whatever the frame, the momentum analyzer's strength is 0.0 on HOLD, 0.6
    on BUY and SELL and 0.8 on the strong signals; and a buy-side answer
    needs the last close to be more than double the one before it (a
    fractional change above 1). *)
Theorem analyze_momentum_ladder (df : list Bar) :
  exists a, call_analyze_momentum df = Some a /\
    (analysis_signal a = HOLD -> snd (fst a) = 0) /\
    (analysis_signal a = BUY \/ analysis_signal a = SELL -> snd (fst a) = 6 # 10) /\
    (analysis_signal a = STRONG_BUY \/ analysis_signal a = STRONG_SELL
       -> snd (fst a) = 8 # 10) /\
    (analysis_signal a = BUY \/ analysis_signal a = STRONG_BUY ->
       exists chg c, price_change (map close_price df) 1 = Some chg /\
                     iloc_last chg = Some c /\ fgtq c 1 = true).
Proof.
  rewrite validate_data_skipped_on_method_call. eexists. split; [reflexivity|].
  unfold analyze_momentum_body.
  destruct (momentum (map close_price df) 10) as [mom|];
    [|cbn; repeat split; intros; repeat match goal with H : _ \/ _ |- _ => destruct H end;
      try discriminate; reflexivity].
  destruct (price_change (map close_price df) 1) as [chg|];
    [|cbn; repeat split; intros; repeat match goal with H : _ \/ _ |- _ => destruct H end;
      try discriminate; reflexivity].
  destruct (iloc_last mom) as [m|];
    [|cbn; repeat split; intros; repeat match goal with H : _ \/ _ |- _ => destruct H end;
      try discriminate; reflexivity].
  destruct (iloc_last chg) as [c|] eqn:Ec;
    [|cbn; repeat split; intros; repeat match goal with H : _ \/ _ |- _ => destruct H end;
      try discriminate; reflexivity].
  destruct (fgtq m 5 && fgtq c 2) eqn:E1.
  - cbn. repeat split; intros;
      repeat match goal with H : _ \/ _ |- _ => destruct H end;
      try discriminate; try reflexivity.
    exists chg, c. split; [reflexivity|]. split; [exact Ec|].
    apply andb_true_iff in E1. destruct E1 as [_ E1].
    destruct c; cbn [fgtq] in *; try discriminate; try reflexivity.
    apply Qlt_bool_iff in E1. apply Qlt_bool_iff. lra.
  - destruct (fgtq m 2 && fgtq c 1) eqn:E2.
    + cbn. repeat split; intros;
        repeat match goal with H : _ \/ _ |- _ => destruct H end;
        try discriminate; try reflexivity.
      exists chg, c. split; [reflexivity|]. split; [exact Ec|].
      apply andb_true_iff in E2. now destruct E2.
    + destruct (fltq m (-5) && fltq c (-2));
        [|destruct (fltq m (-2) && fltq c (-1))];
        cbn; repeat split; intros;
        repeat match goal with H : _ \/ _ |- _ => destruct H end;
        try discriminate; reflexivity.
Qed.

(** ** The intraday band analyzer *)

Lemma trailing_run_le (p : pyfloat -> bool) (l : list pyfloat) :
  (trailing_run p l <= length l)%nat.
Proof.
  induction l as [|x l IH]; cbn [trailing_run length]; [lia|].
  destruct (p x); lia.
Qed.

Lemma trailing_run_two (p : pyfloat -> bool) (l : list pyfloat) :
  (2 <= trailing_run p l)%nat ->
  exists a b rest, l = a :: b :: rest /\ p a = true /\ p b = true.
Proof.
  destruct l as [|a [|b rest]]; cbn [trailing_run].
  - lia.
  - destruct (p a); lia.
  - destruct (p a) eqn:Ea; [|lia]. destruct (p b) eqn:Eb; [|lia].
    intros _. now exists a, b, rest.
Qed.

Lemma tail5_length (histogram : list pyfloat) :
  (5 <= length histogram)%nat -> length (tail5 histogram) = 5%nat.
Proof.
  intro H. unfold tail5. rewrite length_skipn. lia.
Qed.

(** The run-length helper of the band analyzer answers HOLD with volume 0 on
    fewer than five histogram values or without a run; otherwise BUY or SELL
    with 100 shares per day of the run, between 200 and 500. BUY needs the
    two newest values negative and SELL the two newest positive. *)
Theorem _analyze_macd_consecutive_volume (histogram : list pyfloat) :
  let sig := fst (_analyze_macd_consecutive histogram) in
  let vol := snd (_analyze_macd_consecutive histogram) in
  ((length histogram < 5)%nat -> sig = HOLD /\ vol = 0%Z) /\
  (sig = HOLD <-> vol = 0%Z) /\
  (sig <> HOLD -> exists k, (2 <= k <= 5)%Z /\ vol = (k * 100)%Z) /\
  (sig = BUY ->
     exists newest before rest,
       rev histogram = newest :: before :: rest /\
       flt newest fzero = true /\ flt before fzero = true) /\
  (sig = SELL ->
     exists newest before rest,
       rev histogram = newest :: before :: rest /\
       fgt newest fzero = true /\ fgt before fzero = true) /\
  (sig = HOLD \/ sig = BUY \/ sig = SELL).
Proof.
  cbv zeta. unfold _analyze_macd_consecutive.
  destruct (length histogram <? 5)%nat eqn:E5.
  - cbn [fst snd]. repeat split; intros; try reflexivity; try discriminate;
      try (now contradiction H); now left.
  - apply Nat.ltb_ge in E5.
    assert (Hrev : exists front, rev histogram = rev (tail5 histogram) ++ front).
    { exists (rev (firstn (length histogram - 5) histogram)).
      rewrite <- rev_app_distr. unfold tail5. now rewrite firstn_skipn. }
    destruct Hrev as [front Hrev].
    set (recent := rev (tail5 histogram)) in *.
    assert (Hlen : length recent = 5%nat)
      by (unfold recent; rewrite length_rev; now apply tail5_length).
    pose proof (trailing_run_le (fun h => flt h fzero) recent) as Hn.
    pose proof (trailing_run_le (fun h => fgt h fzero) recent) as Hp.
    rewrite Hlen in Hn, Hp.
    split; [intro; lia|].
    destruct (2 <=? trailing_run (fun h => flt h fzero) recent)%nat eqn:En.
    + apply Nat.leb_le in En. cbn [fst snd].
      destruct (trailing_run_two _ _ En) as [a [b [rest [Hl [Ha Hb]]]]].
      repeat split; intros; try discriminate; try lia.
      * exists (Z.of_nat (trailing_run (fun h => flt h fzero) recent)). split; lia.
      * exists a, b, (rest ++ front). rewrite Hrev, Hl. now repeat split.
      * right; now left.
    + destruct (2 <=? trailing_run (fun h => fgt h fzero) recent)%nat eqn:Ep.
      * apply Nat.leb_le in Ep. cbn [fst snd].
        destruct (trailing_run_two _ _ Ep) as [a [b [rest [Hl [Ha Hb]]]]].
        repeat split; intros; try discriminate; try lia.
        -- exists (Z.of_nat (trailing_run (fun h => fgt h fzero) recent)). split; lia.
        -- exists a, b, (rest ++ front). rewrite Hrev, Hl. now repeat split.
        -- right; now right.
      * cbn [fst snd]. repeat split; intros; try reflexivity; try discriminate;
          try (now contradiction H); now left.
Qed.

(** X14: The band analyzer trades against the middle band: it answers SELL only
    with the price above the band and BUY only with the price below it.
    A trade is confirmed when the histogram run found by
    [_analyze_macd_consecutive] points the same way as the answer: a
    confirmed trade has strength 0.8 and the run's volume (a multiple of 100
    between 200 and 500), an unconfirmed one strength 0.5 and 100 shares,
    and HOLD strength 0.0 and volume 0. An undefined middle band gives
    HOLD. *)
Theorem etf_decision_against_band (current_price bb_middle_price : pyfloat)
    (histogram : list pyfloat) :
  let run := _analyze_macd_consecutive histogram in
  let '(sig, strength, _, vol) := etf_decision current_price bb_middle_price histogram in
  (sig = SELL <-> fgt (fsub current_price bb_middle_price) fzero = true) /\
  (sig = BUY <-> fgt (fsub current_price bb_middle_price) fzero = false /\
                 flt (fsub current_price bb_middle_price) fzero = true) /\
  (sig = HOLD \/ sig = BUY \/ sig = SELL) /\
  (sig = HOLD -> strength = 0 /\ vol = 0%Z) /\
  (sig <> HOLD -> fst run = sig ->
     strength = 8 # 10 /\ vol = snd run /\
     exists k, (2 <= k <= 5)%Z /\ vol = (k * 100)%Z) /\
  (sig <> HOLD -> fst run <> sig -> strength = 5 # 10 /\ vol = 100%Z) /\
  (isna bb_middle_price = true -> sig = HOLD).
Proof.
  cbv zeta. unfold etf_decision.
  pose proof (_analyze_macd_consecutive_volume histogram) as Hrun. cbv zeta in Hrun.
  destruct (_analyze_macd_consecutive histogram) as [macd_sig trade_volume].
  cbn [fst snd] in *. destruct Hrun as [_ [_ [Hvol _]]].
  assert (Hna : isna bb_middle_price = true ->
                fgt (fsub current_price bb_middle_price) fzero = false /\
                flt (fsub current_price bb_middle_price) fzero = false).
  { destruct bb_middle_price; try discriminate. destruct current_price; now split. }
  destruct (fgt (fsub current_price bb_middle_price) fzero) eqn:Egt.
  - destruct (SignalType_eqb macd_sig SELL) eqn:Em.
    + apply SignalType_eqb_eq in Em. subst macd_sig.
      destruct (Hvol ltac:(discriminate)) as [k [Hk Hv]].
      repeat split; intros; try discriminate; try reflexivity;
        try (destruct H; discriminate); try congruence.
      * right; now right.
      * exists k. split; [lia | exact Hv].
      * destruct (Hna H); discriminate.
    + assert (Hne : macd_sig <> SELL)
        by (intro Heq; subst macd_sig; discriminate Em).
      repeat split; intros; try discriminate; try reflexivity;
        try (destruct H; discriminate); try congruence.
      * right; now right.
      * destruct (Hna H); discriminate.
  - destruct (flt (fsub current_price bb_middle_price) fzero) eqn:Elt.
    + destruct (SignalType_eqb macd_sig BUY) eqn:Em.
      * apply SignalType_eqb_eq in Em. subst macd_sig.
        destruct (Hvol ltac:(discriminate)) as [k [Hk Hv]].
        repeat split; intros; try discriminate; try reflexivity;
          try (destruct H; discriminate); try congruence.
        -- right; now left.
        -- exists k. split; [lia | exact Hv].
        -- destruct (Hna H); discriminate.
      * assert (Hne : macd_sig <> BUY)
          by (intro Heq; subst macd_sig; discriminate Em).
        repeat split; intros; try discriminate; try reflexivity;
          try (destruct H; discriminate); try congruence.
        -- right; now left.
        -- destruct (Hna H); discriminate.
    + repeat split; intros; try discriminate; try reflexivity;
        try (destruct H; discriminate); try congruence.
      now left.
Qed.

(** * Properties of the position sizers *)

Lemma py_min_le_r (a b : Q) : py_min a b <= b.
Proof.
  unfold py_min. destruct (Qlt_bool b a) eqn:E.
  - lra.
  - apply Qlt_bool_false_iff in E. exact E.
Qed.

Lemma py_min_le_l (a b : Q) : py_min a b <= a.
Proof.
  unfold py_min. destruct (Qlt_bool b a) eqn:E.
  - apply Qlt_bool_iff in E. lra.
  - lra.
Qed.

Lemma py_min_ge (a b c : Q) : c <= a -> c <= b -> c <= py_min a b.
Proof. intros Ha Hb. unfold py_min. destruct (Qlt_bool b a); assumption. Qed.

(** The lots [int] leaves of a quotient computed in floats: worth at most
    the exact amount and less than one lot short of it, up to the room the
    roundings take. *)
Lemma lots_of_float (lo hi q exact price : Q) :
  float_near lo hi q exact -> 0 < price ->
  1 - float_slack <= lo -> hi <= 1 + float_slack ->
  let volume := (py_int q * 100)%Z in
  (0 <= volume)%Z /\
  inject_Z volume * price <= exact * 100 * price * (1 + float_slack) /\
  exact * 100 * price * (1 - float_slack) < inject_Z (volume + 100) * price.
Proof.
  intros Hnear Hp Hlo Hhi. cbv zeta.
  pose proof (float_near_nonneg _ _ _ _ Hnear) as Hq.
  destruct Hnear as [_ [He [H1 H2]]].
  pose proof (py_int_le q Hq) as Hle.
  pose proof (py_int_ge_0 q Hq) as Hge.
  assert (Hlt : q < inject_Z (py_int q) + 1).
  { rewrite (py_int_nonneg q Hq). pose proof (Qlt_floor q) as H.
    rewrite inject_Z_plus in H. exact H. }
  assert (Hup : exact * hi <= exact * (1 + float_slack)).
  { rewrite !(Qmult_comm exact). now apply Qmult_le_compat_r. }
  assert (Hdown : exact * (1 - float_slack) <= exact * lo).
  { rewrite !(Qmult_comm exact). now apply Qmult_le_compat_r. }
  split; [lia|].
  rewrite inject_Z_plus, inject_Z_mult. change (inject_Z 100) with 100.
  split.
  - assert (E : exact * 100 * price * (1 + float_slack)
                == exact * (1 + float_slack) * 100 * price) by ring.
    rewrite E. apply Qmult_le_compat_r; [|lra]. lra.
  - assert (E : exact * 100 * price * (1 - float_slack)
                == exact * (1 - float_slack) * 100 * price) by ring.
    rewrite E. apply Qmult_lt_compat_r; [exact Hp|]. lra.
Qed.

(** The two divisions every sizer ends on. *)
Lemma lot_rounding64 (target price : Q) :
  0 <= target -> 0 < price ->
  let volume := (py_int (fdiv64 (fdiv64 target price) 100) * 100)%Z in
  (0 <= volume)%Z /\
  inject_Z volume * price <= target * (1 + float_slack) /\
  target * (1 - float_slack) < inject_Z (volume + 100) * price.
Proof.
  intros Ht Hp. cbv zeta.
  assert (Hnear : float_near
                    (1 * (1 - float_unit) / 1 * (1 - float_unit))
                    (1 * (1 + float_unit) / 1 * (1 + float_unit))
                    (fdiv64 (fdiv64 target price) 100)
                    (target / price / 100)).
  { unfold fdiv64. apply float_near_round.
    apply float_near_div; [| apply float_near_exact | |]; try lra.
    apply float_near_round. apply float_near_exact.
    apply Qle_shift_div_l; lra. }
  destruct (lots_of_float _ _ _ _ price Hnear Hp) as [Hv [Hle Hlt]].
  - vm_compute. discriminate.
  - vm_compute. discriminate.
  - assert (E : target / price / 100 * 100 * price == target) by (field; lra).
    rewrite E in Hle, Hlt. split; [exact Hv|]. split; assumption.
Qed.

(** X15: At a positive price, with non-negative assets and a non-negative
    adjusted ratio, the percentage sizer returns a non-negative number of
    whole lots; the shares are worth at most the target and less than one
    lot short of it, and the target is at most [max_single_position] of the
    total assets, each up to the rounding of the float operations (a
    relative [2^-50]): the quotient [int] truncates is computed in
    binary64. *)
Theorem percentage_position_within_cap (cfg : Config)
    (signal_strength price total_asset : Q) :
  0 < price -> 0 <= total_asset ->
  0 <= position_ratio cfg * signal_strength -> 0 <= max_single_position cfg ->
  exists r,
    _calculate_percentage_position cfg signal_strength price total_asset = Some r /\
    (exists lots, (0 <= lots)%Z /\ ps_volume r = (lots * 100)%Z) /\
    ps_actual_amount r = inject_Z (ps_volume r) * price /\
    ps_actual_amount r <= ps_target_amount r * (1 + float_slack) /\
    ps_target_amount r * (1 - float_slack) < ps_actual_amount r + 100 * price /\
    ps_target_amount r <= total_asset * max_single_position cfg * (1 + float_slack) /\
    ps_ratio r <= max_single_position cfg /\
    ps_ratio r <= position_ratio cfg * signal_strength * (1 + float_slack).
Proof.
  intros Hp Ha Hr Hm. unfold _calculate_percentage_position.
  destruct (Qeq_bool price 0) eqn:E; [apply Qeq_bool_iff in E; lra|].
  eexists. split; [reflexivity|].
  cbn [ps_volume ps_actual_amount ps_target_amount ps_ratio].
  set (adjusted := fmul64 (position_ratio cfg) signal_strength).
  assert (Hadj : 0 <= adjusted /\
                 adjusted <= position_ratio cfg * signal_strength * (1 + float_unit)).
  { unfold adjusted, fmul64.
    destruct (round64_bounds _ Hr) as [_ B]. split; [now apply round64_nonneg | exact B]. }
  set (ratio := py_min adjusted (max_single_position cfg)).
  assert (Hr0 : 0 <= ratio) by (apply py_min_ge; [apply Hadj | exact Hm]).
  assert (Hexact : 0 <= total_asset * ratio) by (now apply Qmult_le_0_compat).
  set (target := fmul64 total_asset ratio).
  assert (Ht : 0 <= target) by (now apply round64_nonneg).
  destruct (lot_rounding64 target price Ht Hp) as [Hv [Hle Hlt]].
  split.
  - exists (py_int (fdiv64 (fdiv64 target price) 100)). split; [lia | reflexivity].
  - split; [reflexivity|]. split; [exact Hle|]. split.
    + rewrite inject_Z_plus in Hlt. change (inject_Z 100) with 100 in Hlt. lra.
    + split; [|split].
      * destruct (round64_bounds _ Hexact) as [_ B]. fold (fmul64 total_asset ratio) in B.
        fold target in B.
        assert (Hcap : total_asset * ratio <= total_asset * max_single_position cfg).
        { rewrite !(Qmult_comm total_asset). apply Qmult_le_compat_r; [|exact Ha].
          apply py_min_le_r. }
        assert (Hpos : 0 <= total_asset * max_single_position cfg)
          by (now apply Qmult_le_0_compat).
        unfold float_unit, float_slack in *. lra.
      * apply py_min_le_r.
      * pose proof (py_min_le_l adjusted (max_single_position cfg)) as Hl.
        fold ratio in Hl. destruct Hadj as [_ Hup].
        unfold float_unit, float_slack in *. lra.
Qed.

Lemma percentage_position_within_cap_witness :
  exists r,
    _calculate_percentage_position sample_config (8 # 10) 10 100000 = Some r /\
    ps_target_amount r <= 100000 * (3 # 10) * (1 + float_slack).
Proof.
  destruct (percentage_position_within_cap sample_config (8 # 10) 10 100000)
    as [r [Hr [_ [_ [_ [_ [Hcap _]]]]]]].
  - reflexivity.
  - vm_compute. discriminate.
  - vm_compute. discriminate.
  - vm_compute. discriminate.
  - exists r. split; [exact Hr | exact Hcap].
Defined.

(** With 30 percent sizing at strength 0.6, assets of 30000 and a price of
    10.8 the target is 5400, five lots; the binary64 quotient is just below
    5 and the sizer returns four. With cash of 21600 at the same price the
    ATR sizer returns nine lots, not ten. *)
Lemma sizers_lose_a_lot_to_rounding :
  option_map ps_volume
    (_calculate_percentage_position
       {| trade_amount := 10000; position_ratio := py_float (3 # 10);
          max_single_position := py_float (3 # 10); stop_loss_ratio := py_float (5 # 100);
          take_profit_ratio := py_float (8 # 100); initial_capital := 30000;
          commission_rate := py_float (3 # 10000); wall_clock := ticking_clock |}
       (py_float (6 # 10)) (py_float (108 # 10)) 30000) = Some 400%Z /\
  option_map ps_volume (_calculate_atr_position (py_float (108 # 10)) 21600) = Some 900%Z.
Proof. split; vm_compute; reflexivity. Qed.

Lemma kelly_raw_linear (s : Q) : kelly_raw s == (1 + s) / 4.
Proof. unfold kelly_raw, kelly_odds, kelly_win_rate. field. Qed.

(** X16: With the ratio read as an exact rational, the Kelly sizer's fraction
    is [(1 + strength) / 4] clamped to [0, max_single_position]: 0 when that
    is negative, the cap when it exceeds the cap, and the value itself in
    between. It is never negative and never above the cap, and with a cap
    of at most 25 percent it is the cap for every non-negative strength. *)
Theorem kelly_ratio_clamped (cfg : Config) (signal_strength : Q) :
  0 <= max_single_position cfg ->
  0 <= kelly_ratio cfg signal_strength /\
  kelly_ratio cfg signal_strength <= max_single_position cfg /\
  ((1 + signal_strength) / 4 < 0 -> kelly_ratio cfg signal_strength == 0) /\
  (0 <= (1 + signal_strength) / 4 <= max_single_position cfg ->
   kelly_ratio cfg signal_strength == (1 + signal_strength) / 4) /\
  (max_single_position cfg < (1 + signal_strength) / 4 ->
   kelly_ratio cfg signal_strength == max_single_position cfg) /\
  (0 <= signal_strength -> max_single_position cfg <= 1 # 4 ->
   kelly_ratio cfg signal_strength == max_single_position cfg).
Proof.
  intro Hm. unfold kelly_ratio.
  pose proof (kelly_raw_linear signal_strength) as Hraw.
  set (raw := kelly_raw signal_strength) in *. clearbody raw.
  assert (Hraw' : raw * 4 == 1 + signal_strength) by (rewrite Hraw; field).
  assert (Hq : (1 + signal_strength) / 4 == raw) by (now symmetry).
  rewrite !Hq.
  unfold py_max, py_min.
  destruct (Qlt_bool (max_single_position cfg) raw) eqn:E1;
    [apply Qlt_bool_iff in E1 | apply Qlt_bool_false_iff in E1];
    match goal with
    | |- context [Qlt_bool 0 ?x] =>
        destruct (Qlt_bool 0 x) eqn:E2;
        [apply Qlt_bool_iff in E2 | apply Qlt_bool_false_iff in E2]
    end;
    repeat split; intros;
    repeat match goal with H : _ /\ _ |- _ => destruct H end;
    lra.
Qed.

Lemma kelly_ratio_clamped_witness :
  kelly_ratio sample_config (5 # 10) == 3 # 10 /\
  kelly_raw (5 # 10) == 375 # 1000.
Proof.
  split.
  - refine (proj1 (proj2 (proj2 (proj2 (proj2
              (kelly_ratio_clamped sample_config (5 # 10) _))))) _).
    + vm_compute. discriminate.
    + reflexivity.
  - reflexivity.
Defined.

(** X17: At a positive price and with non-negative cash, the ATR sizer (2 percent
    risk per share, 1 percent of the cash at risk) returns whole lots worth
    at most half the cash and less than one lot short of it, each up to the
    rounding of its float operations (a relative [2^-50]): the quotient [int]
    truncates is computed in binary64. *)
Theorem atr_position_at_most_half_cash (price available_cash : Q) :
  0 < price -> 0 <= available_cash ->
  exists r,
    _calculate_atr_position price available_cash = Some r /\
    (exists lots, (0 <= lots)%Z /\ ps_volume r = (lots * 100)%Z) /\
    ps_actual_amount r = inject_Z (ps_volume r) * price /\
    ps_actual_amount r <= available_cash / 2 * (1 + float_slack) /\
    available_cash / 2 * (1 - float_slack) < ps_actual_amount r + 100 * price.
Proof.
  intros Hp Hc. unfold _calculate_atr_position. cbv zeta.
  assert (Hrps : float_near (1 * (1 * (1 - float_unit)) * (1 - float_unit))
                            (1 * (1 * (1 + float_unit)) * (1 + float_unit))
                            (fmul64 price (py_float (2 # 100))) (price * (2 # 100))).
  { unfold fmul64, py_float. apply float_near_round. apply float_near_mul.
    - apply float_near_exact. lra.
    - apply float_near_round. apply float_near_exact. discriminate. }
  assert (Hra : float_near (1 * (1 * (1 - float_unit)) * (1 - float_unit))
                           (1 * (1 * (1 + float_unit)) * (1 + float_unit))
                           (fmul64 available_cash (py_float (1 # 100)))
                           (available_cash * (1 # 100))).
  { unfold fmul64, py_float. apply float_near_round. apply float_near_mul.
    - now apply float_near_exact.
    - apply float_near_round. apply float_near_exact. discriminate. }
  assert (Hpos : 0 < fmul64 price (py_float (2 # 100))).
  { destruct Hrps as [_ [_ [H1 _]]].
    assert (0 < price * (2 # 100) * (1 * (1 * (1 - float_unit)) * (1 - float_unit))).
    { apply Qmult_lt_0_compat; [lra | reflexivity]. }
    lra. }
  destruct (Qeq_bool (fmul64 price (py_float (2 # 100))) 0) eqn:E;
    [apply Qeq_bool_iff in E; lra|].
  eexists. split; [reflexivity|].
  cbn [ps_volume ps_actual_amount].
  pose proof (float_near_round _ _ _ _
                (float_near_div _ _ _ _ _ _ _ _
                   (float_near_round _ _ _ _
                      (float_near_div _ _ _ _ _ _ _ _ Hra Hrps
                         ltac:(reflexivity) ltac:(lra)))
                   (float_near_exact 100 ltac:(discriminate))
                   ltac:(reflexivity) ltac:(reflexivity))) as Hq.
  fold (fdiv64 (fmul64 available_cash (py_float (1 # 100)))
               (fmul64 price (py_float (2 # 100)))) in Hq.
  match type of Hq with
  | float_near _ _ (round64 (?a / 100)) _ => fold (fdiv64 a 100) in Hq
  end.
  destruct (lots_of_float _ _ _ _ price Hq Hp) as [Hv [Hle Hlt]].
  - vm_compute. discriminate.
  - vm_compute. discriminate.
  - assert (Ex : available_cash * (1 # 100) / (price * (2 # 100)) / 100 * 100 * price
                 == available_cash / 2) by (field; lra).
    rewrite Ex in Hle, Hlt.
    split.
    + eexists. split; [|reflexivity]. lia.
    + split; [reflexivity|]. split; [exact Hle|].
      rewrite inject_Z_plus in Hlt. change (inject_Z 100) with 100 in Hlt. lra.
Qed.

Lemma atr_position_at_most_half_cash_witness :
  exists r, _calculate_atr_position 10 100000 = Some r /\
            ps_actual_amount r <= 100000 / 2 * (1 + float_slack).
Proof.
  destruct (atr_position_at_most_half_cash 10 100000) as [r [Hr [_ [_ [Hhalf _]]]]].
  - reflexivity.
  - vm_compute. discriminate.
  - exists r. split; [exact Hr | exact Hhalf].
Defined.

(** * Properties of the risk controller *)

Lemma max_by_fold_ge {A : Type} (key : A -> nat) (rest : list A) :
  forall first,
    (key first <= key (max_by key first rest))%nat /\
    (forall x, In x rest -> (key x <= key (max_by key first rest))%nat) /\
    In (max_by key first rest) (first :: rest).
Proof.
  unfold max_by. induction rest as [|y rest IH]; intro first; cbn [fold_left].
  - split; [lia|]. split; [intros x []|]. now left.
  - destruct (key first <? key y)%nat eqn:E;
      [apply Nat.ltb_lt in E | apply Nat.ltb_ge in E].
    + destruct (IH y) as [H1 [H2 H3]]. split; [lia|]. split.
      * intros x [<- | Hx]; [exact H1 | now apply H2].
      * right. exact H3.
    + destruct (IH first) as [H1 [H2 H3]]. split; [exact H1|]. split.
      * intros x [<- | Hx]; [lia | now apply H2].
      * destruct H3 as [H3 | H3]; [now left | right; now right].
Qed.

Lemma permits_priority (a : RiskAction) : permits a <-> (action_priority a <= 2)%nat.
Proof.
  unfold permits. destruct a; cbn; split; intro H; try lia;
    try (now left); try (now right); destruct H; discriminate.
Qed.

Lemma can_trade_iff_permits (daily_loss drawdown position frequency : RiskCheck) :
  can_trade (comprehensive_risk_check daily_loss drawdown position frequency) = true <->
  forall c, In c [daily_loss; drawdown; position; frequency] -> permits (risk_action c).
Proof.
  unfold comprehensive_risk_check. cbn [can_trade].
  set (rest := [drawdown; position; frequency]).
  destruct (max_by_fold_ge action_priority (map risk_action rest) (risk_action daily_loss))
    as [A1 [A2 A3]].
  set (act := max_by action_priority (risk_action daily_loss) (map risk_action rest)) in *.
  split.
  - intros Hcan c Hc. apply permits_priority.
    assert (Hle : (action_priority (risk_action c) <= action_priority act)%nat).
    { destruct Hc as [<- | Hc]; [exact A1 | apply A2; now apply in_map]. }
    destruct act; try discriminate; cbn in Hle; lia.
  - intro Hperm.
    assert (Hact : permits act).
    { change (risk_action daily_loss :: map risk_action rest)
        with (map risk_action (daily_loss :: rest)) in A3.
      apply in_map_iff in A3. destruct A3 as [c [<- Hc]]. now apply Hperm. }
    destruct Hact as [-> | ->]; reflexivity.
Qed.

(** X18: The summary of the four checks: its level is the worst level among them
    and its action the most restrictive action among them, each taken from
    one of the checks, and trading is allowed exactly when every check
    answers ALLOW or REDUCE. *)
Theorem comprehensive_risk_check_is_worst_case
    (daily_loss drawdown position frequency : RiskCheck) :
  let s := comprehensive_risk_check daily_loss drawdown position frequency in
  let checks := [daily_loss; drawdown; position; frequency] in
  (forall c, In c checks ->
     (level_priority (risk_level c) <= level_priority (overall_risk_level s))%nat /\
     (action_priority (risk_action c) <= action_priority (required_action s))%nat) /\
  In (overall_risk_level s) (map risk_level checks) /\
  In (required_action s) (map risk_action checks) /\
  (can_trade s = true <-> forall c, In c checks -> permits (risk_action c)).
Proof.
  cbv zeta. unfold comprehensive_risk_check.
  cbn [overall_risk_level required_action can_trade].
  set (rest := [drawdown; position; frequency]).
  destruct (max_by_fold_ge level_priority (map risk_level rest) (risk_level daily_loss))
    as [L1 [L2 L3]].
  destruct (max_by_fold_ge action_priority (map risk_action rest) (risk_action daily_loss))
    as [A1 [A2 A3]].
  set (lvl := max_by level_priority (risk_level daily_loss) (map risk_level rest)) in *.
  set (act := max_by action_priority (risk_action daily_loss) (map risk_action rest)) in *.
  assert (Hall : forall c, In c (daily_loss :: rest) ->
            (level_priority (risk_level c) <= level_priority lvl)%nat /\
            (action_priority (risk_action c) <= action_priority act)%nat).
  { intros c [<- | Hc]; [split; assumption|].
    split; [apply L2 | apply A2]; now apply in_map. }
  split; [exact Hall|]. split; [exact L3|]. split; [exact A3|].
  apply can_trade_iff_permits.
Qed.

Lemma check_error_blocks (c : RiskCheck) : c = check_error -> ~ permits (risk_action c).
Proof. intros -> [H | H]; discriminate. Qed.

Lemma check_trade_frequency_permits (rcfg : RiskConfig) (today : Fetched nat) :
  permits (risk_action (check_trade_frequency rcfg today)) ->
  exists n, today = Got n /\ inject_Z (Z.of_nat n) < trade_frequency_limit rcfg.
Proof.
  unfold check_trade_frequency. destruct today as [|n].
  - intros [H | H]; discriminate.
  - destruct (Qle_bool (trade_frequency_limit rcfg) (inject_Z (Z.of_nat n))) eqn:E.
    + intros [H | H]; discriminate.
    + intros _. exists n. split; [reflexivity|]. now apply Qle_bool_false_iff in E.
Qed.

Lemma check_daily_loss_limit_permits (rcfg : RiskConfig)
    (today : Fetched (list Q)) (asset : Fetched (option Q)) :
  permits (risk_action (check_daily_loss_limit rcfg today asset)) ->
  exists pnls, today = Got pnls /\
    (pnls = [] \/
     exists total_asset, asset = Got (Some total_asset) /\ ~ total_asset == 0 /\
       daily_loss_ratio (py_sum pnls) total_asset < max_daily_loss rcfg).
Proof.
  unfold check_daily_loss_limit. destruct today as [|pnls].
  - intros [H | H]; discriminate.
  - destruct pnls as [|p pnls]; [intros _; exists []; split; [reflexivity | now left]|].
    destruct asset as [|[total_asset|]].
    + intros [H | H]; discriminate.
    + destruct (Qeq_bool total_asset 0) eqn:E0; [intros [H | H]; discriminate|].
      destruct (Qle_bool (max_daily_loss rcfg)
                  (daily_loss_ratio (py_sum (p :: pnls)) total_asset)) eqn:E1;
        [intros [H | H]; discriminate|].
      intros _. exists (p :: pnls). split; [reflexivity|]. right.
      exists total_asset. split; [reflexivity|]. split.
      * intro H. apply Qeq_bool_iff in H. congruence.
      * now apply Qle_bool_false_iff in E1.
    + cbn. intros [H | H]; discriminate.
Qed.

Lemma check_drawdown_limit_permits (rcfg : RiskConfig)
    (trades : Fetched (list (Z * Q))) :
  permits (risk_action (check_drawdown_limit rcfg trades)) ->
  exists records, trades = Got records /\
    forall d, history_drawdown records = Some d -> d < max_drawdown rcfg.
Proof.
  unfold check_drawdown_limit. destruct trades as [|records].
  - intros [H | H]; discriminate.
  - intro Hp. exists records. split; [reflexivity|].
    destruct records as [|r records]; [intros d H; discriminate H|].
    destruct (history_drawdown (r :: records)) as [max_dd|]; [|intros d H; discriminate H].
    destruct (Qle_bool (max_drawdown rcfg) max_dd) eqn:E1.
    + destruct Hp as [H | H]; discriminate.
    + intros d H. injection H as <-. now apply Qle_bool_false_iff in E1.
Qed.

(** X19: Whenever [is_trading_allowed] answers yes, every record could be read
    and every hard limit holds: today's trade count is below the daily cap,
    today's loss ratio is below the daily loss limit (or there was no trade
    today), the 30-day drawdown is below the drawdown limit, and the account
    total was available to the position check. A collaborator that raises
    therefore always blocks trading. *)
Theorem trading_allowed_respects_limits (cfg : Config) (rcfg : RiskConfig)
    (i : RiskInputs) :
  is_trading_allowed cfg rcfg i = true ->
  (exists n, in_today_count i = Got n /\
             inject_Z (Z.of_nat n) < trade_frequency_limit rcfg) /\
  (exists pnls, in_today_pnls i = Got pnls /\
     (pnls = [] \/
      exists total_asset, in_loss_asset i = Got (Some total_asset) /\
        ~ total_asset == 0 /\
        daily_loss_ratio (py_sum pnls) total_asset < max_daily_loss rcfg)) /\
  (exists records, in_month_trades i = Got records /\
     forall d, history_drawdown records = Some d -> d < max_drawdown rcfg) /\
  (exists pos total, in_position i = Got pos /\ in_position_asset i = Got (Some total)).
Proof.
  unfold is_trading_allowed, check_trading_risk. intro Hcan.
  pose proof (proj1 (can_trade_iff_permits _ _ _ _) Hcan) as Hall. clear Hcan.
  rename Hall into Hcan.
  split; [apply check_trade_frequency_permits; apply Hcan; cbn; tauto|].
  split; [apply check_daily_loss_limit_permits; apply Hcan; cbn; tauto|].
  split; [apply check_drawdown_limit_permits; apply Hcan; cbn; tauto|].
  assert (Hp : permits (risk_action
                 (check_position_limit cfg (in_position i) (in_position_asset i))))
    by (apply Hcan; cbn; tauto).
  unfold check_position_limit in Hp.
  destruct (in_position i) as [|pos]; [destruct Hp; discriminate|].
  destruct (in_position_asset i) as [|[total|]]; try (destruct Hp; discriminate).
  now exists pos, total.
Qed.

Lemma trading_allowed_respects_limits_witness :
  exists n, in_today_count quiet_day = Got n /\
            inject_Z (Z.of_nat n) < trade_frequency_limit sample_risk_config.
Proof.
  assert (H : is_trading_allowed sample_config sample_risk_config quiet_day = true)
    by (vm_compute; reflexivity).
  exact (proj1 (trading_allowed_respects_limits sample_config sample_risk_config
                  quiet_day H)).
Defined.

(** X20: The position check alone never stops trading: with the holding and the
    account readable it asks for REDUCE at most, so the summary allows
    trading exactly when the other three checks do. *)
Theorem position_limit_never_blocks (cfg : Config)
    (position : option Q) (total_asset : Q) (daily_loss drawdown frequency : RiskCheck) :
  let check := check_position_limit cfg (Got position) (Got (Some total_asset)) in
  permits (risk_action check) /\
  risk_level check <> CRITICAL /\
  (can_trade (comprehensive_risk_check daily_loss drawdown check frequency) = true <->
   permits (risk_action daily_loss) /\ permits (risk_action drawdown) /\
   permits (risk_action frequency)).
Proof.
  cbv zeta.
  assert (Hp : permits (risk_action
                 (check_position_limit cfg (Got position) (Got (Some total_asset)))) /\
               risk_level (check_position_limit cfg (Got position) (Got (Some total_asset)))
                 <> CRITICAL).
  { unfold check_position_limit, permits. destruct position as [v|].
    - split_ifs; cbn; split; try (now left); try (now right); discriminate.
    - cbn. split; [now left | discriminate]. }
  destruct Hp as [Hp Hl]. split; [exact Hp|]. split; [exact Hl|].
  rewrite can_trade_iff_permits. split.
  - intro H. repeat split; apply H; cbn; tauto.
  - intros [Hd [Hdd Hf]] c [<- | [<- | [<- | [<- | []]]]]; assumption.
Qed.

(** ** The drawdown of the trade history *)

Lemma insert_by_time_Forall (P : Z * Q -> Prop) (t : Z * Q) (l : list (Z * Q)) :
  P t -> Forall P l -> Forall P (insert_by_time t l).
Proof.
  intros Ht Hl. induction Hl as [|u l Hu Hl IH]; cbn [insert_by_time].
  - now constructor.
  - destruct (fst u <=? fst t)%Z; constructor; try assumption. now constructor.
Qed.

Lemma sorted_by_time_Forall (P : Z * Q -> Prop) (l : list (Z * Q)) :
  Forall P l -> Forall P (sorted_by_time l).
Proof.
  unfold sorted_by_time.
  assert (H : forall acc, Forall P acc -> Forall P l ->
                          Forall P (fold_left (fun acc t => insert_by_time t acc) l acc)).
  { induction l as [|t l IH]; intros acc Hacc Hl; [exact Hacc|].
    cbn [fold_left]. inversion Hl; subst.
    apply IH; [now apply insert_by_time_Forall | assumption]. }
  intro Hl. apply H; [constructor | exact Hl].
Qed.

Lemma insert_by_time_length (t : Z * Q) (l : list (Z * Q)) :
  length (insert_by_time t l) = S (length l).
Proof.
  induction l as [|u l IH]; cbn [insert_by_time length]; [reflexivity|].
  destruct (fst u <=? fst t)%Z; cbn [length]; [now rewrite IH | reflexivity].
Qed.

Lemma drawdown_step_at_peak (peak pnl : Q) :
  peak <= pnl ->
  exists peak', drawdown_step (peak, 0) pnl = (peak', 0) /\ peak' == pnl.
Proof.
  intro Hge. unfold drawdown_step.
  destruct (Qlt_bool peak pnl) eqn:E.
  - exists pnl. split; [|reflexivity].
    destruct (Qeq_bool pnl 0); unfold py_max.
    + reflexivity.
    + replace (Qlt_bool 0 ((pnl - pnl) / Qabs pnl)) with false; [reflexivity|].
      symmetry. apply Qlt_bool_false_iff.
      assert (Hd : (pnl - pnl) / Qabs pnl == 0) by (unfold Qdiv; ring).
      rewrite Hd. lra.
  - apply Qlt_bool_false_iff in E.
    assert (Heq : peak == pnl) by lra.
    exists peak. split; [|exact Heq].
    destruct (Qeq_bool peak 0); unfold py_max.
    + reflexivity.
    + replace (Qlt_bool 0 ((peak - pnl) / Qabs peak)) with false; [reflexivity|].
      symmetry. apply Qlt_bool_false_iff.
      assert (Hd : (peak - pnl) / Qabs peak == 0) by (unfold Qdiv; rewrite Heq; ring).
      rewrite Hd. lra.
Qed.

(** On a curve that never falls below the running peak the loop keeps the
    drawdown at zero. *)
Lemma drawdown_loop_rising (curve : list Q) :
  forall peak running,
    peak <= running ->
    Forall (fun p => 0 <= p) curve ->
    snd (fold_left drawdown_step (cumulative_from running curve) (peak, 0)) = 0.
Proof.
  induction curve as [|p curve IH]; intros peak running Hpk Hall; [reflexivity|].
  inversion Hall as [|? ? Hp Hrest]; subst.
  cbn [cumulative_from fold_left].
  destruct (drawdown_step_at_peak peak (running + p)) as [peak' [Hstep Hpeak']]; [lra|].
  rewrite Hstep. apply IH; [lra | assumption].
Qed.

Lemma drawdown_loop_nonneg (curve : list Q) :
  forall peak dd, 0 <= dd -> 0 <= snd (fold_left drawdown_step curve (peak, dd)).
Proof.
  induction curve as [|p curve IH]; intros peak dd Hdd; [exact Hdd|].
  cbn [fold_left]. unfold drawdown_step at 2.
  apply IH. unfold py_max.
  match goal with |- context [Qlt_bool dd ?x] => destruct (Qlt_bool dd x) eqn:E end.
  - apply Qlt_bool_iff in E. lra.
  - exact Hdd.
Qed.

(** X21: The drawdown the risk controller computes from the trade history is
    never negative. When every trade of a non-empty history made a profit or
    broke even, it is zero, and with a positive limit the check answers LOW
    and ALLOW. *)
Theorem profitable_history_has_no_drawdown (rcfg : RiskConfig)
    (records : list (Z * Q)) :
  (forall d, history_drawdown records = Some d -> 0 <= d) /\
  (records <> [] -> Forall (fun r => 0 <= snd r) records ->
   history_drawdown records = Some 0 /\
   (0 < max_drawdown rcfg ->
    check_drawdown_limit rcfg (Got records)
      = {| risk_level := LOW; risk_action := ALLOW; risk_note := N_drawdown_ok |})).
Proof.
  split.
  - intros d. unfold history_drawdown.
    destruct (cumulative_from 0 (map snd (sorted_by_time records))) as [|first rest];
      [discriminate|].
    intro H. injection H as <-. unfold peak_and_drawdown.
    apply drawdown_loop_nonneg. lra.
  - intros Hne Hall.
    assert (Hdd : history_drawdown records = Some 0).
    { unfold history_drawdown.
      pose proof (sorted_by_time_Forall _ _ Hall) as Hs.
      destruct (sorted_by_time records) as [|r sorted] eqn:Es.
      - exfalso. destruct records as [|r0 records]; [now apply Hne|].
        unfold sorted_by_time in Es.
        assert (Hlen : forall l acc,
                  length (fold_left (fun acc t => insert_by_time t acc) l acc)
                  = (length l + length acc)%nat).
        { induction l as [|t l IH]; intro acc; cbn [fold_left length]; [reflexivity|].
          rewrite IH, insert_by_time_length. lia. }
        apply (f_equal (@length (Z * Q))) in Es. rewrite Hlen in Es.
        cbn [length] in Es. lia.
      - inversion Hs as [|? ? Hr Hrest]; subst.
        cbn [map cumulative_from]. unfold peak_and_drawdown. cbn [fold_left].
        destruct (drawdown_step_at_peak (0 + snd r) (0 + snd r)) as [peak' [Hstep Hpeak']];
          [lra|].
        rewrite Hstep. f_equal.
        apply drawdown_loop_rising; [lra|].
        apply Forall_forall. intros q Hq. apply in_map_iff in Hq.
        destruct Hq as [u [<- Hu]]. rewrite Forall_forall in Hrest. now apply Hrest. }
    split; [exact Hdd|].
    intro Hlim. unfold check_drawdown_limit. rewrite Hdd.
    destruct records as [|r0 records]; [now contradiction Hne|].
    replace (Qle_bool (max_drawdown rcfg) 0) with false
      by (symmetry; apply Qle_bool_false_iff; exact Hlim).
    replace (Qle_bool (max_drawdown rcfg * (8 # 10)) 0) with false
      by (symmetry; apply Qle_bool_false_iff; lra).
    reflexivity.
Qed.

(** ** The daily loss check *)

Lemma daily_loss_ratio_antitone (pnl1 pnl2 total_asset : Q) :
  0 < total_asset -> pnl1 <= pnl2 ->
  0 <= daily_loss_ratio pnl2 total_asset /\
  daily_loss_ratio pnl2 total_asset <= daily_loss_ratio pnl1 total_asset.
Proof.
  intros Ha Hle. unfold daily_loss_ratio.
  destruct (Qlt_bool pnl2 0) eqn:E2;
    [apply Qlt_bool_iff in E2 | apply Qlt_bool_false_iff in E2];
    (destruct (Qlt_bool pnl1 0) eqn:E1;
     [apply Qlt_bool_iff in E1 | apply Qlt_bool_false_iff in E1]);
    try lra.
  - rewrite (Qabs_neg pnl1) by lra. rewrite (Qabs_neg pnl2) by lra. split.
    + apply Qle_shift_div_l; lra.
    + apply Qle_shift_div_l; [exact Ha|].
      assert (H : - pnl2 / total_asset * total_asset == - pnl2) by (field; lra).
      rewrite H. lra.
  - rewrite (Qabs_neg pnl1) by lra. split; [lra|].
    apply Qle_shift_div_l; lra.
Qed.

(** X22: With the account total positive and a non-negative limit, the daily loss
    check never eases as the day's result gets worse: a lower total profit
    and loss gives a level and an action at least as severe. A day that ends
    with no loss is LOW and ALLOW under any positive limit. *)
Theorem daily_loss_check_is_monotone (rcfg : RiskConfig)
    (worse better : list Q) (total_asset : Q) :
  0 < total_asset -> 0 <= max_daily_loss rcfg ->
  worse <> [] -> better <> [] ->
  py_sum worse <= py_sum better ->
  let check l := check_daily_loss_limit rcfg (Got l) (Got (Some total_asset)) in
  (level_priority (risk_level (check better))
     <= level_priority (risk_level (check worse)))%nat /\
  (action_priority (risk_action (check better))
     <= action_priority (risk_action (check worse)))%nat /\
  (0 < max_daily_loss rcfg -> 0 <= py_sum better ->
   risk_level (check better) = LOW /\ risk_action (check better) = ALLOW).
Proof.
  intros Ha Hlim Hw Hb Hle. cbv zeta. unfold check_daily_loss_limit.
  destruct worse as [|w worse]; [now contradiction Hw|].
  destruct better as [|b better]; [now contradiction Hb|].
  replace (Qeq_bool total_asset 0) with false
    by (symmetry; destruct (Qeq_bool total_asset 0) eqn:E;
        [apply Qeq_bool_iff in E; lra | reflexivity]).
  destruct (daily_loss_ratio_antitone _ _ total_asset Ha Hle) as [H0 Hanti].
  assert (Hzero : 0 <= py_sum (b :: better) ->
                  daily_loss_ratio (py_sum (b :: better)) total_asset = 0).
  { intro Hs. unfold daily_loss_ratio.
    replace (Qlt_bool (py_sum (b :: better)) 0) with false; [reflexivity|].
    symmetry. now apply Qlt_bool_false_iff. }
  set (r1 := daily_loss_ratio (py_sum (w :: worse)) total_asset) in *.
  set (r2 := daily_loss_ratio (py_sum (b :: better)) total_asset) in *.
  clearbody r1 r2.
  repeat match goal with
         | |- context [Qle_bool ?x ?y] =>
             let E := fresh "E" in
             destruct (Qle_bool x y) eqn:E;
             [apply Qle_bool_iff in E | apply Qle_bool_false_iff in E]
         end;
    cbn [risk_level risk_action level_priority action_priority];
    repeat split; intros; try lia; try lra;
    try (exfalso; rewrite Hzero in * by assumption; lra).
Qed.

Lemma daily_loss_check_is_monotone_witness :
  (level_priority (risk_level (checked_day winning_day))
   <= level_priority (risk_level (checked_day losing_day)))%nat.
Proof.
  refine (proj1 (daily_loss_check_is_monotone sample_risk_config losing_day winning_day
                   100000 _ _ _ _ _)).
  - reflexivity.
  - vm_compute. discriminate.
  - discriminate.
  - discriminate.
  - vm_compute. discriminate.
Defined.

(** * Properties of the stop policy *)

(** X23: For a long position entered at a positive price with positive stop and
    take-profit ratios, the stop price lies below the entry and the target
    above it (mirrored for a short). The simulator's check answers stop_loss
    exactly at or below the stop price, take_profit exactly at or above the
    target and nothing strictly between them; at the entry price it never
    exits. *)
Theorem stop_prices_bracket_entry (cfg : Config) (st : Engine) (pos : Position)
    (current_price : Q) :
  0 < avg_price pos -> 0 < stop_loss_ratio cfg -> 0 < take_profit_ratio cfg ->
  current_position st = Some pos ->
  let entry := avg_price pos in
  let stop := calculate_stop_loss_price cfg entry SideBuy in
  let target := calculate_take_profit_price cfg entry SideBuy in
  stop < entry /\ entry < target /\
  calculate_take_profit_price cfg entry SideSell < entry /\
  entry < calculate_stop_loss_price cfg entry SideSell /\
  (_check_stop_conditions cfg st current_price = Some "stop_loss"%string
     <-> current_price <= stop) /\
  (_check_stop_conditions cfg st current_price = Some "take_profit"%string
     <-> target <= current_price) /\
  (_check_stop_conditions cfg st current_price = None
     <-> stop < current_price /\ current_price < target) /\
  _check_stop_conditions cfg st entry = None.
Proof.
  intros He Hs Ht Hpos. cbv zeta.
  unfold calculate_stop_loss_price, calculate_take_profit_price.
  assert (H1 : 0 < avg_price pos * stop_loss_ratio cfg)
    by (apply Qmult_lt_0_compat; assumption).
  assert (H2 : 0 < avg_price pos * take_profit_ratio cfg)
    by (apply Qmult_lt_0_compat; assumption).
  split; [lra|]. split; [lra|]. split; [lra|]. split; [lra|].
  unfold _check_stop_conditions. rewrite Hpos.
  unfold calculate_stop_loss_price, calculate_take_profit_price.
  set (stop := avg_price pos * (1 - stop_loss_ratio cfg)).
  set (target := avg_price pos * (1 + take_profit_ratio cfg)).
  assert (Hst : stop < avg_price pos) by (unfold stop; lra).
  assert (Htg : avg_price pos < target) by (unfold target; lra).
  clearbody stop target.
  repeat split.
  - destruct (Qle_bool current_price stop) eqn:E; [intros _; now apply Qle_bool_iff|].
    destruct (Qle_bool target current_price); discriminate.
  - intro H. apply Qle_bool_iff in H. now rewrite H.
  - destruct (Qle_bool current_price stop) eqn:E; [discriminate|].
    destruct (Qle_bool target current_price) eqn:E2; [|discriminate].
    intros _. now apply Qle_bool_iff.
  - intro H.
    replace (Qle_bool current_price stop) with false
      by (symmetry; apply Qle_bool_false_iff; lra).
    apply Qle_bool_iff in H. now rewrite H.
  - destruct (Qle_bool current_price stop) eqn:E; [discriminate|].
    now apply Qle_bool_false_iff in E.
  - destruct (Qle_bool current_price stop) eqn:E; [discriminate|].
    destruct (Qle_bool target current_price) eqn:E2; [discriminate|].
    now apply Qle_bool_false_iff in E2.
  - intros [Hlo Hhi].
    replace (Qle_bool current_price stop) with false
      by (symmetry; apply Qle_bool_false_iff; lra).
    replace (Qle_bool target current_price) with false
      by (symmetry; apply Qle_bool_false_iff; lra).
    reflexivity.
  - replace (Qle_bool (avg_price pos) stop) with false
      by (symmetry; apply Qle_bool_false_iff; lra).
    replace (Qle_bool target (avg_price pos)) with false
      by (symmetry; apply Qle_bool_false_iff; lra).
    reflexivity.
Qed.

Lemma stop_prices_bracket_entry_witness :
  calculate_stop_loss_price sample_config 12 SideBuy < 12 /\
  12 < calculate_take_profit_price sample_config 12 SideBuy.
Proof.
  destruct (stop_prices_bracket_entry sample_config (holding 1000 12 0)
              {| pos_volume := 1000; avg_price := 12; market_value := inject_Z 1000 * 12;
                 unrealized_pnl := 0; realized_pnl := 0 |} (113 # 10))
    as [H1 [H2 _]].
  - reflexivity.
  - reflexivity.
  - reflexivity.
  - reflexivity.
  - split; [exact H1 | exact H2].
Defined.

(** X24: The live stop check and the simulator's stop check decide alike: for a
    holding with a non-zero entry price and volume they answer stop_loss,
    take_profit or hold on the same prices. Without a holding, or with a
    zero entry price or volume, the live check answers none, and error when
    the broker query raises. *)
Theorem live_and_simulated_stop_checks_agree (cfg : Config) (st : Engine)
    (pos : Position) (current_price : Q) :
  current_position st = Some pos ->
  (~ avg_price pos == 0 -> pos_volume pos <> 0%Z ->
   check_stop_conditions cfg (Got (Some (avg_price pos, pos_volume pos))) current_price
     = stop_answer_of (_check_stop_conditions cfg st current_price)) /\
  check_stop_conditions cfg (Got None) current_price = StopNone /\
  check_stop_conditions cfg (Got (Some (0, pos_volume pos))) current_price = StopNone /\
  check_stop_conditions cfg (Got (Some (avg_price pos, 0%Z))) current_price = StopNone /\
  check_stop_conditions cfg Raised current_price = StopError.
Proof.
  intro Hpos. split; [|split; [reflexivity|split; [reflexivity|split; [|reflexivity]]]].
  - intros Ha Hv. unfold check_stop_conditions, _check_stop_conditions. rewrite Hpos.
    replace (Qeq_bool (avg_price pos) 0) with false
      by (symmetry; destruct (Qeq_bool (avg_price pos) 0) eqn:E;
          [apply Qeq_bool_iff in E; contradiction | reflexivity]).
    replace (pos_volume pos =? 0)%Z with false by (symmetry; now apply Z.eqb_neq).
    cbn [orb].
    destruct (Qle_bool current_price _); [reflexivity|].
    destruct (Qle_bool _ current_price); reflexivity.
  - unfold check_stop_conditions. rewrite orb_true_r. reflexivity.
Qed.

Lemma live_and_simulated_stop_checks_agree_witness :
  check_stop_conditions sample_config (Got (Some (12, 1000%Z))) (113 # 10) = StopLoss.
Proof.
  assert (Hpos : current_position (holding 1000 12 0)
                 = Some {| pos_volume := 1000; avg_price := 12;
                           market_value := inject_Z 1000 * 12;
                           unrealized_pnl := 0; realized_pnl := 0 |})
    by reflexivity.
  destruct (live_and_simulated_stop_checks_agree sample_config (holding 1000 12 0) _
              (113 # 10) Hpos) as [H _].
  cbn [avg_price pos_volume] in H. rewrite H.
  - vm_compute. reflexivity.
  - intro E. vm_compute in E. discriminate.
  - discriminate.
Defined.

(** * Properties of executed orders *)

Lemma py_int_ge_1 (q : Q) : (1 <= py_int q)%Z -> 1 <= q.
Proof.
  unfold py_int. destruct (Qle_bool 0 q) eqn:E.
  - intro H. pose proof (Qfloor_le q) as Hf.
    assert (H1 : inject_Z 1 <= inject_Z (Qfloor q)) by (rewrite <- Zle_Qle; exact H).
    change (inject_Z 1) with 1 in H1. lra.
  - apply Qle_bool_false_iff in E. intro H. exfalso.
    assert (Hc : (Qceiling q <= Qceiling 0)%Z) by (apply Qceiling_resp_le; lra).
    change (Qceiling 0) with 0%Z in Hc. lia.
Qed.

(** X25: A buy that goes through is logged as one whole-lot trade at the bar's
    price, costs (amount plus commission) no more than the cash, is paid out
    of the cash, and opens the position at that price. The trade is stamped
    with the index entry when that is a timestamp and with the wall clock
    otherwise. At a positive price and with non-negative cash its amount is
    at most [max_single_position] of the cash, up to the rounding of the
    three float operations that size it. *)
Theorem executed_buy_is_affordable_and_capped (cfg : Config) (st : Engine)
    (date : IndexEntry) (p s : Q) (r : string) :
  trades (_execute_buy cfg st date p s r) <> trades st ->
  exists t,
    trades (_execute_buy cfg st date p s r) = trades st ++ [t] /\
    action t = ActBuy /\
    timestamp t = match date with
                  | Moment at_bar => at_bar
                  | DateKey _ => wall_clock cfg (length (trades st))
                  end /\
    price t = p /\ reason t = r /\
    (exists lots, (1 <= lots)%Z /\ volume t = (lots * 100)%Z) /\
    amount t = inject_Z (volume t) * p /\
    commission t = amount t * commission_rate cfg /\
    amount t + commission t <= current_capital st /\
    current_capital (_execute_buy cfg st date p s r)
      = current_capital st - (amount t + commission t) /\
    (exists pos, current_position (_execute_buy cfg st date p s r) = Some pos /\
                 pos_volume pos = volume t /\ avg_price pos = p) /\
    (0 < p -> 0 <= current_capital st ->
     amount t <= current_capital st * max_single_position cfg * (1 + float_slack)).
Proof.
  rewrite _execute_buy_unfold.
  destruct (Qeq_bool p 0); [intro H; now contradiction H|].
  destruct (buy_volume cfg (current_capital st) p s <? 100)%Z eqn:Ev;
    [intro H; now contradiction H|].
  destruct (Qlt_bool (current_capital st) (buy_total_cost cfg (current_capital st) p s))
    eqn:Ec; [intro H; now contradiction H|].
  intros _. apply Z.ltb_ge in Ev. apply Qlt_bool_false_iff in Ec.
  eexists. cbn [trades current_capital current_position].
  split; [reflexivity|].
  cbn [action timestamp price reason volume amount commission].
  split; [reflexivity|].
  split; [unfold trade_timestamp, stamp_at; destruct date; reflexivity|].
  repeat split.
  - unfold buy_volume in *. eexists. split; [|reflexivity]. lia.
  - exact Ec.
  - eexists. split; [reflexivity|]. split; reflexivity.
  - intros Hp Hcash. unfold buy_volume in *.
    set (ratio := py_min (fmul64 (position_ratio cfg) s) (max_single_position cfg)) in *.
    set (target := fmul64 (current_capital st) ratio) in *.
    set (q := fdiv64 (fdiv64 target p) 100) in *.
    assert (Hq : 1 <= q) by (apply py_int_ge_1; lia).
    assert (Hq1 : 0 < fdiv64 target p).
    { assert (H : 0 < fdiv64 target p / 100) by (apply round64_pos_inv; fold (fdiv64 (fdiv64 target p) 100); fold q; lra).
      assert (E : fdiv64 target p == fdiv64 target p / 100 * 100) by field.
      rewrite E. apply Qmult_lt_0_compat; [exact H | reflexivity]. }
    assert (Htarget : 0 < target).
    { assert (H : 0 < target / p) by (now apply round64_pos_inv).
      assert (E : target == target / p * p) by (field; lra).
      rewrite E. now apply Qmult_lt_0_compat. }
    assert (Hexact : 0 < current_capital st * ratio) by (now apply round64_pos_inv).
    assert (Hnear : float_near
                      (1 * (1 - float_unit) / 1 * (1 - float_unit) / 1 * (1 - float_unit))
                      (1 * (1 + float_unit) / 1 * (1 + float_unit) / 1 * (1 + float_unit))
                      q (current_capital st * ratio / p / 100)).
    { unfold q, target, fdiv64, fmul64. apply float_near_round.
      apply float_near_div; [| apply float_near_exact | |]; try lra.
      apply float_near_round.
      apply float_near_div; [| apply float_near_exact | |]; try lra.
      apply float_near_round. apply float_near_exact. lra. }
    destruct (lots_of_float _ _ _ _ p Hnear Hp) as [_ [Hle _]];
      [vm_compute; discriminate | vm_compute; discriminate |].
    assert (E : current_capital st * ratio / p / 100 * 100 * p
                == current_capital st * ratio) by (field; lra).
    rewrite E in Hle. fold q in Hle.
    apply (Qle_trans _ _ _ Hle).
    apply Qmult_le_compat_r; [|unfold float_slack; lra].
    rewrite !(Qmult_comm (current_capital st)).
    apply Qmult_le_compat_r; [apply py_min_le_r | exact Hcash].
Qed.

Lemma executed_buy_is_affordable_and_capped_witness :
  exists t,
    trades (_execute_buy sample_config (flat 100000) (DateKey 20240120) 10 (8 # 10) "trend")
      = trades (flat 100000) ++ [t] /\
    timestamp t = 1000%Z.
Proof.
  destruct (executed_buy_is_affordable_and_capped sample_config (flat 100000)
              (DateKey 20240120) 10 (8 # 10) "trend") as [t [Ht [_ [Hs _]]]].
  - vm_compute. discriminate.
  - exists t. split; [exact Ht | exact Hs].
Defined.

(** X26: A sell that goes through is logged as one whole-lot trade at the bar's
    price with the given reason, stamped with the index entry when that is a
    timestamp and with the wall clock otherwise; it adds its amount less
    commission to the cash, and takes its volume off the position, which
    keeps its entry price or, when everything is sold, is closed. *)
Theorem executed_sell_settles (cfg : Config) (st : Engine) (date : IndexEntry) (p s : Q)
    (r : string) (pos : Position) :
  current_position st = Some pos ->
  trades (_execute_sell cfg st date p s r) <> trades st ->
  exists t,
    trades (_execute_sell cfg st date p s r) = trades st ++ [t] /\
    action t = ActSell /\
    timestamp t = match date with
                  | Moment at_bar => at_bar
                  | DateKey _ => wall_clock cfg (length (trades st))
                  end /\
    price t = p /\ reason t = r /\
    (exists lots, (1 <= lots)%Z /\ volume t = (lots * 100)%Z) /\
    amount t = inject_Z (volume t) * p /\
    commission t = amount t * commission_rate cfg /\
    current_capital (_execute_sell cfg st date p s r)
      = current_capital st + (amount t - commission t) /\
    held_volume (_execute_sell cfg st date p s r) = (pos_volume pos - volume t)%Z /\
    (forall pos', current_position (_execute_sell cfg st date p s r) = Some pos' ->
                  avg_price pos' = avg_price pos).
Proof.
  intros Hpos. unfold _execute_sell. rewrite Hpos.
  destruct (sell_volume_of (pos_volume pos) s <? 100)%Z eqn:Ev;
    [intro H; now contradiction H|].
  intros _. apply Z.ltb_ge in Ev.
  eexists. cbn [trades current_capital current_position].
  split; [reflexivity|].
  cbn [action timestamp price reason volume amount commission].
  split; [reflexivity|].
  split; [unfold trade_timestamp, stamp_at; destruct date; reflexivity|].
  repeat split.
  - unfold sell_volume_of in *. eexists. split; [|reflexivity]. lia.
  - unfold held_volume. cbn [current_position].
    destruct (sell_volume_of (pos_volume pos) s =? pos_volume pos)%Z eqn:E.
    + apply Z.eqb_eq in E. lia.
    + reflexivity.
  - intros pos'.
    destruct (sell_volume_of (pos_volume pos) s =? pos_volume pos)%Z; [discriminate|].
    intro H. injection H as <-. reflexivity.
Qed.

Lemma executed_sell_settles_witness :
  exists t,
    trades (_execute_sell sample_config (holding 1000 10 0) (DateKey 20240121) 11
              (6 # 10) "weakness")
      = trades (holding 1000 10 0) ++ [t] /\
    timestamp t = 1000%Z.
Proof.
  destruct (executed_sell_settles sample_config (holding 1000 10 0) (DateKey 20240121) 11
              (6 # 10) "weakness"
              {| pos_volume := 1000; avg_price := 10; market_value := inject_Z 1000 * 10;
                 unrealized_pnl := 0; realized_pnl := 0 |}) as [t [Ht [_ [Hs _]]]].
  - reflexivity.
  - vm_compute. discriminate.
  - exists t. split; [exact Ht | exact Hs].
Defined.

(** * Properties of the trade statistics *)

Lemma wins_and_losses_disjoint (pairs : list Q) :
  (length (filter is_win pairs) + length (filter is_loss pairs) <= length pairs)%nat.
Proof.
  induction pairs as [|p pairs IH]; cbn [filter length]; [lia|].
  unfold is_win at 1, is_loss at 1.
  destruct (Qlt_bool 0 p) eqn:Ew, (Qlt_bool p 0) eqn:El; cbn [length]; try lia.
  apply Qlt_bool_iff in Ew. apply Qlt_bool_iff in El. lra.
Qed.

Lemma trade_pairs_length (log : list Trade) :
  (length (trade_pairs log) <= length (filter is_buy log))%nat.
Proof.
  unfold trade_pairs. induction (filter is_buy log) as [|b buys IH]; cbn [flat_map length].
  - lia.
  - rewrite length_app. destruct (paired_sell (filter is_sell log) b); cbn [length]; lia.
Qed.

Lemma fold_left_Qplus_pos (l : list Q) (acc : Q) :
  Forall (fun p => 0 < p) l -> acc <= fold_left Qplus l acc.
Proof.
  intro H. revert acc. induction H as [|p l Hp Hl IH]; intro acc; cbn [fold_left].
  - lra.
  - specialize (IH (acc + p)). lra.
Qed.

Lemma filter_is_win_pos (pairs : list Q) : Forall (fun p => 0 < p) (filter is_win pairs).
Proof.
  apply Forall_forall. intros p Hp. apply filter_In in Hp.
  destruct Hp as [_ Hp]. now apply Qlt_bool_iff in Hp.
Qed.

Lemma inject_nat_nonneg (n : nat) : 0 <= inject_Z (Z.of_nat n).
Proof. change 0 with (inject_Z 0). rewrite <- Zle_Qle. lia. Qed.

Lemma inject_nat_pos (n : nat) : (0 < n)%nat -> 0 < inject_Z (Z.of_nat n).
Proof. intro H. change 0 with (inject_Z 0). rewrite <- Zlt_Qlt. lia. Qed.

(** X27: Whatever the log, the statistics are consistent: winning and losing
    pairs together never exceed the total, at most one pair is formed per
    buy, the win rate lies between 0 and 1, the average win and loss are not
    negative, and the profit factor is infinite or not negative. A pair
    that breaks even counts as neither a win nor a loss. *)
Theorem trade_statistics_are_consistent (log : list Trade) :
  let stats := _calculate_trade_statistics log in
  (winning_trades stats + losing_trades stats <= total_trades stats)%nat /\
  (length (trade_pairs log) <= length (filter is_buy log))%nat /\
  0 <= win_rate stats /\ win_rate stats <= 1 /\
  0 <= avg_win stats /\ 0 <= avg_loss stats /\
  (profit_factor stats = PInf \/ exists q, profit_factor stats = Fin q /\ 0 <= q).
Proof.
  cbv zeta. split; [|split; [apply trade_pairs_length|]].
  - unfold _calculate_trade_statistics.
    destruct (nonempty log); cbn [negb]; [|cbn; lia].
    destruct (nonempty (trade_pairs log)); cbn [negb]; [|cbn; lia].
    cbn [winning_trades losing_trades total_trades].
    apply wins_and_losses_disjoint.
  - unfold _calculate_trade_statistics.
    destruct (nonempty log); cbn [negb];
      [|cbn; repeat split; try lra; right; exists 0; split; [reflexivity | lra]].
    destruct (nonempty (trade_pairs log)) eqn:Ep; cbn [negb];
      [|cbn; repeat split; try lra; right; exists 0; split; [reflexivity | lra]].
    cbn [win_rate avg_win avg_loss profit_factor].
    set (pairs := trade_pairs log) in *.
    assert (Hn : (0 < length pairs)%nat).
    { destruct pairs; [discriminate | cbn; lia]. }
    pose proof (wins_and_losses_disjoint pairs) as Hd.
    replace (0 <? length pairs)%nat with true by (symmetry; now apply Nat.ltb_lt).
    pose proof (inject_nat_pos _ Hn) as Hnpos.
    pose proof (inject_nat_nonneg (length (filter is_win pairs))) as Hw0.
    assert (Hwn : inject_Z (Z.of_nat (length (filter is_win pairs)))
                  <= inject_Z (Z.of_nat (length pairs))).
    { rewrite <- Zle_Qle. lia. }
    split; [apply Qle_shift_div_l; lra|].
    split; [apply Qle_shift_div_r; lra|].
    split.
    { destruct (filter is_win pairs) as [|w ws] eqn:Ew; cbn [nonempty]; [lra|].
      unfold np_mean. apply Qle_shift_div_l.
      - apply inject_nat_pos. cbn. lia.
      - pose proof (fold_left_Qplus_pos (w :: ws) 0) as H.
        rewrite <- Ew in H. specialize (H (filter_is_win_pos pairs)).
        rewrite Ew in H. unfold py_sum. lra. }
    split.
    { destruct (nonempty (filter is_loss pairs)); [apply Qabs_nonneg | lra]. }
    match goal with
    | |- context [Qlt_bool 0 ?x] => destruct (Qlt_bool 0 x) eqn:El
    end; [|now left].
    apply Qlt_bool_iff in El. right. eexists. split; [reflexivity|].
    apply Qle_shift_div_l; [exact El|].
    destruct (filter is_win pairs) as [|w ws] eqn:Ew; cbn [nonempty]; [lra|].
    pose proof (fold_left_Qplus_pos (w :: ws) 0) as H.
    rewrite <- Ew in H. specialize (H (filter_is_win_pos pairs)).
    rewrite Ew in H. unfold py_sum. lra.
Qed.

(** * Properties of the rolling indicators *)

Lemma window_spec (period : nat) (data w : list Q) (i : nat) :
  window period data i = Some w ->
  (1 <= period)%nat /\ (period <= S i)%nat /\ (S i <= length data)%nat /\
  w = firstn period (skipn (S i - period) data).
Proof.
  unfold window.
  destruct (1 <=? period)%nat eqn:E1; [|discriminate].
  destruct (period <=? S i)%nat eqn:E2; [|discriminate].
  destruct (S i <=? length data)%nat eqn:E3; [|discriminate].
  cbn [andb]. intro H. injection H as <-.
  apply Nat.leb_le in E1. apply Nat.leb_le in E2. apply Nat.leb_le in E3.
  repeat split; assumption.
Qed.

Lemma window_some (period : nat) (data : list Q) (i : nat) :
  (1 <= period)%nat -> (period <= S i)%nat -> (S i <= length data)%nat ->
  window period data i = Some (firstn period (skipn (S i - period) data)).
Proof.
  intros H1 H2 H3. unfold window.
  apply Nat.leb_le in H1. apply Nat.leb_le in H2. apply Nat.leb_le in H3.
  now rewrite H1, H2, H3.
Qed.

Lemma window_none (period : nat) (data : list Q) (i : nat) :
  (S i < period)%nat -> window period data i = None.
Proof.
  intro H. unfold window.
  replace (period <=? S i)%nat with false by (symmetry; apply Nat.leb_gt; exact H).
  now rewrite andb_false_r.
Qed.

Lemma window_length (period : nat) (data w : list Q) (i : nat) :
  window period data i = Some w -> length w = period /\ (1 <= period)%nat.
Proof.
  intro H. apply window_spec in H. destruct H as [H1 [H2 [H3 ->]]].
  split; [|exact H1].
  rewrite length_firstn, length_skipn. lia.
Qed.

Lemma In_firstn {A : Type} (n : nat) (l : list A) (x : A) : In x (firstn n l) -> In x l.
Proof. intro H. rewrite <- (firstn_skipn n l). apply in_or_app. now left. Qed.

Lemma In_skipn {A : Type} (n : nat) (l : list A) (x : A) : In x (skipn n l) -> In x l.
Proof. intro H. rewrite <- (firstn_skipn n l). apply in_or_app. now right. Qed.

Lemma window_incl (period : nat) (data w : list Q) (i : nat) (P : Q -> Prop) :
  window period data i = Some w -> Forall P data -> Forall P w.
Proof.
  intros H HP. apply window_spec in H. destruct H as [_ [_ [_ ->]]].
  apply Forall_forall. intros x Hx.
  apply (proj1 (Forall_forall P data) HP).
  eapply In_skipn. eapply In_firstn. exact Hx.
Qed.

(** The newest observation of a window is the entry at its position. *)
Lemma window_holds_current (period : nat) (data w : list Q) (i : nat) (x : Q) :
  window period data i = Some w -> nth_error data i = Some x -> In x w.
Proof.
  intros H Hx. apply window_spec in H. destruct H as [H1 [H2 [H3 ->]]].
  apply (nth_error_In _ (period - 1)).
  rewrite nth_error_firstn.
  replace (period - 1 <? period)%nat with true by (symmetry; apply Nat.ltb_lt; lia).
  rewrite nth_error_skipn.
  replace (S i - period + (period - 1))%nat with i by lia. exact Hx.
Qed.

Lemma fold_left_Qplus_bounds (lo hi : Q) (l : list Q) (acc : Q) :
  Forall (fun x => lo <= x /\ x <= hi) l ->
  acc + inject_Z (Z.of_nat (length l)) * lo <= fold_left Qplus l acc /\
  fold_left Qplus l acc <= acc + inject_Z (Z.of_nat (length l)) * hi.
Proof.
  intro H. revert acc. induction H as [|x l [Hlo Hhi] Hl IH]; intro acc.
  - cbn [fold_left length Z.of_nat]. change (inject_Z 0) with 0. lra.
  - cbn [fold_left length]. specialize (IH (acc + x)).
    rewrite Nat2Z.inj_succ, <- Z.add_1_r, inject_Z_plus.
    change (inject_Z 1) with 1. lra.
Qed.

Lemma np_mean_bounds (lo hi : Q) (l : list Q) :
  (0 < length l)%nat -> Forall (fun x => lo <= x /\ x <= hi) l ->
  lo <= np_mean l /\ np_mean l <= hi.
Proof.
  intros Hn H. unfold np_mean, py_sum.
  pose proof (fold_left_Qplus_bounds lo hi l 0 H) as [H1 H2].
  pose proof (inject_nat_pos _ Hn) as Hpos.
  split.
  - apply Qle_shift_div_l; [exact Hpos | lra].
  - apply Qle_shift_div_r; [exact Hpos | lra].
Qed.

Lemma np_mean_nonneg (l : list Q) :
  (0 < length l)%nat -> Forall (fun x => 0 <= x) l -> 0 <= np_mean l.
Proof.
  intros Hn H. unfold np_mean, py_sum.
  pose proof (inject_nat_pos _ Hn) as Hpos.
  apply Qle_shift_div_l; [exact Hpos|].
  assert (Hg : forall acc, 0 <= acc -> 0 <= fold_left Qplus l acc).
  { clear Hn Hpos. induction H as [|x l Hx Hl IH]; intros acc Hacc; cbn [fold_left].
    - exact Hacc.
    - apply IH. lra. }
  specialize (Hg 0). lra.
Qed.

Lemma Forall_map_seq {A : Type} (P : A -> Prop) (f : nat -> A) (start len : nat) :
  (forall i, (start <= i < start + len)%nat -> P (f i)) -> Forall P (map f (seq start len)).
Proof.
  intro H. apply Forall_forall. intros x Hx. apply in_map_iff in Hx.
  destruct Hx as [i [<- Hi]]. apply in_seq in Hi. apply H. exact Hi.
Qed.

(** X28: The moving average keeps the length of the series, is missing exactly
    until [period] observations are available, and every average lies
    between the bounds of the data. *)
Theorem sma_is_a_windowed_mean (data : list Q) (period : nat) (lo hi : Q) :
  (1 <= period)%nat -> data <> [] ->
  Forall (fun x => lo <= x /\ x <= hi) data ->
  exists out,
    sma data period = Some out /\
    length out = length data /\
    (forall i, (i < length data)%nat ->
       ((S i < period)%nat -> nth_error out i = Some NaN) /\
       ((period <= S i)%nat ->
          exists q, nth_error out i = Some (Fin q) /\ lo <= q /\ q <= hi)).
Proof.
  intros Hp Hne Hb. unfold sma. destruct data as [|d0 data']; [now contradiction Hne|].
  set (data := d0 :: data') in *.
  eexists. split; [reflexivity|]. split.
  - now rewrite length_map, length_seq.
  - intros i Hi. rewrite nth_error_map, nth_error_seq.
    replace (i <? length data)%nat with true by (symmetry; now apply Nat.ltb_lt).
    cbn [option_map Nat.add]. split.
    + intro Hs. unfold rolling. now rewrite window_none.
    + intro Hs. unfold rolling. rewrite window_some by lia.
      cbn [option_map of_option]. eexists. split; [reflexivity|].
      apply np_mean_bounds.
      * rewrite length_firstn, length_skipn. lia.
      * eapply window_incl; [apply window_some|exact Hb]; lia.
Qed.

Lemma sma_is_a_windowed_mean_witness :
  exists out, sma wavy_closes 5 = Some out /\ length out = length wavy_closes.
Proof.
  destruct (sma_is_a_windowed_mean wavy_closes 5 9 16) as [out [H1 [H2 _]]].
  - lia.
  - discriminate.
  - unfold wavy_closes. repeat constructor; vm_compute; discriminate.
  - exists out. split; [exact H1 | exact H2].
Defined.

Lemma diff_gains_nonneg (data : list Q) : Forall (fun x => 0 <= x) (gains data).
Proof.
  unfold gains. apply Forall_forall. intros x Hx. apply in_map_iff in Hx.
  destruct Hx as [d [<- _]]. destruct d as [v|]; [|lra].
  destruct (Qlt_bool 0 v) eqn:E; [|lra]. apply Qlt_bool_iff in E. lra.
Qed.

Lemma diff_losses_nonneg (data : list Q) : Forall (fun x => 0 <= x) (losses data).
Proof.
  unfold losses. apply Forall_forall. intros x Hx. apply in_map_iff in Hx.
  destruct Hx as [d [<- _]]. destruct d as [v|]; [|lra].
  destruct (Qlt_bool v 0) eqn:E; [|lra]. apply Qlt_bool_iff in E. lra.
Qed.

Lemma rsi_entry_range (gain loss : Q) :
  0 <= gain -> 0 <= loss ->
  nan_or_within 0 100 (fsub (Fin 100) (qdivf 100 (qaddf 1 (fdiv gain loss)))).
Proof.
  intros Hg Hl. unfold fdiv.
  destruct (Qeq_bool loss 0) eqn:E.
  - destruct (gain ?= 0) eqn:Ec.
    + now left.
    + rewrite <- Qlt_alt in Ec. lra.
    + cbn. right. exists (100 - 0). split; [reflexivity | lra].
  - apply Qeq_bool_neq in E. cbn [qaddf qdivf]. unfold fdiv.
    assert (Hl' : 0 < loss) by (destruct (Qlt_le_dec 0 loss); [assumption | exfalso; apply E; lra]).
    assert (Hr : 0 <= gain / loss) by (apply Qle_shift_div_l; lra).
    destruct (Qeq_bool (1 + gain / loss) 0) eqn:E1.
    + apply Qeq_bool_iff in E1. lra.
    + cbn [fsub]. right. eexists. split; [reflexivity|].
      assert (H0 : 0 < 100 / (1 + gain / loss)) by (apply Qlt_shift_div_l; lra).
      assert (H1 : 100 / (1 + gain / loss) <= 100) by (apply Qle_shift_div_r; lra).
      lra.
Qed.

Lemma rsi_value_cases (gain loss : Q) :
  0 <= gain -> 0 <= loss ->
  (loss == 0 -> gain == 0 -> rsi_value gain loss = NaN) /\
  (loss == 0 -> 0 < gain -> rsi_value gain loss = Fin 100) /\
  (0 < loss ->
     exists q, rsi_value gain loss = Fin q /\ q == 100 - 100 / (1 + gain / loss)).
Proof.
  intros Hg Hl. unfold rsi_value, fdiv. repeat split.
  - intros Hz Hgz. apply Qeq_bool_iff in Hz. rewrite Hz.
    rewrite Qeq_alt in Hgz. rewrite Hgz. reflexivity.
  - intros Hz Hgp. apply Qeq_bool_iff in Hz. rewrite Hz.
    rewrite Qgt_alt in Hgp. rewrite Hgp. reflexivity.
  - intro Hp. destruct (Qeq_bool loss 0) eqn:E; [apply Qeq_bool_iff in E; lra|].
    cbn [qaddf qdivf]. unfold fdiv.
    assert (Hr : 0 <= gain / loss) by (apply Qle_shift_div_l; lra).
    destruct (Qeq_bool (1 + gain / loss) 0) eqn:E1; [apply Qeq_bool_iff in E1; lra|].
    cbn [fsub]. eexists. split; reflexivity.
Qed.

Lemma nth_error_zip_with {A B C : Type} (f : A -> B -> C) (l : list A) (m : list B)
    (i : nat) :
  nth_error (zip_with f l m) i =
  match nth_error l i, nth_error m i with
  | Some a, Some b => Some (f a b)
  | _, _ => None
  end.
Proof.
  revert m i. induction l as [|a l IH]; intros [|b m] [|i]; cbn; try reflexivity.
  - destruct (nth_error l i); reflexivity.
  - apply IH.
Qed.

(** The first difference is missing; the others are the steps of the
    series. *)
Lemma diff_entries (R : Q -> Q -> Prop) (data : list Q) (i : nat) (d : option Q) :
  consecutive R data -> nth_error (diff data) i = Some d ->
  match i with
  | O => d = None
  | S j => exists a b, nth_error data j = Some a /\ nth_error data i = Some b /\
                       d = Some (b - a) /\ R a b
  end.
Proof.
  intros HR. unfold diff, shift. rewrite nth_error_zip_with, nth_error_firstn.
  cbn [repeat app].
  destruct (nth_error data i) as [b|] eqn:Eb; [|discriminate].
  assert (Hi : (i < length data)%nat) by (apply nth_error_Some; congruence).
  replace (i <? length data)%nat with true by (symmetry; now apply Nat.ltb_lt).
  destruct i as [|j]; cbn [nth_error].
  - intro H. now injection H as <-.
  - rewrite nth_error_map.
    destruct (nth_error data j) as [a|] eqn:Ea; cbn [option_map]; [|discriminate].
    intro H. injection H as <-. exists a, b. repeat split. exact (HR j a b Ea Eb).
Qed.

Lemma losses_of_never_falling (data : list Q) :
  consecutive Qle data -> Forall (fun x => x == 0) (losses data).
Proof.
  intro HR. unfold losses. apply Forall_forall. intros x Hx.
  apply in_map_iff in Hx. destruct Hx as [d [<- Hd]].
  apply In_nth_error in Hd. destruct Hd as [i Hi].
  pose proof (diff_entries Qle data i d HR Hi) as Hd.
  destruct i as [|j].
  - subst d. reflexivity.
  - destruct Hd as [a [b [_ [_ [-> Hab]]]]].
    destruct (Qlt_bool (b - a) 0) eqn:E; [apply Qlt_bool_iff in E; lra | reflexivity].
Qed.

Lemma gains_of_never_rising (data : list Q) :
  consecutive (fun a b => b <= a) data -> Forall (fun x => x == 0) (gains data).
Proof.
  intro HR. unfold gains. apply Forall_forall. intros x Hx.
  apply in_map_iff in Hx. destruct Hx as [d [<- Hd]].
  apply In_nth_error in Hd. destruct Hd as [i Hi].
  pose proof (diff_entries _ data i d HR Hi) as Hd.
  destruct i as [|j].
  - subst d. reflexivity.
  - destruct Hd as [a [b [_ [_ [-> Hab]]]]].
    destruct (Qlt_bool 0 (b - a)) eqn:E; [apply Qlt_bool_iff in E; lra | reflexivity].
Qed.

Lemma gains_of_rising (data : list Q) (i : nat) :
  consecutive Qlt data -> (S i < length data)%nat ->
  exists g, nth_error (gains data) (S i) = Some g /\ 0 < g.
Proof.
  intros HR Hi. unfold gains. rewrite nth_error_map.
  destruct (nth_error (diff data) (S i)) as [d|] eqn:Ed.
  - destruct (diff_entries Qlt data (S i) d HR Ed) as [a [b [_ [_ [-> Hab]]]]].
    cbn [option_map]. eexists. split; [reflexivity|].
    destruct (Qlt_bool 0 (b - a)) eqn:E; [lra|].
    apply Bool.negb_false_iff in E. apply Qle_bool_iff in E. lra.
  - exfalso. apply nth_error_None in Ed. revert Ed. unfold diff, shift.
    clear HR. destruct data as [|d0 rest]; [cbn in Hi; lia|].
    assert (Hlen : forall (l : list Q) (m : list (option Q)),
               length l = length m ->
               length (zip_with (fun x s => option_map (fun y => x - y) s) l m)
               = length l).
    { induction l as [|x l IH]; intros [|y m] Hm; cbn in *; try lia.
      rewrite IH; lia. }
    rewrite Hlen.
    + lia.
    + rewrite length_firstn, length_app, repeat_length, length_map. lia.
Qed.

Lemma np_mean_of_zeros (w : list Q) :
  (0 < length w)%nat -> Forall (fun x => x == 0) w -> np_mean w == 0.
Proof.
  intros Hn H.
  destruct (np_mean_bounds 0 0 w Hn) as [H1 H2]; [|lra].
  eapply Forall_impl; [|exact H]. cbn. intros x Hx. lra.
Qed.

Lemma fold_left_Qplus_ge_acc (l : list Q) (acc : Q) :
  Forall (fun x => 0 <= x) l -> acc <= fold_left Qplus l acc.
Proof.
  intro H. revert acc. induction H as [|x l Hx Hl IH]; intro acc; cbn [fold_left].
  - lra.
  - specialize (IH (acc + x)). lra.
Qed.

Lemma fold_left_Qplus_ge_member (l : list Q) (acc x : Q) :
  Forall (fun x => 0 <= x) l -> In x l -> acc + x <= fold_left Qplus l acc.
Proof.
  intro H. revert acc. induction H as [|y l Hy Hl IH]; intros acc Hin; cbn [fold_left].
  - destruct Hin.
  - destruct Hin as [-> | Hin].
    + apply fold_left_Qplus_ge_acc. exact Hl.
    + specialize (IH (acc + y) Hin). lra.
Qed.

Lemma np_mean_pos (w : list Q) (x : Q) :
  Forall (fun x => 0 <= x) w -> In x w -> 0 < x -> 0 < np_mean w.
Proof.
  intros H Hin Hx. unfold np_mean, py_sum.
  assert (Hn : (0 < length w)%nat) by (destruct w; [destruct Hin | cbn; lia]).
  pose proof (inject_nat_pos _ Hn) as Hpos.
  pose proof (fold_left_Qplus_ge_member w 0 x H Hin) as Hsum.
  apply Qlt_shift_div_l; [exact Hpos | lra].
Qed.

Lemma rsi_entry (data : list Q) (period : nat) (out : list pyfloat) (i : nat) :
  rsi data period = Some out -> (i < length data)%nat ->
  nth_error out i =
  Some match rolling np_mean period (gains data) i,
             rolling np_mean period (losses data) i with
       | Some gain, Some loss => rsi_value gain loss
       | _, _ => NaN
       end.
Proof.
  unfold rsi. destruct data as [|d0 data']; [discriminate|].
  set (data := d0 :: data').
  match goal with |- Some ?b = _ -> _ => set (body := b) end.
  intro H. injection H as <-. subst body. intro Hi.
  rewrite nth_error_map, nth_error_seq.
  replace (i <? length data)%nat with true by (symmetry; now apply Nat.ltb_lt).
  reflexivity.
Qed.

Lemma gains_length (data : list Q) : length (gains data) = length data.
Proof.
  unfold gains, diff, shift. rewrite length_map.
  assert (Hlen : forall (l : list Q) (m : list (option Q)),
             length l = length m ->
             length (zip_with (fun x s => option_map (fun y => x - y) s) l m)
             = length l).
  { induction l as [|x l IH]; intros [|y m] Hm; cbn in *; try lia.
    rewrite IH; lia. }
  apply Hlen. rewrite length_firstn, length_app, repeat_length, length_map. cbn. lia.
Qed.

Lemma losses_length (data : list Q) : length (losses data) = length data.
Proof.
  unfold losses. rewrite length_map. pose proof (gains_length data) as H.
  unfold gains in H. now rewrite length_map in H.
Qed.

(** X29: The relative strength index keeps the length of the series, is missing
    until [period] bars are available, and every entry of it is missing or
    lies between 0 and 100. Where a window is available, with average gain
    [gain] and average loss [loss], the unguarded division [gain / loss]
    makes the entry NaN when both are 0, 100 when there is a gain and no
    loss, and [100 - 100 / (1 + gain / loss)] otherwise. So a series that
    never falls has only NaN and 100, one that rises at every bar has 100
    from the second bar on wherever the window is available, and a flat
    series has only NaN. *)
Theorem rsi_between_0_and_100 (data : list Q) (period : nat) (out : list pyfloat) :
  rsi data period = Some out ->
  length out = length data /\
  Forall (nan_or_within 0 100) out /\
  (forall i, (i < length data)%nat -> (S i < period)%nat -> nth_error out i = Some NaN) /\
  (forall i, (i < length data)%nat -> (1 <= period)%nat -> (period <= S i)%nat ->
     exists gain loss,
       rolling np_mean period (gains data) i = Some gain /\
       rolling np_mean period (losses data) i = Some loss /\
       0 <= gain /\ 0 <= loss /\
       nth_error out i = Some (rsi_value gain loss) /\
       (loss == 0 -> gain == 0 -> nth_error out i = Some NaN) /\
       (loss == 0 -> 0 < gain -> nth_error out i = Some (Fin 100)) /\
       (0 < loss ->
          exists q, nth_error out i = Some (Fin q) /\
                    q == 100 - 100 / (1 + gain / loss))) /\
  (consecutive Qle data -> Forall (fun x => x = NaN \/ x = Fin 100) out) /\
  (consecutive Qlt data ->
     forall i, (1 <= i)%nat -> (i < length data)%nat ->
               (1 <= period)%nat -> (period <= S i)%nat ->
               nth_error out i = Some (Fin 100)) /\
  (consecutive Qeq data -> Forall (fun x => x = NaN) out).
Proof.
  intro Hrsi.
  assert (Hlen : length out = length data).
  { revert Hrsi. unfold rsi. destruct data as [|d0 data']; [discriminate|].
    set (data := d0 :: data').
    match goal with |- Some ?b = _ -> _ => set (body := b) end.
    intro H. injection H as <-. subst body. now rewrite length_map, length_seq. }
  assert (Hwin : forall i, (i < length data)%nat -> (1 <= period)%nat ->
                           (period <= S i)%nat ->
            exists wg wl,
              window period (gains data) i = Some wg /\
              window period (losses data) i = Some wl /\
              nth_error out i = Some (rsi_value (np_mean wg) (np_mean wl)) /\
              0 <= np_mean wg /\ 0 <= np_mean wl).
  { intros i Hi Hp Hs.
    pose proof (window_some period (gains data) i Hp Hs
                  ltac:(rewrite gains_length; lia)) as Eg.
    pose proof (window_some period (losses data) i Hp Hs
                  ltac:(rewrite losses_length; lia)) as El.
    eexists. eexists. split; [exact Eg|]. split; [exact El|]. split.
    - rewrite (rsi_entry data period out i Hrsi Hi). unfold rolling.
      rewrite Eg, El. reflexivity.
    - split; apply np_mean_nonneg.
      + apply window_length in Eg. lia.
      + eapply window_incl; [exact Eg | apply diff_gains_nonneg].
      + apply window_length in El. lia.
      + eapply window_incl; [exact El | apply diff_losses_nonneg]. }
  assert (Hentry : forall x, In x out ->
            exists i, (i < length data)%nat /\ nth_error out i = Some x).
  { intros x Hx. apply In_nth_error in Hx. destruct Hx as [i Hi]. exists i.
    split; [|exact Hi]. rewrite <- Hlen. apply nth_error_Some. congruence. }
  assert (Hearly : forall i, (i < length data)%nat ->
                     (period = 0%nat \/ (S i < period)%nat) ->
                     nth_error out i = Some NaN).
  { intros i Hi Hp. rewrite (rsi_entry data period out i Hrsi Hi). unfold rolling.
    assert (Hw : window period (gains data) i = None).
    { destruct Hp as [-> | Hp]; [reflexivity | now apply window_none]. }
    now rewrite Hw. }
  split; [exact Hlen|]. split; [|split; [|split; [|split; [|split]]]].
  - apply Forall_forall. intros x Hx. destruct (Hentry x Hx) as [i [Hi Hnth]].
    destruct (Nat.eq_dec period 0) as [H0 | H0];
      [rewrite (Hearly i Hi (or_introl H0)) in Hnth; injection Hnth as <-; now left|].
    destruct (Nat.le_gt_cases period (S i)) as [Hs | Hs];
      [|rewrite (Hearly i Hi (or_intror Hs)) in Hnth; injection Hnth as <-; now left].
    destruct (Hwin i Hi ltac:(lia) Hs) as [wg [wl [_ [_ [Hv [Hg Hl]]]]]].
    rewrite Hv in Hnth. injection Hnth as <-.
    apply rsi_entry_range; assumption.
  - intros i Hi Hs. apply Hearly; [exact Hi | now right].
  - intros i Hi Hp Hs.
    destruct (Hwin i Hi Hp Hs) as [wg [wl [Eg [El [Hv [Hg Hl]]]]]].
    exists (np_mean wg), (np_mean wl). unfold rolling. rewrite Eg, El.
    destruct (rsi_value_cases (np_mean wg) (np_mean wl) Hg Hl) as [C1 [C2 C3]].
    repeat split; try assumption.
    + intros Hz Hgz. rewrite Hv. f_equal. now apply C1.
    + intros Hz Hgp. rewrite Hv. f_equal. now apply C2.
    + intro Hlp. destruct (C3 Hlp) as [q [Hq1 Hq2]]. exists q.
      split; [rewrite Hv; f_equal; exact Hq1 | exact Hq2].
  - intro Hup. apply Forall_forall. intros x Hx. destruct (Hentry x Hx) as [i [Hi Hnth]].
    destruct (Nat.eq_dec period 0) as [H0 | H0];
      [rewrite (Hearly i Hi (or_introl H0)) in Hnth; injection Hnth as <-; now left|].
    destruct (Nat.le_gt_cases period (S i)) as [Hs | Hs];
      [|rewrite (Hearly i Hi (or_intror Hs)) in Hnth; injection Hnth as <-; now left].
    destruct (Hwin i Hi ltac:(lia) Hs) as [wg [wl [Eg [El [Hv [Hg Hl]]]]]].
    rewrite Hv in Hnth. injection Hnth as <-.
    assert (Hz : np_mean wl == 0).
    { apply np_mean_of_zeros.
      - apply window_length in El. lia.
      - eapply window_incl; [exact El | now apply losses_of_never_falling]. }
    destruct (rsi_value_cases (np_mean wg) (np_mean wl) Hg Hl) as [C1 [C2 _]].
    destruct (Qlt_le_dec 0 (np_mean wg)) as [Hgp | Hgz].
    + right. now apply C2.
    + left. apply C1; [exact Hz | lra].
  - intros Hup i H1 Hi Hp Hs.
    destruct (Hwin i Hi Hp Hs) as [wg [wl [Eg [El [Hv [Hg Hl]]]]]].
    rewrite Hv. f_equal.
    assert (Hz : np_mean wl == 0).
    { apply np_mean_of_zeros.
      - apply window_length in El. lia.
      - eapply window_incl; [exact El|]. apply losses_of_never_falling.
        intros j a b Ha Hb. apply Qlt_le_weak. exact (Hup j a b Ha Hb). }
    assert (Hgp : 0 < np_mean wg).
    { destruct i as [|j]; [lia|].
      destruct (gains_of_rising data j Hup Hi) as [g [Hgn Hgpos]].
      apply (np_mean_pos wg g).
      - eapply window_incl; [exact Eg | apply diff_gains_nonneg].
      - exact (window_holds_current _ _ _ _ _ Eg Hgn).
      - exact Hgpos. }
    destruct (rsi_value_cases (np_mean wg) (np_mean wl) Hg Hl) as [_ [C2 _]].
    now apply C2.
  - intro Hflat. apply Forall_forall. intros x Hx.
    destruct (Hentry x Hx) as [i [Hi Hnth]].
    destruct (Nat.eq_dec period 0) as [H0 | H0];
      [rewrite (Hearly i Hi (or_introl H0)) in Hnth; now injection Hnth as <-|].
    destruct (Nat.le_gt_cases period (S i)) as [Hs | Hs];
      [|rewrite (Hearly i Hi (or_intror Hs)) in Hnth; now injection Hnth as <-].
    destruct (Hwin i Hi ltac:(lia) Hs) as [wg [wl [Eg [El [Hv [Hg Hl]]]]]].
    rewrite Hv in Hnth. injection Hnth as <-.
    assert (Hzl : np_mean wl == 0).
    { apply np_mean_of_zeros.
      - apply window_length in El. lia.
      - eapply window_incl; [exact El|]. apply losses_of_never_falling.
        intros j a b Ha Hb. pose proof (Hflat j a b Ha Hb). lra. }
    assert (Hzg : np_mean wg == 0).
    { apply np_mean_of_zeros.
      - apply window_length in Eg. lia.
      - eapply window_incl; [exact Eg|]. apply gains_of_never_rising.
        intros j a b Ha Hb. pose proof (Hflat j a b Ha Hb). lra. }
    destruct (rsi_value_cases (np_mean wg) (np_mean wl) Hg Hl) as [C1 _].
    now apply C1.
Qed.

Lemma rsi_between_0_and_100_witness :
  exists out, rsi rising_closes 3 = Some out /\
              Forall (nan_or_within 0 100) out /\
              nth_error out 4 = Some (Fin 100).
Proof.
  eexists. split; [reflexivity|].
  destruct (rsi_between_0_and_100 rising_closes 3 _ eq_refl)
    as [_ [Hrange [_ [_ [_ [Hrise _]]]]]].
  split; [exact Hrange|].
  apply Hrise; try (vm_compute; lia).
  intros i a b Ha Hb. unfold rising_closes in Ha, Hb.
  do 6 (destruct i as [|i];
        [cbn in Ha, Hb;
         first [discriminate Hb | injection Ha as <-; injection Hb as <-; reflexivity]|]).
  destruct i; discriminate Ha.
Defined.

Lemma window_max_ge (w : list Q) (x : Q) : In x w -> x <= window_max w.
Proof.
  unfold window_max. destruct w as [|y rest]; [intros []|].
  assert (Hg : forall l acc z, (z <= acc \/ In z l) -> z <= fold_left Qmax l acc).
  { induction l as [|a l IH]; intros acc z Hz; cbn [fold_left].
    - destruct Hz as [Hz | []]. exact Hz.
    - apply IH. destruct Hz as [Hz | [-> | Hz]].
      + left. pose proof (Q.le_max_l acc a). lra.
      + left. apply Q.le_max_r.
      + now right. }
  intros [-> | Hx]; apply Hg; [left; lra | now right].
Qed.

Lemma window_min_le (w : list Q) (x : Q) : In x w -> window_min w <= x.
Proof.
  unfold window_min. destruct w as [|y rest]; [intros []|].
  assert (Hg : forall l acc z, (acc <= z \/ In z l) -> fold_left Qmin l acc <= z).
  { induction l as [|a l IH]; intros acc z Hz; cbn [fold_left].
    - destruct Hz as [Hz | []]. exact Hz.
    - apply IH. destruct Hz as [Hz | [-> | Hz]].
      + left. pose proof (Q.le_min_l acc a). lra.
      + left. apply Q.le_min_r.
      + now right. }
  intros [-> | Hx]; apply Hg; [left; lra | now right].
Qed.

(** X30: When every bar closes between its low and its high, each entry of
    Williams %R is missing or lies between -100 and 0: it is never
    infinite, although the code divides by the range of the window without
    a guard (a flat window gives NaN). *)
Theorem williams_r_between_minus_100_and_0 (high low close : list Q) (period : nat)
    (out : list pyfloat) :
  (forall i h l c, nth_error high i = Some h -> nth_error low i = Some l ->
                   nth_error close i = Some c -> l <= c /\ c <= h) ->
  williams_r high low close period = Some out ->
  Forall (nan_or_within (- (100)) 0) out.
Proof.
  intros Hbar. unfold williams_r. destruct high as [|h0 high']; [discriminate|].
  set (high := h0 :: high') in *.
  match goal with |- Some ?b = _ -> _ => set (body := b) end.
  intro H. injection H as <-. subst body.
  apply Forall_map_seq. intros i _. unfold rolling.
  destruct (window period high i) as [wh|] eqn:Eh; cbn [option_map]; [|now left].
  destruct (window period low i) as [wl|] eqn:El; cbn [option_map]; [|now left].
  destruct (nth_error close i) as [c|] eqn:Ec; [|now left].
  destruct (nth_error high i) as [h|] eqn:Enh.
  2:{ apply window_spec in Eh. apply nth_error_None in Enh. lia. }
  destruct (nth_error low i) as [l|] eqn:Enl.
  2:{ apply window_spec in El. apply nth_error_None in Enl. lia. }
  destruct (Hbar i h l c Enh Enl Ec) as [Hlc Hch].
  pose proof (window_max_ge wh h (window_holds_current _ _ _ _ _ Eh Enh)) as Hmax.
  pose proof (window_min_le wl l (window_holds_current _ _ _ _ _ El Enl)) as Hmin.
  set (hh := window_max wh) in *. set (ll := window_min wl) in *.
  unfold fdiv. destruct (Qeq_bool (hh - ll) 0) eqn:E.
  - apply Qeq_bool_iff in E.
    assert (Hz : hh - c == 0) by lra.
    rewrite Qeq_alt in Hz. rewrite Hz. now left.
  - apply Qeq_bool_neq in E. cbn [fmulq]. right. eexists. split; [reflexivity|].
    assert (Hpos : 0 < hh - ll)
      by (destruct (Qlt_le_dec 0 (hh - ll)); [assumption | exfalso; apply E; lra]).
    assert (H0 : 0 <= (hh - c) / (hh - ll)) by (apply Qle_shift_div_l; lra).
    assert (H1 : (hh - c) / (hh - ll) <= 1) by (apply Qle_shift_div_r; lra).
    lra.
Qed.

Lemma williams_r_between_minus_100_and_0_witness :
  exists out, williams_r wavy_highs wavy_lows wavy_closes 14 = Some out /\
              Forall (nan_or_within (- (100)) 0) out.
Proof.
  eexists. split; [reflexivity|].
  refine (williams_r_between_minus_100_and_0 wavy_highs wavy_lows wavy_closes 14 _ _ _).
  - intros i h l c Hh Hl Hc.
    unfold wavy_highs in Hh. unfold wavy_lows in Hl.
    rewrite nth_error_map in Hh, Hl. rewrite Hc in Hh, Hl.
    cbn in Hh, Hl. injection Hh as <-. injection Hl as <-. lra.
  - reflexivity.
Defined.
